(** * swimai: the Recon identifier parser and the WARP downlinks

    A shallow embedding of [swimai/reacon/parsers.py] and of
    [swimai/client/downlinks/downlinks.py].

    - Module [Py] holds what both files share: Python exceptions.
    - Module [Recon] embeds the parser: [InputMessage] is the mutable cursor
      every parser method receives, so the methods live in a state-and-error
      monad over it.
    - Module [Downlinks] embeds the downlink models and views over a store of
      manager, model and view objects addressed by reference, because one
      manager is shared by its model and by all the views attached to it;
      [send_message], which suspends on the [linked] event, is embedded as
      the steps of the loop that runs it.
    - Modules [ReconFacts], [DownlinksFacts] and [Scenarios] hold the
      properties, the last one on concrete messages and a concrete store. *)

From Stdlib Require Import ZArith Ascii String List Bool Lia.
From stdpp Require Import base option list strings pretty gmap.

Local Open Scope string_scope.

Set Warnings "-register-all".

(* ===================================================================== *)
(** ** Python exceptions *)
(* ===================================================================== *)

Module Py.

(** The exception classes the two source files raise, each with the message
    it is constructed with. *)
Inductive exn : Type :=
| IndexError (msg : string)
| ValueError (msg : string)
| TypeError (msg : string)
| RuntimeError (msg : string)
| AttributeError (msg : string)
| Exception (msg : string).

(** The double quote, for the messages that contain one. *)
Definition dquote : string := String (ascii_of_nat 34) EmptyString.

(** [str(None)] inside an f-string, and [str(s)] for a [str]. *)
Definition format_opt (o : option string) : string :=
  match o with
  | Some s => s
  | None => "None"
  end.

(** [str.isspace] on the code points below 256, the ones [ascii] holds:
    [\t \n \v \f \r], [\x1c]-[\x1f], the space, [\x85] and [\xa0]. *)
Definition isspace (c : ascii) : bool :=
  let n := nat_of_ascii c in
  ((9 <=? n) && (n <=? 13) || (28 <=? n) && (n <=? 32)
   || (n =? 133) || (n =? 160))%nat.

Fixpoint lstrip (s : string) : string :=
  match s with
  | EmptyString => EmptyString
  | String c s' => if isspace c then lstrip s' else s
  end.

Fixpoint rstrip (s : string) : string :=
  match s with
  | EmptyString => EmptyString
  | String c s' =>
      match rstrip s' with
      | EmptyString => if isspace c then EmptyString else String c EmptyString
      | r => String c r
      end
  end.

(** [str.strip()] with no argument. *)
Definition strip (s : string) : string := rstrip (lstrip s).

(** [ord(char)] for a one-character string. *)
Definition ord (c : ascii) : Z := Z.of_nat (nat_of_ascii c).

End Py.

(* ===================================================================== *)
(** ** parsers.py *)
(* ===================================================================== *)

Module Recon.
Import Py.

(** [class InputMessage]: the text and the cursor into it. *)
Record InputMessage : Type := { message : string; index : nat }.

(** [InputMessage.__init__]. *)
Definition InputMessage_init (recon_string : string) : InputMessage :=
  {| message := recon_string; index := 0 |}.

(** The objects the parser methods pass around and return. [PyStr] is a
    Python [str]; [PyText], [PyBool], [PyExtant], [PyAttr] and [PyRecord] are
    instances of the structure classes the file imports. *)
Inductive pyval : Type :=
| PyNone
| PyStr (s : string)
| PyText (payload : pyval)
| PyBool (b : bool)
| PyExtant
| PyAttr (key value : pyval)
| PyRecord (items : list pyval).

(** What a parser method does with the cursor: it returns, it raises, or the
    model ran out of nesting fuel. The cursor is kept on a raise because the
    caller's [InputMessage] object has been mutated by then. *)
Inductive presult (A : Type) : Type :=
| Returns (a : A) (m : InputMessage)
| Raises (e : exn) (m : InputMessage)
| OutOfFuel.
Arguments Returns {A} a m.
Arguments Raises {A} e m.
Arguments OutOfFuel {A}.

Definition P (A : Type) : Type := InputMessage -> presult A.

#[export] Instance P_ret : MRet P := fun A a m => Returns a m.
#[export] Instance P_bind : MBind P := fun A B k c m =>
  match c m with
  | Returns a m' => k a m'
  | Raises e m' => Raises e m'
  | OutOfFuel => OutOfFuel
  end.

(** [InputMessage.head]: [self.message[self.index]]. The cursor only ever
    grows from 0, so the only failing subscript is one past the end. *)
Definition head : P ascii := fun m =>
  match String.get (index m) (message m) with
  | Some c => Returns c m
  | None => Raises (IndexError "string index out of range") m
  end.

(** [InputMessage.step]: advance, then [head]. *)
Definition step : P ascii := fun m =>
  head {| message := message m; index := index m + 1 |}.

(** [InputMessage.strip]: strips the whole text and leaves the cursor. *)
Definition InputMessage_strip : P unit := fun m =>
  Returns () {| message := strip (message m); index := index m |}.

(** [q] does what [p] does wherever [p] does not run out of fuel. *)
Definition refines {A : Type} (p q : P A) : Prop :=
  forall m, p m <> OutOfFuel -> q m = p m.

(** [p] gives a Python outcome on every cursor. *)
Definition total {A : Type} (p : P A) : Prop :=
  forall m, p m <> OutOfFuel.

(** The characters left from the cursor on. *)
Definition remaining (m : InputMessage) : nat :=
  String.length (message m) - index m.

(** The helpers of [swimai/reacon/utils.py] the parsers await: the value
    each coroutine returns, on a code point. *)
Class ReconUtils : Type := {
  is_ident_start_char : Z -> bool;
  is_ident_char : Z -> bool
}.

(** The two operations of [swimai/structure/structs.py] whose results the
    parsers hand back:
    [ValueBuilder_add_bind x] is [b = ValueBuilder(); b.add(x); b.bind()],
    and [Text_eq_str t s] is [t == s] for a [Text] instance [t] and a [str]. *)
Class Structs : Type := {
  ValueBuilder_add_bind : pyval -> pyval;
  Text_eq_str : pyval -> string -> bool
}.

Section Parsers.

Context {utils : ReconUtils} {structs : Structs}.

(** Modelled from the spec: [isinstance(value, Text)] for the class [Text]
    of [swimai/structure/structs.py], which section 3 gives as one of the
    kinds of value of the value tree; a [str] or [None] is not one. *)
Definition isinstance_Text (value : pyval) : bool :=
  match value with
  | PyText _ => true
  | _ => false
  end.

(** [ReconStructureParser.create_ident]. *)
Definition create_ident (value : pyval) : pyval :=
  if isinstance_Text value then
    if Text_eq_str value "true" then PyBool true
    else if Text_eq_str value "false" then PyBool false
    else PyText value
  else PyText value.

(** [ReconStructureParser.create_attr]; [None] for the second argument is the
    call that leaves it out and gets the default [Value.extant()]. *)
Definition create_attr (key : pyval) (value : option pyval) : pyval :=
  PyAttr key (default PyExtant value).

(** [ReconStructureParser.create_record_builder] followed by the one [add]
    the caller makes. *)
Definition record_builder_add (field : pyval) : pyval := PyRecord [field].

(** The [while] loop of [IdentParser.parse]. Every iteration moves the cursor
    one character forward, so [n] bounds the iterations. *)
Fixpoint ident_loop (n : nat) (output : string) (char : ascii) : P string :=
  match n with
  | O => fun _ => OutOfFuel
  | S n' =>
      if is_ident_char (ord char) then
        char' ← step;
        ident_loop n' (output +:+ String char EmptyString) char'
      else mret output
  end.

(** [IdentParser.parse]. Like every [parse] below it is written at the
    arguments its one caller in the module gives it: the [*_output] and
    [builder] parameters are [None]. *)
Definition IdentParser_parse : P pyval := fun m =>
  (char ← head;
   if is_ident_start_char (ord char) then
     char' ← step;
     output ← ident_loop (S (String.length (message m)))
                         (String char EmptyString) char';
     mret (create_ident (PyStr output))
   else mret (create_ident PyNone)) m.

Definition parse_ident : P pyval := IdentParser_parse.

(** [LiteralParser.parse]. *)
Definition LiteralParser_parse : P pyval :=
  char ← head;
  if Ascii.eqb char "(" then mret PyNone
  else if Ascii.eqb char "{" then mret PyNone
  else if Ascii.eqb char "[" then mret PyNone
  else if is_ident_start_char (ord char) then
    value_output ← parse_ident;
    mret (ValueBuilder_add_bind value_output)
  else mret PyNone.

(** [PrimaryParser.parse]. *)
Definition PrimaryParser_parse : P pyval :=
  char ← head;
  if Ascii.eqb char "(" then mret PyNone
  else LiteralParser_parse.

(** [InvokeOperatorParser.parse]. *)
Definition InvokeOperatorParser_parse : P pyval :=
  expr_output ← PrimaryParser_parse;
  char ← head;
  if Ascii.eqb char "(" then mret PyNone
  else mret expr_output.

(** [PrefixOperatorParser.parse]. *)
Definition PrefixOperatorParser_parse : P pyval :=
  char ← head;
  if Ascii.eqb char "!" then mret PyNone
  else if Ascii.eqb char "~" then mret PyNone
  else if Ascii.eqb char "-" then mret PyNone
  else if Ascii.eqb char "+" then mret PyNone
  else InvokeOperatorParser_parse.

(** [MultiplicativeOperatorParser.parse]. *)
Definition MultiplicativeOperatorParser_parse : P pyval :=
  lhs_output ← PrefixOperatorParser_parse;
  char ← head;
  if Ascii.eqb char "*" then mret PyNone
  else if Ascii.eqb char "/" then mret PyNone
  else if Ascii.eqb char "%" then mret PyNone
  else mret lhs_output.

(** [AdditiveOperatorParser.parse]. *)
Definition AdditiveOperatorParser_parse : P pyval :=
  lhs_output ← MultiplicativeOperatorParser_parse;
  char ← head;
  if Ascii.eqb char "+" then mret PyNone
  else if Ascii.eqb char "-" then mret PyNone
  else mret lhs_output.

(** [AttrParser.parse]; [parser_parse_block] is [parser.parse_block]. *)
Definition AttrParser_parse (parser_parse_block : P pyval) : P pyval :=
  char ← head;
  if Ascii.eqb char "@" then
    _ ← step;
    key_output ← parse_ident;
    char' ← head;
    if Ascii.eqb char' "(" then
      _ ← step;
      char'' ← head;
      if Ascii.eqb char'' ")" then mret (create_attr key_output None)
      else
        value_output ← parser_parse_block;
        mret (create_attr key_output (Some value_output))
    else mret (create_attr key_output (Some PyNone))
  else mret (create_attr PyNone (Some PyNone)).

(** A call of a coroutine function that is not awaited evaluates to a
    coroutine object, and that is true in a condition whatever the awaited
    call would have returned. *)
Definition unawaited (awaited_result : bool) : bool := true.

(** [AttrExpressionParser.parse]: the [elif] tests the coroutine object. *)
Definition AttrExpressionParser_parse (parser_parse_block : P pyval)
  : P pyval :=
  char ← head;
  if Ascii.eqb char "@" then
    field_output ← AttrParser_parse parser_parse_block;
    mret (record_builder_add field_output)
  else if unawaited (is_ident_start_char (ord char)) then
    value_output ← AdditiveOperatorParser_parse;
    mret (ValueBuilder_add_bind value_output)
  else mret PyNone.

(** [ComparisonOperatorParser.parse] up to [LambdaFuncParser.parse]: each
    stores what the next level returns in a local and falls off its end. *)
Definition ComparisonOperatorParser_parse (parser_parse_block : P pyval)
  : P pyval :=
  _ ← AttrExpressionParser_parse parser_parse_block; mret PyNone.

Definition BitwiseAndOperator_parse (parser_parse_block : P pyval)
  : P pyval :=
  _ ← ComparisonOperatorParser_parse parser_parse_block; mret PyNone.

Definition BitwiseXorOperatorParser_parse (parser_parse_block : P pyval)
  : P pyval :=
  _ ← BitwiseAndOperator_parse parser_parse_block; mret PyNone.

Definition BitwiseOrOperatorParser_parse (parser_parse_block : P pyval)
  : P pyval :=
  _ ← BitwiseXorOperatorParser_parse parser_parse_block; mret PyNone.

Definition AndOperatorParser_parse (parser_parse_block : P pyval)
  : P pyval :=
  _ ← BitwiseOrOperatorParser_parse parser_parse_block; mret PyNone.

Definition OrOperatorParser_parse (parser_parse_block : P pyval)
  : P pyval :=
  _ ← AndOperatorParser_parse parser_parse_block; mret PyNone.

Definition ConditionalOperatorParser_parse (parser_parse_block : P pyval)
  : P pyval :=
  _ ← OrOperatorParser_parse parser_parse_block; mret PyNone.

Definition LambdaFuncParser_parse (parser_parse_block : P pyval)
  : P pyval :=
  _ ← ConditionalOperatorParser_parse parser_parse_block; mret PyNone.

(** [BlockParser.parse]. It is the one cycle of the module: an attribute
    with an argument list re-enters it through [parser.parse_block], and
    [fuel] bounds that nesting. The value builder it makes first is a
    coroutine object nobody uses. The recursion limit of the interpreter,
    which ends a deep nesting of attributes with [RecursionError], is not
    part of the model: what is stated of the source is stated of messages
    that do not re-enter the block parser. *)
Fixpoint BlockParser_parse (fuel : nat) : P pyval :=
  match fuel with
  | O => fun _ => OutOfFuel
  | S fuel' =>
      _ ← InputMessage_strip;
      _ ← LambdaFuncParser_parse (BlockParser_parse fuel');
      mret PyNone
  end.

(** [ReconParser.parse_block_string]. *)
Definition parse_block_string (fuel : nat) (recon_string : string)
  : presult pyval :=
  BlockParser_parse fuel (InputMessage_init recon_string).

(** The messages the claims about identifiers speak of. A bare identifier is
    a start character followed by identifier characters only; the start
    character is none of the punctuation the operator parsers test for. *)
Fixpoint all_ident_chars (s : string) : bool :=
  match s with
  | EmptyString => true
  | String c s' => is_ident_char (ord c) && all_ident_chars s'
  end.

Definition is_punctuation (c : ascii) : bool :=
  existsb (Ascii.eqb c)
          ["@"; "!"; "~"; "-"; "+"; "("; "{"; "["; "*"; "/"; "%"]%char.

Definition bare_identifier (s : string) : bool :=
  match s with
  | EmptyString => false
  | String c s' =>
      is_ident_start_char (ord c) && negb (is_punctuation c)
      && all_ident_chars s'
  end.

End Parsers.

(** Modelled from the spec: the character classes of
    [swimai/reacon/utils.py], as section 4.1 words them: identifiers begin
    with a letter or an underscore and continue with letters, digits,
    underscores, [-] and [.]. *)
Definition is_letter (c : Z) : bool :=
  ((65 <=? c) && (c <=? 90) || (97 <=? c) && (c <=? 122))%Z.

Definition is_digit (c : Z) : bool := ((48 <=? c) && (c <=? 57))%Z.

#[export] Instance spec_utils : ReconUtils := {|
  is_ident_start_char c := is_letter c || (c =? 95)%Z;
  is_ident_char c :=
    is_letter c || is_digit c || (c =? 95)%Z || (c =? 45)%Z || (c =? 46)%Z
|}.

(** Modelled from the spec: the value builder of
    [swimai/structure/structs.py], which on [bind] returns a record when an
    attribute is present and the single contained value otherwise (section
    3). The spec is silent on comparing a [Text] with a [str]; it is taken
    to hold when the text holds that string, the reading under which
    [create_ident] yields a boolean most often. *)
#[export] Instance spec_structs : Structs := {|
  ValueBuilder_add_bind x :=
    match x with
    | PyAttr _ _ => PyRecord [x]
    | _ => x
    end;
  Text_eq_str t s :=
    match t with
    | PyText (PyStr s') => String.eqb s' s
    | _ => false
    end
|}.

End Recon.

(* ===================================================================== *)
(** ** downlinks.py *)
(* ===================================================================== *)

Module Downlinks.
Import Py.

(** Modelled from the spec: the value tree of [swimai/structures], as
    section 3 gives it. A value is absent, extant, a text, a number, a
    boolean or a record; a record is an ordered sequence of items, and an
    item is an attribute, a slot or a bare value. Numbers are the integral
    ones. *)
Inductive Value : Type :=
| Absent
| Extant
| Text (s : string)
| Num (n : Z)
| Bool (b : bool)
| Record (items : list Item)
with Item : Type :=
| Attr (name : string) (value : Value)
| Slot (key value : Value)
| ValueItem (value : Value).

(** Modelled from the spec: [class Envelope] of [swimai/warp], which
    section 3 gives as a tag, a node, a lane and a body. *)
Record Envelope : Type := {
  tag : string;
  env_node_uri : string;
  env_lane_uri : string;
  body : Value
}.

(** *** Python dictionaries

    A [dict] with [str] keys, as the list of its items in insertion order:
    iteration order is observable in [MapDownlinkView.register_manager]. *)
Definition dict (V : Type) : Type := list (string * V).

(** [d.get(k)], [None] when the key is missing. *)
Fixpoint dict_get {V : Type} (k : string) (d : dict V) : option V :=
  match d with
  | [] => None
  | (k', v) :: d' => if String.eqb k' k then Some v else dict_get k d'
  end.

(** [d[k] = v]: a present key keeps its place, a new key goes last. *)
Fixpoint dict_set {V : Type} (k : string) (v : V) (d : dict V) : dict V :=
  match d with
  | [] => [(k, v)]
  | (k', v') :: d' =>
      if String.eqb k' k then (k', v) :: d' else (k', v') :: dict_set k v d'
  end.

(** The dictionary [d.pop(k, ...)] leaves behind. *)
Fixpoint dict_remove {V : Type} (k : string) (d : dict V) : dict V :=
  match d with
  | [] => []
  | (k', v') :: d' =>
      if String.eqb k' k then d' else (k', v') :: dict_remove k d'
  end.

(** [d.update(other)]. *)
Definition dict_update {V : Type} (d other : dict V) : dict V :=
  fold_left (fun acc kv => dict_set kv.1 kv.2 acc) other d.

(** [iter(d)]: the keys, in insertion order. *)
Definition dict_keys {V : Type} (d : dict V) : list string := d.*1.

(** [d.values()]. *)
Definition dict_values {V : Type} (d : dict V) : list V := d.*2.

(** References to the objects of the store. *)
Definition ref : Type := nat.

(** [registered_classes]: class name to class object. *)
Definition Classes : Type := dict nat.

(** What the downlinks use of [swimai/structures], [swimai/recon] and of the
    user's objects, none of which is in [downlinks.py].
    - [Obj] is the type of the Python objects handed to callbacks;
      [of_value] is a [Value] taken as such an object and [of_str] a [str];
    - [record_to_object] is [RecordConverter.get_converter().record_to_object],
      as the object it returns: section 4.1 has it fail on a type that is
      not registered when the flag is set, a case that is not part of this
      model, so what is stated of a decoded record holds where the
      converter returns;
    - [Recon_to_string] is [Recon.to_string];
    - [Value_tag] is the property [Value.tag];
    - [head_key body] is [body.get_head().value.get_head().value];
    - [get_body] is [Value.get_body];
    - [as_dict_key o] is the [str] key an object hashes and compares equal
      to, when there is one;
    - [to_recon] is [Envelope.to_recon] of [swimai/warp]. *)
Class Structures : Type := {
  Obj : Type;
  of_value : Value -> Obj;
  of_str : string -> Obj;
  record_to_object : Value -> Classes -> bool -> Obj;
  Recon_to_string : Value -> string;
  Value_tag : Value -> option string;
  head_key : Value -> Value;
  get_body : Value -> Value;
  as_dict_key : Obj -> option string;
  to_recon : Envelope -> string
}.

Section Store.

Context {structures : Structures}.

(** What [client.schedule_task] is given: a user callback with its
    arguments, or a coroutine method of the client or of a view. *)
Inductive Coroutine : Type :=
| user_callback (callback : nat) (args : list Obj)
| add_downlink_view (view : ref)
| remove_downlink_view (view : ref)
| view_get_value (view : ref) (key : option Obj)
| view_send_message (view : ref) (value : Obj)
| view_put_message (view : ref) (key value : Obj)
| view_remove_message (view : ref) (key : Obj).

(** The state each subclass of [DownlinkModel] adds in its [__init__]. *)
Inductive ModelState : Type :=
| EventDownlinkModel
| ValueDownlinkModel (value : Obj) (synced : bool)
| MapDownlinkModel (map : dict (Obj * Obj)) (synced : bool).

(** [class DownlinkModel]; [linked] is the [asyncio.Event], set or not. *)
Record DownlinkModel : Type := {
  m_host_uri : option string;
  m_node_uri : option string;
  m_lane_uri : option string;
  m_task : option nat;
  m_connection : option ref;
  m_linked : bool;
  m_downlink_manager : option ref;
  m_state : ModelState
}.

(** Modelled from the spec: [class DownlinkManager] of
    [swimai/client/connections.py], by what section 3 and section 4.3 say it
    holds: one model, the set of attached views, the merged
    [registered_classes], the [strict] flag and [is_open]. *)
Record DownlinkManager : Type := {
  mgr_registered_classes : Classes;
  mgr_strict : bool;
  mgr_is_open : bool;
  mgr_downlink_model : ref;
  mgr_downlink_views : list ref
}.

(** The callbacks and the event each subclass of [DownlinkView] adds. *)
Inductive ViewState : Type :=
| EventDownlinkView (on_event_callback : option nat)
| ValueDownlinkView (did_set_callback : option nat) (initialised : bool)
| MapDownlinkView (did_update_callback did_remove_callback : option nat)
                  (initialised : bool).

(** [class DownlinkView]; [v_registered_classes] and [v_strict] are the
    private [__registered_classes] and [__strict]. *)
Record DownlinkView : Type := {
  v_host_uri : option string;
  v_node_uri : option string;
  v_lane_uri : option string;
  v_is_open : bool;
  v_model : option ref;
  v_downlink_manager : option ref;
  v_registered_classes : Classes;
  v_strict : bool;
  v_state : ViewState
}.

(** The objects of one client and the tasks handed to its loop, oldest
    first. *)
Record World : Type := {
  managers : gmap ref DownlinkManager;
  models : gmap ref DownlinkModel;
  views : gmap ref DownlinkView;
  scheduled : list Coroutine
}.

(** A method returns or raises, in both cases leaving a store behind.
    [Stuck] is not a Python outcome: the store has no object of the expected
    class at a reference the method follows. *)
Inductive wresult (A : Type) : Type :=
| Ok (a : A) (w : World)
| Raise (e : exn) (w : World)
| Stuck.
Arguments Ok {A} a w.
Arguments Raise {A} e w.
Arguments Stuck {A}.

Definition W (A : Type) : Type := World -> wresult A.

#[export] Instance W_ret : MRet W := fun A a w => Ok a w.
#[export] Instance W_bind : MBind W := fun A B k c w =>
  match c w with
  | Ok a w' => k a w'
  | Raise e w' => Raise e w'
  | Stuck => Stuck
  end.

Definition raise {A : Type} (e : exn) : W A := fun w => Raise e w.
Definition stuck {A : Type} : W A := fun _ => Stuck.

Definition deref {A : Type} (store : World -> gmap ref A) (r : ref) : W A :=
  fun w => match store w !! r with
           | Some a => Ok a w
           | None => Stuck
           end.

Definition get_manager : ref -> W DownlinkManager := deref managers.
Definition get_model : ref -> W DownlinkModel := deref models.
Definition get_view : ref -> W DownlinkView := deref views.

(** The store with another object at a reference. *)
Definition store_manager (r : ref) (g : DownlinkManager) (w : World) : World :=
  {| managers := <[r := g]> (managers w); models := models w;
     views := views w; scheduled := scheduled w |}.

Definition store_model (r : ref) (m : DownlinkModel) (w : World) : World :=
  {| managers := managers w; models := <[r := m]> (models w);
     views := views w; scheduled := scheduled w |}.

Definition store_view (r : ref) (v : DownlinkView) (w : World) : World :=
  {| managers := managers w; models := models w;
     views := <[r := v]> (views w); scheduled := scheduled w |}.

(** Assignments to the attributes of the object at a reference. *)
Definition put_manager (r : ref) (g : DownlinkManager) : W unit :=
  fun w => Ok () (store_manager r g w).

Definition put_model (r : ref) (m : DownlinkModel) : W unit :=
  fun w => Ok () (store_model r m w).

Definition put_view (r : ref) (v : DownlinkView) : W unit :=
  fun w => Ok () (store_view r v w).

(** [self.client.schedule_task(...)]. *)
Definition schedule_task (c : Coroutine) : W unit := fun w =>
  Ok () {| managers := managers w; models := models w;
           views := views w; scheduled := scheduled w ++ [c] |}.

(** [for x in xs: body(x)]. *)
Fixpoint for_each {A : Type} (xs : list A) (body : A -> W unit) : W unit :=
  match xs with
  | [] => mret ()
  | x :: xs' => _ ← body x; for_each xs' body
  end.

(** *** Field assignments *)

Definition model_with_linked (b : bool) (m : DownlinkModel) : DownlinkModel :=
  {| m_host_uri := m_host_uri m; m_node_uri := m_node_uri m;
     m_lane_uri := m_lane_uri m; m_task := m_task m;
     m_connection := m_connection m; m_linked := b;
     m_downlink_manager := m_downlink_manager m; m_state := m_state m |}.

Definition model_with_state (st : ModelState) (m : DownlinkModel)
  : DownlinkModel :=
  {| m_host_uri := m_host_uri m; m_node_uri := m_node_uri m;
     m_lane_uri := m_lane_uri m; m_task := m_task m;
     m_connection := m_connection m; m_linked := m_linked m;
     m_downlink_manager := m_downlink_manager m; m_state := st |}.

Definition manager_with_strict (b : bool) (g : DownlinkManager)
  : DownlinkManager :=
  {| mgr_registered_classes := mgr_registered_classes g; mgr_strict := b;
     mgr_is_open := mgr_is_open g;
     mgr_downlink_model := mgr_downlink_model g;
     mgr_downlink_views := mgr_downlink_views g |}.

Definition manager_with_classes (c : Classes) (g : DownlinkManager)
  : DownlinkManager :=
  {| mgr_registered_classes := c; mgr_strict := mgr_strict g;
     mgr_is_open := mgr_is_open g;
     mgr_downlink_model := mgr_downlink_model g;
     mgr_downlink_views := mgr_downlink_views g |}.

Definition view_with_strict (b : bool) (v : DownlinkView) : DownlinkView :=
  {| v_host_uri := v_host_uri v; v_node_uri := v_node_uri v;
     v_lane_uri := v_lane_uri v; v_is_open := v_is_open v;
     v_model := v_model v; v_downlink_manager := v_downlink_manager v;
     v_registered_classes := v_registered_classes v; v_strict := b;
     v_state := v_state v |}.

Definition view_with_is_open (b : bool) (v : DownlinkView) : DownlinkView :=
  {| v_host_uri := v_host_uri v; v_node_uri := v_node_uri v;
     v_lane_uri := v_lane_uri v; v_is_open := b;
     v_model := v_model v; v_downlink_manager := v_downlink_manager v;
     v_registered_classes := v_registered_classes v; v_strict := v_strict v;
     v_state := v_state v |}.

Definition view_with_model (r : option ref) (v : DownlinkView)
  : DownlinkView :=
  {| v_host_uri := v_host_uri v; v_node_uri := v_node_uri v;
     v_lane_uri := v_lane_uri v; v_is_open := v_is_open v;
     v_model := r; v_downlink_manager := v_downlink_manager v;
     v_registered_classes := v_registered_classes v; v_strict := v_strict v;
     v_state := v_state v |}.

Definition view_with_downlink_manager (r : option ref) (v : DownlinkView)
  : DownlinkView :=
  {| v_host_uri := v_host_uri v; v_node_uri := v_node_uri v;
     v_lane_uri := v_lane_uri v; v_is_open := v_is_open v;
     v_model := v_model v; v_downlink_manager := r;
     v_registered_classes := v_registered_classes v; v_strict := v_strict v;
     v_state := v_state v |}.

Definition view_with_state (st : ViewState) (v : DownlinkView)
  : DownlinkView :=
  {| v_host_uri := v_host_uri v; v_node_uri := v_node_uri v;
     v_lane_uri := v_lane_uri v; v_is_open := v_is_open v;
     v_model := v_model v; v_downlink_manager := v_downlink_manager v;
     v_registered_classes := v_registered_classes v; v_strict := v_strict v;
     v_state := st |}.

(** [DownlinkView.__init__] and the [__init__] of each subclass. *)
Definition DownlinkView_init (st : ViewState) : DownlinkView :=
  {| v_host_uri := None; v_node_uri := None; v_lane_uri := None;
     v_is_open := false; v_model := None; v_downlink_manager := None;
     v_registered_classes := []; v_strict := false; v_state := st |}.

Definition EventDownlinkView_init : DownlinkView :=
  DownlinkView_init (EventDownlinkView None).
Definition ValueDownlinkView_init : DownlinkView :=
  DownlinkView_init (ValueDownlinkView None false).
Definition MapDownlinkView_init : DownlinkView :=
  DownlinkView_init (MapDownlinkView None None false).

(** [DownlinkModel.__init__] and the [__init__] of each subclass. *)
Definition DownlinkModel_init (st : ModelState) : DownlinkModel :=
  {| m_host_uri := None; m_node_uri := None; m_lane_uri := None;
     m_task := None; m_connection := None; m_linked := false;
     m_downlink_manager := None; m_state := st |}.

Definition ValueDownlinkModel_init : DownlinkModel :=
  DownlinkModel_init (ValueDownlinkModel (of_value Absent) false).
Definition MapDownlinkModel_init : DownlinkModel :=
  DownlinkModel_init (MapDownlinkModel [] false).

(** *** DownlinkView *)

(** [DownlinkView.open]. *)
Definition DownlinkView_open (self : ref) : W unit :=
  v ← get_view self;
  if negb (v_is_open v) then
    _ ← put_view self (view_with_is_open true v);
    schedule_task (add_downlink_view self)
  else mret ().

(** [DownlinkView.close]. *)
Definition DownlinkView_close (self : ref) : W unit :=
  v ← get_view self;
  if v_is_open v then
    _ ← put_view self (view_with_is_open false v);
    schedule_task (remove_downlink_view self)
  else mret ().

(** The property [DownlinkView.registered_classes]. *)
Definition registered_classes (self : ref) : W Classes :=
  v ← get_view self;
  match v_downlink_manager v with
  | None => mret (v_registered_classes v)
  | Some manager =>
      g ← get_manager manager; mret (mgr_registered_classes g)
  end.

(** The property [DownlinkView.strict]. *)
Definition strict (self : ref) : W bool :=
  v ← get_view self;
  match v_downlink_manager v with
  | None => mret (v_strict v)
  | Some manager => g ← get_manager manager; mret (mgr_strict g)
  end.

(** The setter of [DownlinkView.strict]. *)
Definition strict_setter (self : ref) (strict : bool) : W unit :=
  v ← get_view self;
  match v_downlink_manager v with
  | Some manager =>
      g ← get_manager manager;
      put_manager manager (manager_with_strict (v_strict v) g)
  | None => put_view self (view_with_strict strict v)
  end.

(** [DownlinkView.assign_manager]. *)
Definition assign_manager (self manager : ref) : W unit :=
  g ← get_manager manager;
  v ← get_view self;
  _ ← put_view self (view_with_model (Some (mgr_downlink_model g)) v);
  classes ← registered_classes self;
  g ← get_manager manager;
  _ ← put_manager manager
        (manager_with_classes
           (dict_update (mgr_registered_classes g) classes) g);
  s ← strict self;
  g ← get_manager manager;
  _ ← put_manager manager (manager_with_strict s g);
  v ← get_view self;
  put_view self (view_with_downlink_manager (Some manager) v).

(** [EventDownlinkView.execute_on_event]. *)
Definition execute_on_event (self : ref) (event : Obj) : W unit :=
  v ← get_view self;
  match v_state v with
  | EventDownlinkView (Some callback) =>
      schedule_task (user_callback callback [event])
  | EventDownlinkView None => mret ()
  | _ => stuck
  end.

(** [ValueDownlinkView.execute_did_set]. *)
Definition execute_did_set (self : ref) (current_value old_value : Obj)
  : W unit :=
  v ← get_view self;
  match v_state v with
  | ValueDownlinkView (Some callback) _ =>
      schedule_task (user_callback callback [current_value; old_value])
  | ValueDownlinkView None _ => mret ()
  | _ => stuck
  end.

(** [MapDownlinkView.execute_did_update]. *)
Definition execute_did_update (self : ref) (key new_value old_value : Obj)
  : W unit :=
  v ← get_view self;
  match v_state v with
  | MapDownlinkView (Some callback) _ _ =>
      schedule_task (user_callback callback [key; new_value; old_value])
  | MapDownlinkView None _ _ => mret ()
  | _ => stuck
  end.

(** [MapDownlinkView.execute_did_remove]. *)
Definition execute_did_remove (self : ref) (key old_value : Obj) : W unit :=
  v ← get_view self;
  match v_state v with
  | MapDownlinkView _ (Some callback) _ =>
      schedule_task (user_callback callback [key; old_value])
  | MapDownlinkView _ None _ => mret ()
  | _ => stuck
  end.

(** *** DownlinkManager *)

(** Modelled from the spec: the fan-out methods of [DownlinkManager]
    ([swimai/client/connections.py]), which section 4.3 describes as a
    fan-out to all attached views. *)
Definition subscribers_on_event (manager : ref) (event : Obj) : W unit :=
  g ← get_manager manager;
  for_each (mgr_downlink_views g) (fun view => execute_on_event view event).

Definition subscribers_did_set (manager : ref) (current_value old_value : Obj)
  : W unit :=
  g ← get_manager manager;
  for_each (mgr_downlink_views g)
           (fun view => execute_did_set view current_value old_value).

Definition subscribers_did_update (manager : ref)
  (key new_value old_value : Obj) : W unit :=
  g ← get_manager manager;
  for_each (mgr_downlink_views g)
           (fun view => execute_did_update view key new_value old_value).

Definition subscribers_did_remove (manager : ref) (key old_value : Obj)
  : W unit :=
  g ← get_manager manager;
  for_each (mgr_downlink_views g)
           (fun view => execute_did_remove view key old_value).

(** *** DownlinkModel *)

(** [self.downlink_manager.attr] on a model: the manager, or the
    [AttributeError] of [None]. *)
Definition model_downlink_manager (m : DownlinkModel) (attr : string)
  : W ref :=
  match m_downlink_manager m with
  | Some manager => mret manager
  | None =>
      raise (AttributeError
               ("'NoneType' object has no attribute '" +:+ attr +:+ "'"))
  end.

(** [seq[0]] on a tuple or a list. *)
Definition subscript_0 (seq : list Obj) : W Obj :=
  match seq with
  | x :: _ => mret x
  | [] => raise (IndexError "list index out of range")
  end.

(** The items of the tuple [(key, value)]. *)
Definition tuple_items (t : Obj * Obj) : list Obj := [t.1; t.2].

(** [message.body.tag == name]. *)
Definition body_tag_is (message : Envelope) (name : string) : bool :=
  match Value_tag (body message) with
  | Some t => String.eqb t name
  | None => false
  end.

(** The decoding [EventDownlinkModel.receive_event] and
    [ValueDownlinkModel.__set_value] both start with. *)
Definition decode_body (m : DownlinkModel) (message : Envelope) : W Obj :=
  match body message with
  | Absent => mret (of_value Absent)
  | Text _ | Num _ | Bool _ => mret (of_value (body message))
  | _ =>
      manager ← model_downlink_manager m "registered_classes";
      g ← get_manager manager;
      mret (record_to_object (body message) (mgr_registered_classes g)
                             (mgr_strict g))
  end.

(** [DownlinkModel.receive_linked]. *)
Definition receive_linked (self : ref) : W unit :=
  m ← get_model self;
  put_model self (model_with_linked true m).

(** [DownlinkModel.receive_unlinked]. *)
Definition receive_unlinked (self : ref) (message : Envelope) : W unit :=
  m ← get_model self;
  if body_tag_is message "laneNotFound" then
    raise (Exception ("Lane " +:+ dquote +:+ format_opt (m_lane_uri m)
                      +:+ dquote +:+ " was not found on the remote agent!"))
  else mret ().

(** [receive_synced] of the three subclasses. *)
Definition receive_synced (self : ref) : W unit :=
  m ← get_model self;
  match m_state m with
  | EventDownlinkModel =>
      raise (TypeError "Event downlink does not support synced responses!")
  | ValueDownlinkModel value _ =>
      put_model self (model_with_state (ValueDownlinkModel value true) m)
  | MapDownlinkModel map _ =>
      put_model self (model_with_state (MapDownlinkModel map true) m)
  end.

(** [EventDownlinkModel.receive_event]. *)
Definition EventDownlinkModel_receive_event (self : ref) (message : Envelope)
  : W unit :=
  m ← get_model self;
  event ← decode_body m message;
  manager ← model_downlink_manager m "subscribers_on_event";
  subscribers_on_event manager event.

(** [ValueDownlinkModel.__set_value]. *)
Definition set_value (self : ref) (message : Envelope) : W unit :=
  m ← get_model self;
  match m_state m with
  | ValueDownlinkModel old_value synced =>
      value ← decode_body m message;
      _ ← put_model self
            (model_with_state (ValueDownlinkModel value synced) m);
      manager ← model_downlink_manager m "subscribers_did_set";
      subscribers_did_set manager value old_value
  | _ => stuck
  end.

(** [MapDownlinkModel.__receive_update]. *)
Definition receive_update (self : ref) (message : Envelope) : W unit :=
  m ← get_model self;
  match m_state m with
  | MapDownlinkModel map synced =>
      manager ← model_downlink_manager m "registered_classes";
      g ← get_manager manager;
      let key := record_to_object (head_key (body message))
                   (mgr_registered_classes g) (mgr_strict g) in
      let value := record_to_object (get_body (body message))
                     (mgr_registered_classes g) (mgr_strict g) in
      let recon_key := Recon_to_string (head_key (body message)) in
      old_value ← subscript_0
                    (default [of_value Absent]
                             (tuple_items <$> dict_get recon_key map));
      _ ← put_model self
            (model_with_state
               (MapDownlinkModel (dict_set recon_key (key, value) map) synced)
               m);
      subscribers_did_update manager key value old_value
  | _ => stuck
  end.

(** [MapDownlinkModel.__receive_remove]. *)
Definition receive_remove (self : ref) (message : Envelope) : W unit :=
  m ← get_model self;
  match m_state m with
  | MapDownlinkModel map synced =>
      manager ← model_downlink_manager m "registered_classes";
      g ← get_manager manager;
      let key := record_to_object (head_key (body message))
                   (mgr_registered_classes g) (mgr_strict g) in
      let recon_key := Recon_to_string (head_key (body message)) in
      old_value ← subscript_0
                    (default [of_value Absent]
                             (tuple_items <$> dict_get recon_key map));
      _ ← put_model self
            (model_with_state
               (MapDownlinkModel (dict_remove recon_key map) synced) m);
      subscribers_did_remove manager key old_value
  | _ => stuck
  end.

(** [MapDownlinkModel.receive_event]: two [if]s in a row. *)
Definition MapDownlinkModel_receive_event (self : ref) (message : Envelope)
  : W unit :=
  _ ← (if body_tag_is message "update" then receive_update self message
       else mret ());
  if body_tag_is message "remove" then receive_remove self message
  else mret ().

(** [receive_event], dispatched on the class of the model. *)
Definition receive_event (self : ref) (message : Envelope) : W unit :=
  m ← get_model self;
  match m_state m with
  | EventDownlinkModel => EventDownlinkModel_receive_event self message
  | ValueDownlinkModel _ _ => set_value self message
  | MapDownlinkModel _ _ => MapDownlinkModel_receive_event self message
  end.

(** [DownlinkModel.receive_message]. *)
Definition receive_message (self : ref) (message : Envelope) : W unit :=
  if String.eqb (tag message) "linked" then receive_linked self
  else if String.eqb (tag message) "synced" then receive_synced self
  else if String.eqb (tag message) "event" then receive_event self message
  else if String.eqb (tag message) "unlinked" then
    receive_unlinked self message
  else mret ().

(** Modelled from the spec: the reader of a connection
    ([Connection.wait_for_messages] in [swimai/client/connections.py]), which
    section 4.2 describes as processing the inbound envelopes of a route one
    after the other and delivering each to [receive_message]. Nothing catches
    what [receive_message] raises. *)
Definition wait_for_messages (model : ref) (inbound : list Envelope)
  : W unit :=
  for_each inbound (receive_message model).

(** *** The views: replay on attach *)

(** [key, value = item] for a [str]: its characters are unpacked. *)
Definition unpack_2 (item : string) : W (string * string) :=
  match item with
  | String a (String b EmptyString) =>
      mret (String a EmptyString, String b EmptyString)
  | String _ (String _ (String _ _)) =>
      raise (ValueError "too many values to unpack (expected 2)")
  | String _ EmptyString =>
      raise (ValueError "not enough values to unpack (expected 2, got 1)")
  | EmptyString =>
      raise (ValueError "not enough values to unpack (expected 2, got 0)")
  end.

(** [self.initialised.set()]. *)
Definition initialised_set (self : ref) : W unit :=
  v ← get_view self;
  match v_state v with
  | ValueDownlinkView callback _ =>
      put_view self (view_with_state (ValueDownlinkView callback true) v)
  | MapDownlinkView did_update did_remove _ =>
      put_view self
        (view_with_state (MapDownlinkView did_update did_remove true) v)
  | EventDownlinkView _ => stuck
  end.

(** [self.model.value] on a view. *)
Definition view_model_value (self : ref) : W Obj :=
  v ← get_view self;
  match v_model v with
  | None => raise (AttributeError "'NoneType' object has no attribute 'value'")
  | Some model =>
      m ← get_model model;
      match m_state m with
      | ValueDownlinkModel value _ => mret value
      | _ => stuck
      end
  end.

(** [self.model.map] on a view. *)
Definition view_model_map (self : ref) : W (dict (Obj * Obj)) :=
  v ← get_view self;
  match v_model v with
  | None => raise (AttributeError "'NoneType' object has no attribute 'map'")
  | Some model =>
      m ← get_model model;
      match m_state m with
      | MapDownlinkModel map _ => mret map
      | _ => stuck
      end
  end.

(** [EventDownlinkView.register_manager]. *)
Definition EventDownlinkView_register_manager (self manager : ref) : W unit :=
  assign_manager self manager.

(** [ValueDownlinkView.register_manager]. *)
Definition ValueDownlinkView_register_manager (self manager : ref) : W unit :=
  _ ← assign_manager self manager;
  g ← get_manager manager;
  _ ← (if mgr_is_open g then
         value ← view_model_value self;
         execute_did_set self value (of_value Absent)
       else mret ());
  initialised_set self.

(** [MapDownlinkView.register_manager]: the [for] iterates the dictionary,
    that is its keys, and unpacks each key into [key, value]. *)
Definition MapDownlinkView_register_manager (self manager : ref) : W unit :=
  _ ← assign_manager self manager;
  g ← get_manager manager;
  _ ← (if mgr_is_open g then
         map ← view_model_map self;
         for_each (dict_keys map) (fun item =>
           kv ← unpack_2 item;
           execute_did_update self (of_str kv.1) (of_str kv.2)
                              (of_value Absent))
       else mret ());
  initialised_set self.

(** *** The views: reads and writes *)

(** What [get] hands back: an object, a stored [(key, value)] tuple, or the
    [values()] of the map. *)
Inductive Ret : Type :=
| ret_obj (o : Obj)
| ret_item (t : Obj * Obj)
| ret_values (vs : list (Obj * Obj)).

(** The view at [self], when it is of the class whose method is called. *)
Definition get_value_view (self : ref) : W DownlinkView :=
  v ← get_view self;
  match v_state v with
  | ValueDownlinkView _ _ => mret v
  | _ => stuck
  end.

Definition get_map_view (self : ref) : W DownlinkView :=
  v ← get_view self;
  match v_state v with
  | MapDownlinkView _ _ _ => mret v
  | _ => stuck
  end.

(** The property [ValueDownlinkView.value]. *)
Definition ValueDownlinkView_value (self : ref) : W Obj :=
  v ← get_view self;
  match v_model v with
  | None => mret (of_value Absent)
  | Some _ => view_model_value self
  end.

(** [MapDownlinkView.map]. *)
Definition MapDownlinkView_map (self : ref) (key : option Obj) : W Ret :=
  v ← get_view self;
  match v_model v with
  | None => mret (ret_obj (of_value Absent))
  | Some _ =>
      map ← view_model_map self;
      match key with
      | None => mret (ret_values (dict_values map))
      | Some k =>
          match as_dict_key k ≫= (fun s => dict_get s map) with
          | Some t => mret (ret_item t)
          | None => mret (ret_obj (of_value Absent))
          end
      end
  end.

Section Blocking.

(** [task.result()] on the future [schedule_task] returned: the caller's
    thread blocks until the loop has run the coroutine, then gets what it
    returned or what it raised. *)
Variable task_result : Coroutine -> W Ret.

(** [ValueDownlinkView.get]. *)
Definition ValueDownlinkView_get (self : ref) (wait_sync : bool) : W Ret :=
  v ← get_value_view self;
  if v_is_open v then
    if wait_sync then
      _ ← schedule_task (view_get_value self None);
      task_result (view_get_value self None)
    else
      value ← ValueDownlinkView_value self;
      mret (ret_obj value)
  else raise (RuntimeError "Link is not open!").

(** [ValueDownlinkView.set]. *)
Definition ValueDownlinkView_set (self : ref) (value : Obj) (blocking : bool)
  : W unit :=
  v ← get_value_view self;
  if v_is_open v then
    _ ← schedule_task (view_send_message self value);
    if blocking then
      _ ← task_result (view_send_message self value); mret ()
    else mret ()
  else raise (RuntimeError "Link is not open!").

(** [MapDownlinkView.get]. *)
Definition MapDownlinkView_get (self : ref) (key : option Obj)
  (wait_sync : bool) : W Ret :=
  v ← get_map_view self;
  if v_is_open v then
    if wait_sync then
      _ ← schedule_task (view_get_value self key);
      task_result (view_get_value self key)
    else MapDownlinkView_map self key
  else raise (RuntimeError "Link is not open!").

(** [MapDownlinkView.put]. *)
Definition MapDownlinkView_put (self : ref) (key value : Obj)
  (blocking : bool) : W unit :=
  v ← get_map_view self;
  if v_is_open v then
    _ ← schedule_task (view_put_message self key value);
    if blocking then
      _ ← task_result (view_put_message self key value); mret ()
    else mret ()
  else raise (RuntimeError "Link is not open!").

(** [MapDownlinkView.remove]. *)
Definition MapDownlinkView_remove (self : ref) (key : Obj) (blocking : bool)
  : W unit :=
  v ← get_map_view self;
  if v_is_open v then
    _ ← schedule_task (view_remove_message self key);
    if blocking then
      _ ← task_result (view_remove_message self key); mret ()
    else mret ()
  else raise (RuntimeError "Link is not open!").

End Blocking.

(** *** Outbound: [send_message] on the loop

    [ValueDownlinkModel.send_message] and [MapDownlinkModel.send_message]
    have the same body, with two suspension points: the wait on the
    [linked] event, and the write to the connection. *)
Inductive SendMessage : Type :=
| at_linked_wait (self : ref) (message : Envelope)
| at_connection_send (self : ref) (recon : string).

(** The loop as far as outbound frames go: the store, the [send_message]
    coroutines not yet finished, and the frames those coroutines have given
    to [connection.send_message], oldest first, each with the model that
    sent it. *)
Record Loop : Type := {
  world : World;
  suspended : list SendMessage;
  written : list (ref * string)
}.

(** What can happen next on the loop: the reader delivers an inbound
    envelope to a model, some task calls [send_message] on a model, or the
    loop resumes one of the suspended coroutines. *)
Inductive Event : Type :=
| ev_receive (model : ref) (message : Envelope)
| ev_send_message (model : ref) (message : Envelope)
| ev_resume (task : nat).

(** Whether the model at [self] has a [send_message] method. *)
Definition has_send_message (self : ref) (w : World) : bool :=
  match models w !! self with
  | Some m =>
      match m_state m with
      | EventDownlinkModel => false
      | _ => true
      end
  | None => false
  end.

(** [self.linked.is_set()]. *)
Definition linked_is_set (self : ref) (w : World) : bool :=
  match models w !! self with
  | Some m => m_linked m
  | None => false
  end.

(** One step of the loop; [None] when the event cannot happen in this
    state: a coroutine waiting for [linked] is resumed only once the event
    is set. *)
Definition loop_step (ev : Event) (s : Loop) : option Loop :=
  match ev with
  | ev_receive model message =>
      match receive_message model message (world s) with
      | Ok _ w' | Raise _ w' =>
          Some {| world := w'; suspended := suspended s;
                  written := written s |}
      | Stuck => None
      end
  | ev_send_message model message =>
      if has_send_message model (world s) then
        Some {| world := world s;
                suspended := suspended s ++ [at_linked_wait model message];
                written := written s |}
      else None
  | ev_resume task =>
      match suspended s !! task with
      | Some (at_linked_wait self message) =>
          if linked_is_set self (world s) then
            Some {| world := world s;
                    suspended :=
                      <[task := at_connection_send self (to_recon message)]>
                        (suspended s);
                    written := written s |}
          else None
      | Some (at_connection_send self recon) =>
          Some {| world := world s;
                  suspended := delete task (suspended s);
                  written := written s ++ [(self, recon)] |}
      | None => None
      end
  end.

(** A run of the loop. *)
Fixpoint loop_run (evs : list Event) (s : Loop) : option Loop :=
  match evs with
  | [] => Some s
  | ev :: evs' =>
      match loop_step ev s with
      | Some s' => loop_run evs' s'
      | None => None
      end
  end.

(** The loop before any [send_message] has been called. *)
Definition loop_init (w : World) : Loop :=
  {| world := w; suspended := []; written := [] |}.

(** *** What the statements about the store speak of *)

(** The [did_update] and [did_remove] callbacks of a view object. *)
Definition did_update_callback (v : DownlinkView) : option nat :=
  match v_state v with
  | MapDownlinkView callback _ _ => callback
  | _ => None
  end.

Definition did_remove_callback (v : DownlinkView) : option nat :=
  match v_state v with
  | MapDownlinkView _ callback _ => callback
  | _ => None
  end.

Definition is_map_view (v : DownlinkView) : bool :=
  match v_state v with
  | MapDownlinkView _ _ _ => true
  | _ => false
  end.

Definition is_value_view (v : DownlinkView) : bool :=
  match v_state v with
  | ValueDownlinkView _ _ => true
  | _ => false
  end.

(** Every reference of [subscribers] is a map view of the store. *)
Definition map_views (w : World) (subscribers : list ref) : bool :=
  forallb (fun r => match views w !! r with
                    | Some v => is_map_view v
                    | None => false
                    end) subscribers.

(** The callbacks [field] selects among [subscribers], in their order. *)
Definition callbacks_of (field : DownlinkView -> option nat) (w : World)
  (subscribers : list ref) : list nat :=
  omap (fun r => views w !! r ≫= field) subscribers.

(** The store with more tasks handed to the loop. *)
Definition schedule_all (cs : list Coroutine) (w : World) : World :=
  {| managers := managers w; models := models w; views := views w;
     scheduled := scheduled w ++ cs |}.

(** The store after [assign_manager] has attached the detached view [v] at
    [self] to the manager [g] at [manager]. *)
Definition attach (self manager : ref) (v : DownlinkView)
  (g : DownlinkManager) (w : World) : World :=
  store_view self
    (view_with_downlink_manager (Some manager)
       (view_with_model (Some (mgr_downlink_model g)) v))
    (store_manager manager
       (manager_with_strict (v_strict v)
          (manager_with_classes
             (dict_update (mgr_registered_classes g)
                          (v_registered_classes v)) g)) w).

(** A method that leaves every model object as it was, and a method that
    leaves every [linked] event as it was. *)
Definition keeps_models {A : Type} (c : W A) : Prop :=
  forall w, match c w with
            | Ok _ w' | Raise _ w' => models w' = models w
            | Stuck => True
            end.

Definition keeps_linked {A : Type} (c : W A) : Prop :=
  forall w, match c w with
            | Ok _ w' | Raise _ w' =>
                forall r, linked_is_set r w' = linked_is_set r w
            | Stuck => True
            end.

(** The invariant of the loop: a coroutine past its wait, and a frame given
    to the connection, belong to a model whose [linked] event is set. *)
Definition loop_invariant (s : Loop) : Prop :=
  (forall self recon,
      at_connection_send self recon ∈ suspended s ->
      linked_is_set self (world s) = true)
  /\ (forall self recon,
        (self, recon) ∈ written s -> linked_is_set self (world s) = true).

(** What a closing downlink would show in the store: the model has let go
    of its connection, and the subscribers have been handed something. *)
Definition connection_released (self : ref) (w : World) : bool :=
  match models w !! self with
  | Some m => bool_decide (m_connection m = None)
  | None => false
  end.

Definition subscribers_notified (before after : World) : bool :=
  negb (length (scheduled after) =? length (scheduled before))%nat.

(** The error every read and write of a closed view raises. *)
Definition not_open : exn := RuntimeError "Link is not open!".

End Store.

Arguments Ok {structures A} a w.
Arguments Raise {structures A} e w.
Arguments Stuck {structures A}.

(** Modelled from the spec: an instance of the structures and of the codec.
    Decoded objects are the values themselves (section 4.1: primitives map
    to text, number and boolean; without registered classes a record stays a
    record). The tag of a body is the name of its head attribute, the key
    is the [key] slot of that attribute, and the rest is the payload
    (section 4.4: [@update(key: K)] with payload [V], [@remove(key: K)]).
    A text is emitted as an identifier when it is one and is not reserved,
    and between quotes otherwise; an envelope as [@tag(node:N,lane:L)body],
    a text body between quotes as in the frames of section 6 (sections 4.1
    and 4.6). *)
Definition spec_Value_tag (v : Value) : option string :=
  match v with
  | Record (Attr name _ :: _) => Some name
  | _ => None
  end.

Definition spec_head_key (v : Value) : Value :=
  match v with
  | Record (Attr _ (Record (Slot _ k :: _)) :: _) => k
  | _ => Absent
  end.

Definition spec_get_body (v : Value) : Value :=
  match v with
  | Record [_] => Absent
  | Record [_; ValueItem payload] => payload
  | Record (_ :: payload) => Record payload
  | _ => Absent
  end.

Definition spec_to_string (v : Value) : string :=
  match v with
  | Text s =>
      if Recon.bare_identifier (utils := Recon.spec_utils) s
         && negb (String.eqb s "true" || String.eqb s "false")
      then s else dquote +:+ s +:+ dquote
  | Num n => pretty n
  | Bool true => "true"
  | Bool false => "false"
  | _ => ""
  end.

Definition spec_to_recon (e : Envelope) : string :=
  "@" +:+ tag e +:+ "(node:" +:+ spec_to_string (Text (env_node_uri e))
  +:+ ",lane:" +:+ spec_to_string (Text (env_lane_uri e)) +:+ ")"
  +:+ match body e with
      | Text s => dquote +:+ s +:+ dquote
      | v => spec_to_string v
      end.

#[export] Instance spec_structures : Structures := {|
  Obj := Value;
  of_value v := v;
  of_str s := Text s;
  record_to_object v _ _ := v;
  Recon_to_string := spec_to_string;
  Value_tag := spec_Value_tag;
  head_key := spec_head_key;
  get_body := spec_get_body;
  as_dict_key o := match o with Text s => Some s | _ => None end;
  to_recon := spec_to_recon
|}.

(** *** A store to run the methods on

    One route [a/tbl]: manager 0 owns the map model 0, whose replica holds
    [v] under [k]; the views 0 and 1 are attached and open, each with both
    callbacks; the view 2 has just been opened by its user, with a
    [did_update] callback, and is not attached yet; the views 3 and 4 are
    a value view and a map view straight from their constructors. *)
Definition sample_model : DownlinkModel :=
  {| m_host_uri := Some "ws://h:9001"; m_node_uri := Some "a";
     m_lane_uri := Some "tbl"; m_task := Some 0; m_connection := Some 0;
     m_linked := true; m_downlink_manager := Some 0;
     m_state := MapDownlinkModel [("k", (Text "k", Text "v"))] true |}.

Definition sample_manager : DownlinkManager :=
  {| mgr_registered_classes := []; mgr_strict := false; mgr_is_open := true;
     mgr_downlink_model := 0; mgr_downlink_views := [0; 1] |}.

Definition sample_view (did_update did_remove : nat) : DownlinkView :=
  {| v_host_uri := Some "ws://h:9001"; v_node_uri := Some "a";
     v_lane_uri := Some "tbl"; v_is_open := true; v_model := Some 0;
     v_downlink_manager := Some 0; v_registered_classes := [];
     v_strict := false;
     v_state := MapDownlinkView (Some did_update) (Some did_remove) true |}.

Definition sample_late_view : DownlinkView :=
  {| v_host_uri := Some "ws://h:9001"; v_node_uri := Some "a";
     v_lane_uri := Some "tbl"; v_is_open := true; v_model := None;
     v_downlink_manager := None; v_registered_classes := [];
     v_strict := false;
     v_state := MapDownlinkView (Some 50) None false |}.

(** An event model on the lane [clicks], and a value model on the lane
    [lights] that has been opened and has not heard [linked] yet. *)
Definition sample_event_model : DownlinkModel :=
  {| m_host_uri := Some "ws://h:9001"; m_node_uri := Some "a";
     m_lane_uri := Some "clicks"; m_task := Some 1; m_connection := Some 0;
     m_linked := true; m_downlink_manager := None;
     m_state := EventDownlinkModel |}.

Definition sample_value_model : DownlinkModel :=
  {| m_host_uri := Some "ws://h:9001"; m_node_uri := Some "a";
     m_lane_uri := Some "lights"; m_task := Some 2; m_connection := Some 0;
     m_linked := false; m_downlink_manager := None;
     m_state := ValueDownlinkModel Absent false |}.

Definition sample_world : World :=
  {| managers := {[ 0 := sample_manager ]};
     models := <[ 0 := sample_model ]>
                 (<[ 1 := sample_event_model ]> {[ 2 := sample_value_model ]});
     views := <[ 0 := sample_view 10 11 ]>
                (<[ 1 := sample_view 20 21 ]>
                   (<[ 2 := sample_late_view ]>
                      (<[ 3 := ValueDownlinkView_init ]>
                         {[ 4 := MapDownlinkView_init ]})));
     scheduled := [] |}.

(** A loop that has run the task by the time the caller looks. *)
Definition sample_task_result (c : Coroutine) : W Ret :=
  mret (ret_obj Absent).

(** The envelopes of the end-to-end scenarios of section 8. *)
Definition key_attr (name k : string) : Item :=
  Attr name (Record [Slot (Text "key") (Text k)]).

Definition frame_update (k v : string) : Envelope :=
  {| tag := "event"; env_node_uri := "a"; env_lane_uri := "tbl";
     body := Record [key_attr "update" k; ValueItem (Text v)] |}.

Definition frame_remove (k : string) : Envelope :=
  {| tag := "event"; env_node_uri := "a"; env_lane_uri := "tbl";
     body := Record [key_attr "remove" k] |}.

Definition frame_unlinked (reason : list Item) : Envelope :=
  {| tag := "unlinked"; env_node_uri := "a"; env_lane_uri := "tbl";
     body := match reason with [] => Absent | _ => Record reason end |}.

Definition frame_synced : Envelope :=
  {| tag := "synced"; env_node_uri := "a"; env_lane_uri := "tbl";
     body := Absent |}.

Definition frame_linked (lane : string) : Envelope :=
  {| tag := "linked"; env_node_uri := "a"; env_lane_uri := lane;
     body := Absent |}.

Definition frame_command (lane : string) (v : Value) : Envelope :=
  {| tag := "command"; env_node_uri := "a"; env_lane_uri := lane;
     body := v |}.

(** A run of the loop on the sample store: a command is sent on the value
    model before it is linked, the [linked] envelope arrives, the coroutine
    is resumed. *)
Definition sample_run : list Event :=
  [ev_send_message 2 (frame_command "lights" (Text "on"));
   ev_receive 2 (frame_linked "lights");
   ev_resume 0].

(** The state a run ends in, the initial state when the run is not
    possible. *)
Definition loop_after (evs : list Event) (w : World) : Loop :=
  default (loop_init w) (loop_run evs (loop_init w)).

End Downlinks.

(* ===================================================================== *)
(** ** downlinks.py: configuration, creation and waiting reads *)
(* ===================================================================== *)

Module Configuration.
Import Py Downlinks.

Section Configuration.
Context {structures : Structures}.

(** A class handed to [register_class]: its [__name__], the class object,
    and whether calling it with no arguments returns rather than raises. *)
Record CustomClass : Type := {
  class_name : string;
  class_object : nat;
  default_constructor : bool
}.

Definition view_with_registered_classes (c : Classes) (v : DownlinkView)
  : DownlinkView :=
  {| v_host_uri := v_host_uri v; v_node_uri := v_node_uri v;
     v_lane_uri := v_lane_uri v; v_is_open := v_is_open v;
     v_model := v_model v; v_downlink_manager := v_downlink_manager v;
     v_registered_classes := c; v_strict := v_strict v;
     v_state := v_state v |}.

Definition model_with_downlink_manager (r : option ref) (m : DownlinkModel)
  : DownlinkModel :=
  {| m_host_uri := m_host_uri m; m_node_uri := m_node_uri m;
     m_lane_uri := m_lane_uri m; m_task := m_task m;
     m_connection := m_connection m; m_linked := m_linked m;
     m_downlink_manager := r; m_state := m_state m |}.

Definition model_with_host_uri (u : option string) (m : DownlinkModel)
  : DownlinkModel :=
  {| m_host_uri := u; m_node_uri := m_node_uri m;
     m_lane_uri := m_lane_uri m; m_task := m_task m;
     m_connection := m_connection m; m_linked := m_linked m;
     m_downlink_manager := m_downlink_manager m; m_state := m_state m |}.

Definition model_with_node_uri (u : option string) (m : DownlinkModel)
  : DownlinkModel :=
  {| m_host_uri := m_host_uri m; m_node_uri := u;
     m_lane_uri := m_lane_uri m; m_task := m_task m;
     m_connection := m_connection m; m_linked := m_linked m;
     m_downlink_manager := m_downlink_manager m; m_state := m_state m |}.

Definition model_with_lane_uri (u : option string) (m : DownlinkModel)
  : DownlinkModel :=
  {| m_host_uri := m_host_uri m; m_node_uri := m_node_uri m;
     m_lane_uri := u; m_task := m_task m;
     m_connection := m_connection m; m_linked := m_linked m;
     m_downlink_manager := m_downlink_manager m; m_state := m_state m |}.

(** The property [DownlinkView.route]. *)
Definition route (self : ref) : W string :=
  v ← get_view self;
  mret (format_opt (v_node_uri v) +:+ "/" +:+ format_opt (v_lane_uri v)).

(** *** Registered classes

    The private set [__deregister_classes] of the view is passed in and
    handed back. *)

(** The message of the exception [__register_class] raises. *)
Definition no_default_constructor (custom_class : CustomClass) : exn :=
  Exception ("Class " +:+ class_name custom_class
             +:+ " must have a default constructor or default values for"
             +:+ " all arguments!").

(** [DownlinkView.__register_class], which is also [register_class]. *)
Definition register_class (self : ref) (custom_class : CustomClass)
  (deregister_classes : gset string) : W (gset string) :=
  if default_constructor custom_class then
    v ← get_view self;
    match v_downlink_manager v with
    | Some manager =>
        g ← get_manager manager;
        _ ← put_manager manager
              (manager_with_classes
                 (dict_set (class_name custom_class)
                           (class_object custom_class)
                           (mgr_registered_classes g)) g);
        mret deregister_classes
    | None =>
        _ ← put_view self
              (view_with_registered_classes
                 (dict_set (class_name custom_class)
                           (class_object custom_class)
                           (v_registered_classes v)) v);
        mret (deregister_classes ∖ {[class_name custom_class]})
    end
  else raise (no_default_constructor custom_class).

(** [DownlinkView.register_classes]. *)
Fixpoint register_classes (self : ref) (classes_list : list CustomClass)
  (deregister_classes : gset string) : W (gset string) :=
  match classes_list with
  | [] => mret deregister_classes
  | custom_class :: classes_list' =>
      d ← register_class self custom_class deregister_classes;
      register_classes self classes_list' d
  end.

(** [DownlinkView.deregister_class]. *)
Definition deregister_class (self : ref) (custom_class : CustomClass)
  (deregister_classes : gset string) : W (gset string) :=
  v ← get_view self;
  match v_downlink_manager v with
  | Some manager =>
      g ← get_manager manager;
      _ ← put_manager manager
            (manager_with_classes
               (dict_remove (class_name custom_class)
                            (mgr_registered_classes g)) g);
      mret deregister_classes
  | None =>
      _ ← put_view self
            (view_with_registered_classes
               (dict_remove (class_name custom_class)
                            (v_registered_classes v)) v);
      mret (deregister_classes ∪ {[class_name custom_class]})
  end.

(** [DownlinkView.deregister_classes]. *)
Fixpoint deregister_classes_list (self : ref)
  (classes_list : list CustomClass) (deregister_classes : gset string)
  : W (gset string) :=
  match classes_list with
  | [] => mret deregister_classes
  | custom_class :: classes_list' =>
      d ← deregister_class self custom_class deregister_classes;
      deregister_classes_list self classes_list' d
  end.

(** [DownlinkView.deregister_all_classes]. *)
Definition deregister_all_classes (self : ref)
  (deregister_classes : gset string) : W (gset string) :=
  v ← get_view self;
  match v_downlink_manager v with
  | Some manager =>
      g ← get_manager manager;
      _ ← put_manager manager (manager_with_classes [] g);
      mret (deregister_classes
              ∪ list_to_set (dict_keys (mgr_registered_classes g)))
  | None =>
      _ ← put_view self (view_with_registered_classes [] v);
      mret deregister_classes
  end.

(** *** Creating the model of a route *)

(** [DownlinkView.initalise_model]. The first assignment hands the
    dictionary of the view itself to the manager; the store holds the two by
    value, and they agree until one of them is written. *)
Definition initalise_model (self downlink_manager model : ref) : W unit :=
  classes ← registered_classes self;
  g ← get_manager downlink_manager;
  _ ← put_manager downlink_manager (manager_with_classes classes g);
  s ← strict self;
  g ← get_manager downlink_manager;
  _ ← put_manager downlink_manager (manager_with_strict s g);
  m ← get_model model;
  _ ← put_model model
        (model_with_downlink_manager (Some downlink_manager) m);
  v ← get_view self;
  m ← get_model model;
  _ ← put_model model (model_with_host_uri (v_host_uri v) m);
  v ← get_view self;
  m ← get_model model;
  _ ← put_model model (model_with_node_uri (v_node_uri v) m);
  v ← get_view self;
  m ← get_model model;
  put_model model (model_with_lane_uri (v_lane_uri v) m).

(** The reference of an object that is being constructed: one the store
    has no model at. *)
Definition new_model_ref (w : World) : ref := fresh (dom (models w)).

(** The model each class of view constructs in [create_downlink_model]. *)
Definition model_of_view (v : DownlinkView) : DownlinkModel :=
  match v_state v with
  | EventDownlinkView _ => DownlinkModel_init EventDownlinkModel
  | ValueDownlinkView _ _ => ValueDownlinkModel_init
  | MapDownlinkView _ _ _ => MapDownlinkModel_init
  end.

(** [create_downlink_model] of the three classes of view. *)
Definition create_downlink_model (self downlink_manager : ref) : W ref :=
  v ← get_view self;
  model ← (fun w => Ok (new_model_ref w) w);
  _ ← put_model model (model_of_view v);
  _ ← initalise_model self downlink_manager model;
  mret model.

(** *** Reads that wait

    A coroutine that awaits an [asyncio.Event] is, in a given store, either
    still waiting or done with a result. *)
Inductive Awaited (A : Type) : Type :=
| Pending
| Done (a : A).
Arguments Pending {A}.
Arguments Done {A} a.

(** [ValueDownlinkModel.get_value]. *)
Definition ValueDownlinkModel_get_value (self : ref) : W (Awaited Obj) :=
  m ← get_model self;
  match m_state m with
  | ValueDownlinkModel value synced =>
      if synced then mret (Done value) else mret Pending
  | _ => stuck
  end.

(** [MapDownlinkModel.get_value]. *)
Definition MapDownlinkModel_get_value (self : ref) (key : option Obj)
  : W (Awaited Ret) :=
  m ← get_model self;
  match m_state m with
  | MapDownlinkModel map synced =>
      if synced then
        match key with
        | None => mret (Done (ret_values (dict_values map)))
        | Some k =>
            item ← subscript_0
                     (default [of_value Absent]
                        (tuple_items
                           <$> (as_dict_key k ≫= fun s => dict_get s map)));
            mret (Done (ret_obj item))
        end
      else mret Pending
  | _ => stuck
  end.

(** [ValueDownlinkView.__get_value]. *)
Definition ValueDownlinkView_get_value (self : ref) : W (Awaited Obj) :=
  v ← get_view self;
  match v_state v with
  | ValueDownlinkView _ initialised =>
      if initialised then
        match v_model v with
        | Some model => ValueDownlinkModel_get_value model
        | None =>
            raise (AttributeError
                     "'NoneType' object has no attribute 'get_value'")
        end
      else mret Pending
  | _ => stuck
  end.

(** [MapDownlinkView.__get_value]. *)
Definition MapDownlinkView_get_value (self : ref) (key : option Obj)
  : W (Awaited Ret) :=
  v ← get_view self;
  match v_state v with
  | MapDownlinkView _ _ initialised =>
      if initialised then
        match v_model v with
        | Some model => MapDownlinkModel_get_value model key
        | None =>
            raise (AttributeError
                     "'NoneType' object has no attribute 'get_value'")
        end
      else mret Pending
  | _ => stuck
  end.

(** *** What the statements speak of *)

Definition did_set_callback (v : DownlinkView) : option nat :=
  match v_state v with
  | ValueDownlinkView callback _ => callback
  | _ => None
  end.

Definition on_event_callback (v : DownlinkView) : option nat :=
  match v_state v with
  | EventDownlinkView callback => callback
  | _ => None
  end.

Definition is_event_view (v : DownlinkView) : bool :=
  match v_state v with
  | EventDownlinkView _ => true
  | _ => false
  end.

(** Every reference of [subscribers] is a view of the store of the class
    [is_class] recognises. *)
Definition views_of_class (is_class : DownlinkView -> bool) (w : World)
  (subscribers : list ref) : bool :=
  forallb (fun r => match views w !! r with
                    | Some v => is_class v
                    | None => false
                    end) subscribers.

(** The value [decode_body] gives for a body, with the classes and the
    flag of a manager. *)
Definition decoded (g : DownlinkManager) (b : Value) : Obj :=
  match b with
  | Absent => of_value Absent
  | Text _ | Num _ | Bool _ => of_value b
  | _ => record_to_object b (mgr_registered_classes g) (mgr_strict g)
  end.

(** Whether decoding the body [b] of an event on a value or an event
    downlink runs the record converter: [Absent] and the primitives are
    taken as they are. *)
Definition runs_the_converter (b : Value) : bool :=
  match b with
  | Absent | Text _ | Num _ | Bool _ => false
  | _ => true
  end.

(** The store with the view at [self] marked initialised. *)
Definition initialise (v : DownlinkView) : DownlinkView :=
  match v_state v with
  | ValueDownlinkView callback _ =>
      view_with_state (ValueDownlinkView callback true) v
  | MapDownlinkView did_update did_remove _ =>
      view_with_state (MapDownlinkView did_update did_remove true) v
  | EventDownlinkView _ => v
  end.

End Configuration.

Arguments Pending {A}.
Arguments Done {A} a.

(** A store for the value lane [lights]: the manager 1 owns the value
    model 2 of the sample store, here linked, synced and holding [on]; the
    value views 5 and 6 are attached and open, the view 5 with a [did_set]
    callback; the view 7 is a value view with a callback that its user has
    opened and that is not attached yet. *)
Definition lights_model : DownlinkModel :=
  {| m_host_uri := Some "ws://h:9001"; m_node_uri := Some "a";
     m_lane_uri := Some "lights"; m_task := Some 2; m_connection := Some 0;
     m_linked := true; m_downlink_manager := Some 1;
     m_state := ValueDownlinkModel (Text "on") true |}.

Definition lights_manager : DownlinkManager :=
  {| mgr_registered_classes := [("Light", 7)]; mgr_strict := false;
     mgr_is_open := true; mgr_downlink_model := 2;
     mgr_downlink_views := [5; 6] |}.

Definition lights_view (did_set : option nat) : DownlinkView :=
  {| v_host_uri := Some "ws://h:9001"; v_node_uri := Some "a";
     v_lane_uri := Some "lights"; v_is_open := true; v_model := Some 2;
     v_downlink_manager := Some 1; v_registered_classes := [];
     v_strict := false;
     v_state := ValueDownlinkView did_set true |}.

Definition lights_late_view : DownlinkView :=
  {| v_host_uri := Some "ws://h:9001"; v_node_uri := Some "a";
     v_lane_uri := Some "lights"; v_is_open := true; v_model := None;
     v_downlink_manager := None;
     v_registered_classes := [("Switch", 8)]; v_strict := true;
     v_state := ValueDownlinkView (Some 70) false |}.

Definition lights_world : World :=
  {| managers := <[ 1 := lights_manager ]> (managers sample_world);
     models := <[ 2 := lights_model ]> (models sample_world);
     views := <[ 5 := lights_view (Some 50) ]>
                (<[ 6 := lights_view None ]>
                   (<[ 7 := lights_late_view ]> (views sample_world)));
     scheduled := [] |}.

(** The event lane [clicks] beside it: the manager 2 owns the event model
    1, the event views 8 and 9 are attached and open, the view 8 with an
    [on_event] callback. *)
Definition clicks_model : DownlinkModel :=
  {| m_host_uri := Some "ws://h:9001"; m_node_uri := Some "a";
     m_lane_uri := Some "clicks"; m_task := Some 1; m_connection := Some 0;
     m_linked := true; m_downlink_manager := Some 2;
     m_state := EventDownlinkModel |}.

Definition clicks_manager : DownlinkManager :=
  {| mgr_registered_classes := []; mgr_strict := false;
     mgr_is_open := true; mgr_downlink_model := 1;
     mgr_downlink_views := [8; 9] |}.

Definition clicks_view (on_event : option nat) : DownlinkView :=
  {| v_host_uri := Some "ws://h:9001"; v_node_uri := Some "a";
     v_lane_uri := Some "clicks"; v_is_open := true; v_model := Some 1;
     v_downlink_manager := Some 2; v_registered_classes := [];
     v_strict := false;
     v_state := EventDownlinkView on_event |}.

Definition clicks_world : World :=
  {| managers := <[ 2 := clicks_manager ]> (managers lights_world);
     models := <[ 1 := clicks_model ]> (models lights_world);
     views := <[ 8 := clicks_view (Some 80) ]>
                (<[ 9 := clicks_view None ]> (views lights_world));
     scheduled := [] |}.

(** The value lane before [synced] has arrived. *)
Definition lights_unsynced_model : DownlinkModel :=
  model_with_state (ValueDownlinkModel (Text "on") false) lights_model.

Definition lights_unsynced_world : World :=
  store_model 2 lights_unsynced_model lights_world.

Definition frame_event (lane : string) (b : Value) : Envelope :=
  {| tag := "event"; env_node_uri := "a"; env_lane_uri := lane;
     body := b |}.

Definition Light : CustomClass :=
  {| class_name := "Light"; class_object := 7; default_constructor := true |}.

Definition Switch : CustomClass :=
  {| class_name := "Switch"; class_object := 8;
     default_constructor := true |}.

Definition Dimmer : CustomClass :=
  {| class_name := "Dimmer"; class_object := 9;
     default_constructor := false |}.

End Configuration.

(* ===================================================================== *)
(** ** parsers.py: the exception of [head] *)
(* ===================================================================== *)

Module ReconBehaviour.
Import Py Recon.

(** The one message [InputMessage.head] raises with. *)
Definition out_of_range : exn := IndexError "string index out of range".

End ReconBehaviour.

Module ReconFacts.
Import Py Recon.

Lemma get_none_length (s : string) (i : nat) :
  String.get i s = None <-> String.length s <= i.
Proof.
  revert i; induction s as [|c s IH]; intros [|i]; simpl;
    try (split; (done || lia)).
  rewrite IH. lia.
Qed.

Lemma get_some_length (s : string) (i : nat) (c : ascii) :
  String.get i s = Some c -> i < String.length s.
Proof.
  intros Hget. destruct (decide (i < String.length s)) as [|Hge]; [done|].
  assert (String.get i s = None) by (apply get_none_length; lia). congruence.
Qed.

Section Facts.
Context {utils : ReconUtils} {structs : Structs}.

Lemma run_parser_bind {A B : Type} (c : P A) (k : A -> P B) (m : InputMessage) :
  (c ≫= k) m = match c m with
               | Returns a m' => k a m'
               | Raises e m' => Raises e m'
               | OutOfFuel => OutOfFuel
               end.
Proof. reflexivity. Qed.

Lemma head_at (s : string) (i : nat) :
  head {| message := s; index := i |} =
  match String.get i s with
  | Some c => Returns c {| message := s; index := i |}
  | None => Raises (IndexError "string index out of range")
                   {| message := s; index := i |}
  end.
Proof. reflexivity. Qed.

Lemma step_at (s : string) (i : nat) :
  step {| message := s; index := i |} =
  head {| message := s; index := i + 1 |}.
Proof. reflexivity. Qed.

Lemma all_ident_chars_get (s : string) (j : nat) (c : ascii) :
  all_ident_chars s = true -> String.get j s = Some c ->
  is_ident_char (ord c) = true.
Proof.
  revert j; induction s as [|c0 s IH]; intros j Hall Hget; [done|].
  simpl in Hall. apply andb_true_iff in Hall as [Hc0 Hall].
  destruct j as [|j]; simpl in Hget.
  - by inversion Hget; subst.
  - by eapply IH.
Qed.

(** The loop of [IdentParser.parse] on a text whose characters from the
    cursor on are all identifier characters: it steps off the end. *)
Lemma ident_loop_runs_off_the_end (n : nat) :
  forall (s : string) (i : nat) (c : ascii) (output : string),
    String.get i s = Some c ->
    (forall j c', i <= j -> String.get j s = Some c' ->
                  is_ident_char (ord c') = true) ->
    String.length s - i <= n ->
    ident_loop n output c {| message := s; index := i |} =
    Raises (IndexError "string index out of range")
           {| message := s; index := String.length s |}.
Proof.
  induction n as [|n IH]; intros s i c output Hget Hall Hn.
  - apply get_some_length in Hget. lia.
  - simpl. rewrite (Hall i c) by (done || lia).
    rewrite run_parser_bind, step_at, head_at.
    destruct (String.get (i + 1) s) as [c'|] eqn:Hnext.
    + apply IH; [done| |].
      * intros j c'' Hj. apply Hall. lia.
      * lia.
    + apply get_none_length in Hnext. apply get_some_length in Hget.
      by replace (i + 1) with (String.length s) by lia.
Qed.

Lemma IdentParser_parse_runs_off_the_end (s : string) :
  bare_identifier s = true ->
  IdentParser_parse (InputMessage_init s) =
  Raises (IndexError "string index out of range")
         {| message := s; index := String.length s |}.
Proof.
  destruct s as [|c s]; [done|]. simpl. intros Hs.
  apply andb_true_iff in Hs as [Hs Hall]. apply andb_true_iff in Hs as [Hc _].
  unfold IdentParser_parse, InputMessage_init.
  rewrite run_parser_bind, head_at. cbn [String.get]. rewrite Hc.
  rewrite run_parser_bind, step_at, head_at. cbn [message].
  destruct (String.get (0 + 1) (String c s)) as [c'|] eqn:Hnext.
  - rewrite run_parser_bind.
    rewrite (ident_loop_runs_off_the_end _ (String c s) 1 c'); try done.
    + intros [|j] c'' Hj Hget; [lia|]. simpl in Hget.
      by eapply all_ident_chars_get.
    + simpl. lia.
  - apply get_none_length in Hnext. simpl in Hnext.
    destruct s; simpl in *; [done | lia].
Qed.

Lemma not_punctuation (c : ascii) :
  is_punctuation c = false ->
  Forall (fun p => Ascii.eqb c p = false)
         ["@"; "!"; "~"; "-"; "+"; "("; "{"; "["; "*"; "/"; "%"]%char.
Proof.
  unfold is_punctuation. intros Hp.
  apply Forall_forall. intros p Hin.
  destruct (Ascii.eqb c p) eqn:Heq; [|done].
  assert (existsb (Ascii.eqb c)
            ["@"; "!"; "~"; "-"; "+"; "("; "{"; "["; "*"; "/"; "%"]%char
          = true) as Hex; [|congruence].
  apply existsb_exists. exists p. split; [|done].
  by apply list_elem_of_In.
Qed.

Ltac punctuation_cases H :=
  repeat match type of H with
         | Forall _ (_ :: _) =>
             let Hc := fresh "Hpunct" in
             apply Forall_cons in H as [Hc H]
         end.

Ltac skip_punctuation :=
  repeat match goal with
         | H : Ascii.eqb _ _ = false |- _ => rewrite H
         end.

(** From the block parser down to the literal parser, a bare identifier at
    the start of the text is handed to [IdentParser.parse] untouched. *)
Lemma LiteralParser_parse_bare_identifier (s : string) :
  bare_identifier s = true ->
  LiteralParser_parse (InputMessage_init s) =
  Raises (IndexError "string index out of range")
         {| message := s; index := String.length s |}.
Proof.
  intros Hs.
  pose proof (IdentParser_parse_runs_off_the_end s Hs) as Hident.
  destruct s as [|c s]; [done|]. simpl in Hs.
  apply andb_true_iff in Hs as [Hs Hall]. apply andb_true_iff in Hs as [Hc Hp].
  apply negb_true_iff, not_punctuation in Hp. punctuation_cases Hp.
  unfold LiteralParser_parse, InputMessage_init in *.
  rewrite run_parser_bind, head_at. cbn [String.get].
  skip_punctuation. rewrite Hc. unfold parse_ident. rewrite run_parser_bind.
  by rewrite Hident.
Qed.

Lemma AdditiveOperatorParser_parse_bare_identifier (s : string) :
  bare_identifier s = true ->
  AdditiveOperatorParser_parse (InputMessage_init s) =
  Raises (IndexError "string index out of range")
         {| message := s; index := String.length s |}.
Proof.
  intros Hs.
  pose proof (LiteralParser_parse_bare_identifier s Hs) as Hlit.
  destruct s as [|c s]; [done|]. simpl in Hs.
  apply andb_true_iff in Hs as [Hs Hall]. apply andb_true_iff in Hs as [Hc Hp].
  apply negb_true_iff, not_punctuation in Hp. punctuation_cases Hp.
  unfold AdditiveOperatorParser_parse, MultiplicativeOperatorParser_parse,
    PrefixOperatorParser_parse, InvokeOperatorParser_parse,
    PrimaryParser_parse.
  unfold InputMessage_init in *.
  rewrite !run_parser_bind, head_at. cbn [String.get].
  skip_punctuation.
  rewrite !run_parser_bind, head_at. cbn [String.get].
  skip_punctuation. by rewrite Hlit.
Qed.

Lemma BlockParser_parse_bare_identifier (fuel : nat) (s : string) :
  bare_identifier (strip s) = true ->
  parse_block_string (S fuel) s =
  Raises (IndexError "string index out of range")
         {| message := strip s; index := String.length (strip s) |}.
Proof.
  intros Hs.
  pose proof (AdditiveOperatorParser_parse_bare_identifier _ Hs) as Hadd.
  unfold parse_block_string. cbn [BlockParser_parse].
  rewrite run_parser_bind.
  cbn [InputMessage_strip InputMessage_init message index].
  unfold LambdaFuncParser_parse, ConditionalOperatorParser_parse,
    OrOperatorParser_parse, AndOperatorParser_parse,
    BitwiseOrOperatorParser_parse, BitwiseXorOperatorParser_parse,
    BitwiseAndOperator_parse, ComparisonOperatorParser_parse,
    AttrExpressionParser_parse.
  unfold InputMessage_init in Hadd.
  destruct (strip s) as [|c s'] eqn:Hstrip; [done|]. simpl in Hs.
  apply andb_true_iff in Hs as [Hs Hall]. apply andb_true_iff in Hs as [Hc Hp].
  apply negb_true_iff, not_punctuation in Hp. punctuation_cases Hp.
  rewrite !run_parser_bind, head_at. cbn [String.get]. skip_punctuation.
  unfold unawaited. rewrite run_parser_bind. by rewrite Hadd.
Qed.

(** [create_ident] never sees a [Text]: the identifier parser hands it a
    [str] (or [None]), so the two reserved words are wrapped like any other
    identifier. *)
Lemma create_ident_of_str (s : string) :
  create_ident (PyStr s) = PyText (PyStr s).
Proof. reflexivity. Qed.

Lemma app_cons (c : ascii) (s t : string) :
  String c s +:+ t = String c (s +:+ t).
Proof. reflexivity. Qed.

Lemma app_empty_l (t : string) : EmptyString +:+ t = t.
Proof. reflexivity. Qed.

Lemma app_empty_r (s : string) : s +:+ EmptyString = s.
Proof. induction s as [|c s IH]; [done|]. by rewrite app_cons, IH. Qed.

Lemma length_app (s t : string) :
  String.length (s +:+ t) = String.length s + String.length t.
Proof.
  induction s as [|c s IH]; [done|]. rewrite app_cons. simpl. by rewrite IH.
Qed.

Lemma get_app_here (pre s : string) :
  String.get (String.length pre) (pre +:+ s) = String.get 0 s.
Proof.
  induction pre as [|c pre IH]; [by destruct s|]. by rewrite app_cons.
Qed.

Lemma app_assoc_cons (pre : string) (c : ascii) (s : string) :
  pre +:+ String c s = (pre +:+ String c EmptyString) +:+ s.
Proof.
  induction pre as [|c' pre IH]; [done|]. by rewrite !app_cons, IH.
Qed.

Lemma length_app_one (pre : string) (c : ascii) :
  String.length (pre +:+ String c EmptyString) = String.length pre + 1.
Proof.
  induction pre as [|c' pre IH]; [done|]. rewrite app_cons. simpl.
  by rewrite IH.
Qed.

(** The loop of [IdentParser.parse] on identifier characters followed by a
    character that is not one: it stops there with the characters read. *)
Lemma ident_loop_stops (t : ascii) (rest : string) (mid : string) :
  forall (n : nat) (pre output : string) (c : ascii),
    is_ident_char (ord t) = false ->
    all_ident_chars mid = true ->
    String.length mid < n ->
    String.get 0 (mid +:+ String t rest) = Some c ->
    ident_loop n output c
      {| message := pre +:+ mid +:+ String t rest;
         index := String.length pre |} =
    Returns (output +:+ mid)
      {| message := pre +:+ mid +:+ String t rest;
         index := String.length pre + String.length mid |}.
Proof.
  induction mid as [|c1 mid IH]; intros n pre output c Ht Hall Hn Hc.
  - rewrite app_empty_l in Hc. simpl in Hc. inversion Hc; subst c.
    destruct n as [|n]; [simpl in Hn; lia|].
    simpl. rewrite Ht. unfold mret, P_ret. rewrite app_empty_r.
    do 2 f_equal. lia.
  - rewrite app_cons in Hc. simpl in Hc. inversion Hc; subst c.
    destruct n as [|n]; [simpl in Hn; lia|].
    simpl in Hall. apply andb_true_iff in Hall as [Hc1 Hall].
    cbn [ident_loop]. rewrite Hc1. rewrite run_parser_bind, step_at, head_at.
    rewrite app_cons, (app_assoc_cons pre c1).
    rewrite <- (length_app_one pre c1), get_app_here.
    destruct (String.get 0 (mid +:+ String t rest)) as [c2|] eqn:Hget.
    + rewrite (IH n _ _ c2); [|done|done|simpl in Hn; lia|done].
      f_equal.
      * by rewrite <- (app_assoc_cons output c1).
      * f_equal. rewrite length_app_one. simpl. lia.
    + by destruct mid.
Qed.

(** An identifier followed by a character that ends it parses to the [Text]
    of the identifier, whatever the identifier is. *)
Lemma IdentParser_parse_terminated (s : string) (t : ascii) (rest : string) :
  bare_identifier s = true ->
  is_ident_char (ord t) = false ->
  IdentParser_parse (InputMessage_init (s +:+ String t rest)) =
  Returns (PyText (PyStr s))
          {| message := s +:+ String t rest; index := String.length s |}.
Proof.
  destruct s as [|c s]; [done|]. simpl. intros Hs Ht.
  apply andb_true_iff in Hs as [Hs Hall]. apply andb_true_iff in Hs as [Hc _].
  unfold IdentParser_parse, InputMessage_init.
  rewrite app_cons.
  rewrite run_parser_bind, head_at. cbn [String.get]. rewrite Hc.
  rewrite run_parser_bind, step_at, head_at. cbn [message].
  change (String c (s +:+ String t rest))
    with (String c EmptyString +:+ s +:+ String t rest).
  change (0 + 1) with (String.length (String c EmptyString)).
  rewrite get_app_here.
  destruct (String.get 0 (s +:+ String t rest)) as [c'|] eqn:Hget;
    [|by destruct s].
  rewrite run_parser_bind.
  rewrite (ident_loop_stops t rest s _ _ _ c'); try done.
  rewrite !length_app. lia.
Qed.

(** The loop of [IdentParser.parse] never exhausts the bound it is given. *)
Lemma ident_loop_total (n : nat) :
  forall (m : InputMessage) (output : string) (c : ascii),
    String.length (message m) - index m < n ->
    ident_loop n output c m <> OutOfFuel.
Proof.
  induction n as [|n IH]; intros [s i] output c Hn; [simpl in Hn; lia|].
  simpl. destruct (is_ident_char (ord c)); [|done].
  rewrite run_parser_bind, step_at, head_at.
  destruct (String.get (i + 1) s) as [c'|] eqn:Hget; [|done].
  apply IH. simpl in *. apply get_some_length in Hget. lia.
Qed.

Lemma IdentParser_parse_total (m : InputMessage) :
  IdentParser_parse m <> OutOfFuel.
Proof.
  destruct m as [s i]. unfold IdentParser_parse.
  rewrite run_parser_bind, head_at.
  destruct (String.get i s) as [c|]; [|done].
  destruct (is_ident_start_char (ord c)); [|done].
  rewrite run_parser_bind, step_at, head_at.
  destruct (String.get (i + 1) s) as [c'|]; [|done].
  rewrite run_parser_bind. cbn [message].
  pose proof (ident_loop_total (S (String.length s))
                {| message := s; index := i + 1 |}
                (String c EmptyString) c') as Hloop.
  destruct (ident_loop _ _ _ _); try done.
  exfalso. apply Hloop; [simpl; lia|done].
Qed.

(** *** Fuel

    More fuel never changes what the block parser does, and a fuel above the
    length of the text is always enough. *)

Lemma refines_refl {A : Type} (p : P A) : refines p p.
Proof. by intros m. Qed.

Lemma refines_bind {A B : Type} (c c' : P A) (k k' : A -> P B) :
  refines c c' -> (forall a, refines (k a) (k' a)) ->
  refines (c ≫= k) (c' ≫= k').
Proof.
  intros Hc Hk m. rewrite !run_parser_bind. intros Hfuel.
  rewrite Hc by (by destruct (c m)).
  destruct (c m) as [a m'| |]; [|done..]. by apply Hk.
Qed.

Ltac refines :=
  repeat first
    [ assumption
    | apply refines_refl
    | apply refines_bind; [|intros ?]
    | match goal with
      | |- refines (if ?b then _ else _) (if ?b then _ else _) => destruct b
      end ].

Lemma LambdaFuncParser_parse_refines (pb pb' : P pyval) :
  refines pb pb' ->
  refines (LambdaFuncParser_parse pb) (LambdaFuncParser_parse pb').
Proof.
  intros Hpb.
  unfold LambdaFuncParser_parse, ConditionalOperatorParser_parse,
    OrOperatorParser_parse, AndOperatorParser_parse,
    BitwiseOrOperatorParser_parse, BitwiseXorOperatorParser_parse,
    BitwiseAndOperator_parse, ComparisonOperatorParser_parse,
    AttrExpressionParser_parse, AttrParser_parse.
  refines.
Qed.

Lemma BlockParser_parse_more_fuel (fuel : nat) :
  refines (BlockParser_parse fuel) (BlockParser_parse (S fuel)).
Proof.
  induction fuel as [|fuel IH]; [by intros m|].
  change (BlockParser_parse (S (S fuel)))
    with (InputMessage_strip ≫= fun _ =>
          LambdaFuncParser_parse (BlockParser_parse (S fuel)) ≫= fun _ =>
          mret PyNone).
  change (BlockParser_parse (S fuel))
    with (InputMessage_strip ≫= fun _ =>
          LambdaFuncParser_parse (BlockParser_parse fuel) ≫= fun _ =>
          mret PyNone) at 1.
  apply refines_bind; [apply refines_refl|intros _].
  apply refines_bind; [|intros _; apply refines_refl].
  by apply LambdaFuncParser_parse_refines.
Qed.

Lemma BlockParser_parse_fuel_monotone (fuel fuel' : nat) (m : InputMessage) :
  fuel <= fuel' ->
  BlockParser_parse fuel m <> OutOfFuel ->
  BlockParser_parse fuel' m = BlockParser_parse fuel m.
Proof.
  induction 1 as [|fuel' Hle IH]; [done|]. intros Hfuel.
  rewrite <- IH by done. apply BlockParser_parse_more_fuel.
  by rewrite IH.
Qed.

Lemma total_ret {A : Type} (a : A) : total (mret a).
Proof. by intros m. Qed.

Lemma total_bind {A B : Type} (c : P A) (k : A -> P B) :
  total c -> (forall a, total (k a)) -> total (c ≫= k).
Proof.
  intros Hc Hk m. rewrite run_parser_bind. specialize (Hc m).
  destruct (c m) as [a m'| |]; [apply Hk|done..].
Qed.

Lemma total_head : total head.
Proof. intros [s i]. rewrite head_at. by destruct (String.get i s). Qed.

Lemma total_step : total step.
Proof. intros [s i]. rewrite step_at. apply total_head. Qed.

Lemma total_IdentParser_parse : total IdentParser_parse.
Proof. exact IdentParser_parse_total. Qed.

Ltac total :=
  repeat first
    [ apply total_ret
    | apply total_head
    | apply total_step
    | apply total_IdentParser_parse
    | apply total_bind; [|intros ?]
    | match goal with
      | |- total (if ?b then _ else _) => destruct b
      end ].

Lemma AdditiveOperatorParser_parse_total : total AdditiveOperatorParser_parse.
Proof.
  unfold AdditiveOperatorParser_parse, MultiplicativeOperatorParser_parse,
    PrefixOperatorParser_parse, InvokeOperatorParser_parse,
    PrimaryParser_parse, LiteralParser_parse, parse_ident.
  total.
Qed.

Lemma length_lstrip (s : string) :
  String.length (lstrip s) <= String.length s.
Proof.
  induction s as [|c s IH]; simpl; [done|]. destruct (isspace c); simpl; lia.
Qed.

Lemma length_rstrip (s : string) :
  String.length (rstrip s) <= String.length s.
Proof.
  induction s as [|c s IH]; simpl; [done|].
  destruct (rstrip s); [destruct (isspace c)|]; simpl in *; lia.
Qed.

Lemma length_strip (s : string) :
  String.length (strip s) <= String.length s.
Proof.
  unfold strip. etrans; [apply length_rstrip|apply length_lstrip].
Qed.

(** Where the loop of [IdentParser.parse] leaves the cursor when it
    returns: on a character of the same text, not before where it was. *)
Lemma ident_loop_returns (n : nat) :
  forall (m m' : InputMessage) (output output' : string) (c : ascii),
    index m < String.length (message m) ->
    ident_loop n output c m = Returns output' m' ->
    message m' = message m /\ index m <= index m'
    /\ index m' < String.length (message m').
Proof.
  induction n as [|n IH]; intros [s i] m' output output' c Hi Hloop; [done|].
  simpl in Hloop. destruct (is_ident_char (ord c)).
  - rewrite run_parser_bind, step_at, head_at in Hloop.
    destruct (String.get (i + 1) s) as [c'|] eqn:Hget; [|done].
    apply get_some_length in Hget.
    apply IH in Hloop as (Hmsg & Hle & Hlt); [|done].
    simpl in *. repeat split; [done|lia|done].
  - inversion Hloop; subst. simpl in *. done.
Qed.

Lemma IdentParser_parse_returns (m m' : InputMessage) (a : pyval) :
  IdentParser_parse m = Returns a m' ->
  message m' = message m /\ index m <= index m'
  /\ index m' < String.length (message m').
Proof.
  destruct m as [s i]. unfold IdentParser_parse.
  rewrite run_parser_bind, head_at.
  destruct (String.get i s) as [c|] eqn:Hhead; [|done].
  apply get_some_length in Hhead.
  destruct (is_ident_start_char (ord c)).
  - rewrite run_parser_bind, step_at, head_at.
    destruct (String.get (i + 1) s) as [c'|] eqn:Hget; [|done].
    apply get_some_length in Hget.
    rewrite run_parser_bind. cbn [message].
    destruct (ident_loop _ _ _ _) as [output m1| |] eqn:Hloop; [|done..].
    apply ident_loop_returns in Hloop as (Hmsg & Hle & Hlt); [|done].
    intros [= _ <-]. simpl in *. repeat split; [done|lia|done].
  - intros [= _ <-]. done.
Qed.

(** [AttrParser.parse] re-enters the block parser only further on in the
    text. *)
Lemma AttrParser_parse_total (pb : P pyval) (m : InputMessage) :
  (forall m', remaining m' < remaining m -> pb m' <> OutOfFuel) ->
  AttrParser_parse pb m <> OutOfFuel.
Proof.
  intros Hpb. destruct m as [s i]. unfold AttrParser_parse.
  rewrite run_parser_bind, head_at.
  destruct (String.get i s) as [c|] eqn:Hhead; [|done].
  apply get_some_length in Hhead.
  destruct (Ascii.eqb c "@"); [|done].
  rewrite run_parser_bind, step_at, head_at.
  destruct (String.get (i + 1) s) as [c1|] eqn:Hstep; [|done].
  rewrite run_parser_bind. unfold parse_ident.
  pose proof (IdentParser_parse_total {| message := s; index := i + 1 |})
    as Hident.
  destruct (IdentParser_parse _) as [key [s3 i3]| |] eqn:Hkey; [|done..].
  apply IdentParser_parse_returns in Hkey as (Hmsg & Hle & Hlt).
  simpl in Hmsg, Hle, Hlt. subst s3.
  rewrite run_parser_bind, head_at.
  destruct (String.get i3 s) as [c2|]; [|done].
  destruct (Ascii.eqb c2 "("); [|done].
  rewrite run_parser_bind, step_at, head_at.
  destruct (String.get (i3 + 1) s) as [c3|] eqn:Hopen; [|done].
  pose proof (get_some_length _ _ _ Hopen) as Hinside.
  rewrite run_parser_bind, head_at, Hopen.
  destruct (Ascii.eqb c3 ")"); [done|].
  rewrite run_parser_bind.
  pose proof (Hpb {| message := s; index := i3 + 1 |}) as Hrec.
  destruct (pb _); try done. apply Hrec.
  unfold remaining. simpl. lia.
Qed.

Lemma LambdaFuncParser_parse_total (pb : P pyval) (m : InputMessage) :
  (forall m', remaining m' < remaining m -> pb m' <> OutOfFuel) ->
  LambdaFuncParser_parse pb m <> OutOfFuel.
Proof.
  intros Hpb.
  assert (AttrExpressionParser_parse pb m <> OutOfFuel) as Hattr.
  { unfold AttrExpressionParser_parse. rewrite run_parser_bind.
    pose proof (total_head m) as Hhead.
    destruct (head m) as [c m1| |] eqn:Hc; [|done..].
    assert (m1 = m) as ->.
    { destruct m as [s i]. rewrite head_at in Hc.
      destruct (String.get i s); by inversion Hc. }
    destruct (Ascii.eqb c "@").
    - rewrite run_parser_bind.
      pose proof (AttrParser_parse_total pb m Hpb).
      by destruct (AttrParser_parse pb m).
    - unfold unawaited. rewrite run_parser_bind.
      pose proof (AdditiveOperatorParser_parse_total m).
      by destruct (AdditiveOperatorParser_parse m). }
  unfold LambdaFuncParser_parse, ConditionalOperatorParser_parse,
    OrOperatorParser_parse, AndOperatorParser_parse,
    BitwiseOrOperatorParser_parse, BitwiseXorOperatorParser_parse,
    BitwiseAndOperator_parse, ComparisonOperatorParser_parse.
  rewrite !run_parser_bind.
  by destruct (AttrExpressionParser_parse pb m).
Qed.

(** A fuel above the number of characters left is enough. *)
Lemma BlockParser_parse_total (fuel : nat) :
  forall m, remaining m < fuel -> BlockParser_parse fuel m <> OutOfFuel.
Proof.
  induction fuel as [|fuel IH]; intros [s i] Hfuel; [lia|].
  cbn [BlockParser_parse]. rewrite run_parser_bind.
  cbn [InputMessage_strip message index]. rewrite run_parser_bind.
  pose proof (LambdaFuncParser_parse_total (BlockParser_parse fuel)
                {| message := strip s; index := i |}) as Hlambda.
  destruct (LambdaFuncParser_parse _ _); try done.
  apply Hlambda. intros m' Hm'. apply IH.
  pose proof (length_strip s). unfold remaining in *. simpl in *. lia.
Qed.

Lemma parse_block_string_total (recon_string : string) (fuel : nat) :
  String.length recon_string < fuel ->
  parse_block_string fuel recon_string <> OutOfFuel.
Proof.
  intros Hfuel. apply BlockParser_parse_total.
  unfold remaining. simpl. lia.
Qed.

(** C9. A message that is, once stripped, a bare identifier and nothing
    else makes the parser raise [IndexError]: [IdentParser.parse] reads the
    identifier, steps past its last character, and [head] subscripts the
    text one past its end. That holds for the identifier parser on its own
    and for the whole parser entered through [parse_block_string], with any
    fuel. *)
Theorem bare_identifier_runs_off_the_end (s : string) (fuel : nat) :
  bare_identifier (strip s) = true ->
  IdentParser_parse (InputMessage_init (strip s)) =
  Raises (IndexError "string index out of range")
         {| message := strip s; index := String.length (strip s) |}
  /\ parse_block_string (S fuel) s =
     Raises (IndexError "string index out of range")
            {| message := strip s; index := String.length (strip s) |}.
Proof.
  intros Hs. split.
  - by apply IdentParser_parse_runs_off_the_end.
  - by apply BlockParser_parse_bare_identifier.
Qed.

End Facts.
End ReconFacts.

Module DownlinksFacts.
Import Py Downlinks.

Section Facts.
Context {structures : Structures}.

Lemma run_bind {A B : Type} (c : W A) (k : A -> W B) (w : World) :
  (c ≫= k) w = match c w with
               | Ok a w' => k a w'
               | Raise e w' => Raise e w'
               | Stuck => Stuck
               end.
Proof. reflexivity. Qed.

Lemma run_get_view (w : World) (r : ref) (v : DownlinkView) :
  views w !! r = Some v -> get_view r w = Ok v w.
Proof. unfold get_view, deref. by intros ->. Qed.

Lemma run_get_model (w : World) (r : ref) (m : DownlinkModel) :
  models w !! r = Some m -> get_model r w = Ok m w.
Proof. unfold get_model, deref. by intros ->. Qed.

Lemma run_get_manager (w : World) (r : ref) (g : DownlinkManager) :
  managers w !! r = Some g -> get_manager r w = Ok g w.
Proof. unfold get_manager, deref. by intros ->. Qed.

Lemma schedule_all_nil (w : World) : schedule_all [] w = w.
Proof. destruct w. unfold schedule_all. simpl. by rewrite app_nil_r. Qed.

Lemma map_views_cons (w : World) (r : ref) (rs : list ref) :
  map_views w (r :: rs) = true ->
  (exists v, views w !! r = Some v /\ is_map_view v = true)
  /\ map_views w rs = true.
Proof.
  unfold map_views. cbn [forallb]. intros [Hr Hrs]%andb_true_iff.
  split; [|done]. destruct (views w !! r) as [v|]; [|done]. by exists v.
Qed.

Lemma schedule_all_app (cs cs' : list Coroutine) (w : World) :
  schedule_all cs' (schedule_all cs w) = schedule_all (cs ++ cs') w.
Proof. unfold schedule_all. simpl. by rewrite <- app_assoc. Qed.

Lemma callbacks_of_cons (field : DownlinkView -> option nat) (w : World)
  (r : ref) (rs : list ref) :
  callbacks_of field w (r :: rs) =
  match views w !! r ≫= field with
  | Some callback => callback :: callbacks_of field w rs
  | None => callbacks_of field w rs
  end.
Proof. reflexivity. Qed.

Lemma run_execute_did_remove (w : World) (r : ref) (v : DownlinkView)
  (key old_value : Obj) :
  views w !! r = Some v -> is_map_view v = true ->
  execute_did_remove r key old_value w =
  Ok () (schedule_all
           (match did_remove_callback v with
            | Some callback => [user_callback callback [key; old_value]]
            | None => []
            end) w).
Proof.
  intros Hv Hmap. unfold execute_did_remove.
  rewrite run_bind, (run_get_view _ _ _ Hv).
  unfold is_map_view, did_remove_callback in *.
  destruct (v_state v) as [|?|upd [callback|] ini]; try done.
  by rewrite schedule_all_nil.
Qed.

Lemma run_execute_did_update (w : World) (r : ref) (v : DownlinkView)
  (key new_value old_value : Obj) :
  views w !! r = Some v -> is_map_view v = true ->
  execute_did_update r key new_value old_value w =
  Ok () (schedule_all
           (match did_update_callback v with
            | Some callback =>
                [user_callback callback [key; new_value; old_value]]
            | None => []
            end) w).
Proof.
  intros Hv Hmap. unfold execute_did_update.
  rewrite run_bind, (run_get_view _ _ _ Hv).
  unfold is_map_view, did_update_callback in *.
  destruct (v_state v) as [|?|[callback|] rem ini]; try done.
  by rewrite schedule_all_nil.
Qed.

(** The fan-out of [did_remove]: one task per subscriber that has the
    callback, with the arguments given. *)
Lemma fan_out_did_remove (subscribers : list ref) :
  forall (w : World) (key old_value : Obj),
    map_views w subscribers = true ->
    for_each subscribers
             (fun view => execute_did_remove view key old_value) w =
    Ok () (schedule_all
             ((fun callback => user_callback callback [key; old_value])
                <$> callbacks_of did_remove_callback w subscribers) w).
Proof.
  induction subscribers as [|r rs IH]; intros w key old_value Hviews.
  - simpl. by rewrite schedule_all_nil.
  - apply map_views_cons in Hviews as [(v & Hv & Hmap) Hviews].
    cbn [for_each]. rewrite run_bind.
    rewrite (run_execute_did_remove _ _ _ _ _ Hv Hmap).
    rewrite IH by done. rewrite schedule_all_app.
    rewrite callbacks_of_cons, Hv. cbn [mbind option_bind].
    change (callbacks_of did_remove_callback (schedule_all ?cs w) rs)
      with (callbacks_of did_remove_callback w rs).
    by destruct (did_remove_callback v).
Qed.

(** The fan-out of [did_update]. *)
Lemma fan_out_did_update (subscribers : list ref) :
  forall (w : World) (key new_value old_value : Obj),
    map_views w subscribers = true ->
    for_each subscribers
             (fun view => execute_did_update view key new_value old_value) w =
    Ok () (schedule_all
             ((fun callback =>
                 user_callback callback [key; new_value; old_value])
                <$> callbacks_of did_update_callback w subscribers) w).
Proof.
  induction subscribers as [|r rs IH]; intros w key new_value old_value Hviews.
  - simpl. by rewrite schedule_all_nil.
  - apply map_views_cons in Hviews as [(v & Hv & Hmap) Hviews].
    cbn [for_each]. rewrite run_bind.
    rewrite (run_execute_did_update _ _ _ _ _ _ Hv Hmap).
    rewrite IH by done. rewrite schedule_all_app.
    rewrite callbacks_of_cons, Hv. cbn [mbind option_bind].
    change (callbacks_of did_update_callback (schedule_all ?cs w) rs)
      with (callbacks_of did_update_callback w rs).
    by destruct (did_update_callback v).
Qed.

Lemma body_tag_is_exclusive (message : Envelope) (name name' : string) :
  body_tag_is message name = true -> name <> name' ->
  body_tag_is message name' = false.
Proof.
  unfold body_tag_is. destruct (Value_tag (body message)) as [t|]; [|done].
  intros Ht%String.eqb_eq Hne. subst t. by apply String.eqb_neq.
Qed.

Lemma run_receive_message_event (w : World) (self : ref) (message : Envelope) :
  tag message = "event" ->
  receive_message self message w = receive_event self message w.
Proof. unfold receive_message. by intros ->. Qed.

Lemma run_receive_remove (w : World) (self manager : ref) (m : DownlinkModel)
  (g : DownlinkManager) (map : dict (Obj * Obj)) (synced : bool)
  (message : Envelope) :
  models w !! self = Some m ->
  m_state m = MapDownlinkModel map synced ->
  m_downlink_manager m = Some manager ->
  managers w !! manager = Some g ->
  map_views w (mgr_downlink_views g) = true ->
  let key := record_to_object (head_key (body message))
               (mgr_registered_classes g) (mgr_strict g) in
  let recon_key := Recon_to_string (head_key (body message)) in
  receive_remove self message w =
  Ok () (schedule_all
           ((fun callback =>
               user_callback callback
                 [key; match dict_get recon_key map with
                       | Some entry => entry.1
                       | None => of_value Absent
                       end])
              <$> callbacks_of did_remove_callback w (mgr_downlink_views g))
           (store_model self
              (model_with_state
                 (MapDownlinkModel (dict_remove recon_key map) synced) m) w)).
Proof.
  intros Hm Hst Hmgr Hg Hviews key recon_key.
  unfold receive_remove. rewrite run_bind, (run_get_model _ _ _ Hm), Hst.
  unfold model_downlink_manager. rewrite Hmgr.
  rewrite run_bind. cbn [mret W_ret].
  rewrite run_bind, (run_get_manager _ _ _ Hg).
  fold key recon_key. rewrite run_bind.
  assert (subscript_0
            (default [of_value Absent] (tuple_items <$> dict_get recon_key map))
            w
          = Ok (match dict_get recon_key map with
                | Some entry => entry.1
                | None => of_value Absent
                end) w) as ->.
  { by destruct (dict_get recon_key map) as [[k0 v0]|]. }
  rewrite run_bind.
  change (put_model self ?m' w) with (Ok () (store_model self m' w)).
  unfold subscribers_did_remove. rewrite run_bind.
  rewrite (run_get_manager _ manager g) by done.
  by rewrite fan_out_did_remove.
Qed.

Lemma run_receive_update (w : World) (self manager : ref) (m : DownlinkModel)
  (g : DownlinkManager) (map : dict (Obj * Obj)) (synced : bool)
  (message : Envelope) :
  models w !! self = Some m ->
  m_state m = MapDownlinkModel map synced ->
  m_downlink_manager m = Some manager ->
  managers w !! manager = Some g ->
  map_views w (mgr_downlink_views g) = true ->
  let key := record_to_object (head_key (body message))
               (mgr_registered_classes g) (mgr_strict g) in
  let value := record_to_object (get_body (body message))
                 (mgr_registered_classes g) (mgr_strict g) in
  let recon_key := Recon_to_string (head_key (body message)) in
  receive_update self message w =
  Ok () (schedule_all
           ((fun callback =>
               user_callback callback
                 [key; value;
                  match dict_get recon_key map with
                  | Some entry => entry.1
                  | None => of_value Absent
                  end])
              <$> callbacks_of did_update_callback w (mgr_downlink_views g))
           (store_model self
              (model_with_state
                 (MapDownlinkModel (dict_set recon_key (key, value) map)
                                   synced) m) w)).
Proof.
  intros Hm Hst Hmgr Hg Hviews key value recon_key.
  unfold receive_update. rewrite run_bind, (run_get_model _ _ _ Hm), Hst.
  unfold model_downlink_manager. rewrite Hmgr.
  rewrite run_bind. cbn [mret W_ret].
  rewrite run_bind, (run_get_manager _ _ _ Hg).
  fold key value recon_key. rewrite run_bind.
  assert (subscript_0
            (default [of_value Absent] (tuple_items <$> dict_get recon_key map))
            w
          = Ok (match dict_get recon_key map with
                | Some entry => entry.1
                | None => of_value Absent
                end) w) as ->.
  { by destruct (dict_get recon_key map) as [[k0 v0]|]. }
  rewrite run_bind.
  change (put_model self ?m' w) with (Ok () (store_model self m' w)).
  unfold subscribers_did_update. rewrite run_bind.
  rewrite (run_get_manager _ manager g) by done.
  by rewrite fan_out_did_update.
Qed.

(** C1. On a map downlink whose replica has an entry under the canonical
    string of the key, an [@event] with body [@remove(key: K)] fires
    [did_remove] on every subscriber that has the callback, and one with
    body [@update(key: K)] fires [did_update]; the old value the code hands
    over is item 0 of the stored [(key, value)] tuple, the decoded key
    [k0], where the claim has the stored value [v0]. *)
Theorem map_event_old_value_is_the_stored_key (w : World)
  (self manager : ref) (m : DownlinkModel) (g : DownlinkManager)
  (map : dict (Obj * Obj)) (synced : bool) (message : Envelope)
  (k0 v0 : Obj) :
  models w !! self = Some m ->
  m_state m = MapDownlinkModel map synced ->
  m_downlink_manager m = Some manager ->
  managers w !! manager = Some g ->
  map_views w (mgr_downlink_views g) = true ->
  tag message = "event" ->
  dict_get (Recon_to_string (head_key (body message))) map = Some (k0, v0) ->
  let key := record_to_object (head_key (body message))
               (mgr_registered_classes g) (mgr_strict g) in
  let value := record_to_object (get_body (body message))
                 (mgr_registered_classes g) (mgr_strict g) in
  let recon_key := Recon_to_string (head_key (body message)) in
  (body_tag_is message "remove" = true ->
   receive_message self message w =
   Ok () (schedule_all
            ((fun callback => user_callback callback [key; k0])
               <$> callbacks_of did_remove_callback w (mgr_downlink_views g))
            (store_model self
               (model_with_state
                  (MapDownlinkModel (dict_remove recon_key map) synced) m)
               w)))
  /\ (body_tag_is message "update" = true ->
      receive_message self message w =
      Ok () (schedule_all
               ((fun callback => user_callback callback [key; value; k0])
                  <$> callbacks_of did_update_callback w
                        (mgr_downlink_views g))
               (store_model self
                  (model_with_state
                     (MapDownlinkModel (dict_set recon_key (key, value) map)
                                       synced) m) w))).
Proof.
  intros Hm Hst Hmgr Hg Hviews Htag Hentry key value recon_key.
  rewrite (run_receive_message_event _ _ _ Htag).
  unfold receive_event. rewrite run_bind, (run_get_model _ _ _ Hm), Hst.
  unfold MapDownlinkModel_receive_event. split; intros Hbody.
  - rewrite (body_tag_is_exclusive message "remove" "update") by done.
    rewrite run_bind. cbn [mret W_ret]. rewrite Hbody.
    rewrite (run_receive_remove w self manager m g map synced) by done.
    by rewrite Hentry.
  - rewrite Hbody. rewrite run_bind.
    rewrite (run_receive_update w self manager m g map synced) by done.
    rewrite Hentry.
    by rewrite (body_tag_is_exclusive message "update" "remove").
Qed.

(** The other half of C1: for a key the replica does not hold, the old
    value handed over is [Absent]. *)
Lemma map_event_old_value_absent (w : World)
  (self manager : ref) (m : DownlinkModel) (g : DownlinkManager)
  (map : dict (Obj * Obj)) (synced : bool) (message : Envelope) :
  models w !! self = Some m ->
  m_state m = MapDownlinkModel map synced ->
  m_downlink_manager m = Some manager ->
  managers w !! manager = Some g ->
  map_views w (mgr_downlink_views g) = true ->
  tag message = "event" ->
  dict_get (Recon_to_string (head_key (body message))) map = None ->
  let key := record_to_object (head_key (body message))
               (mgr_registered_classes g) (mgr_strict g) in
  let value := record_to_object (get_body (body message))
                 (mgr_registered_classes g) (mgr_strict g) in
  let recon_key := Recon_to_string (head_key (body message)) in
  (body_tag_is message "remove" = true ->
   receive_message self message w =
   Ok () (schedule_all
            ((fun callback => user_callback callback [key; of_value Absent])
               <$> callbacks_of did_remove_callback w (mgr_downlink_views g))
            (store_model self
               (model_with_state
                  (MapDownlinkModel (dict_remove recon_key map) synced) m)
               w)))
  /\ (body_tag_is message "update" = true ->
      receive_message self message w =
      Ok () (schedule_all
               ((fun callback =>
                   user_callback callback [key; value; of_value Absent])
                  <$> callbacks_of did_update_callback w
                        (mgr_downlink_views g))
               (store_model self
                  (model_with_state
                     (MapDownlinkModel (dict_set recon_key (key, value) map)
                                       synced) m) w))).
Proof.
  intros Hm Hst Hmgr Hg Hviews Htag Hentry key value recon_key.
  rewrite (run_receive_message_event _ _ _ Htag).
  unfold receive_event. rewrite run_bind, (run_get_model _ _ _ Hm), Hst.
  unfold MapDownlinkModel_receive_event. split; intros Hbody.
  - rewrite (body_tag_is_exclusive message "remove" "update") by done.
    rewrite run_bind. cbn [mret W_ret]. rewrite Hbody.
    rewrite (run_receive_remove w self manager m g map synced) by done.
    by rewrite Hentry.
  - rewrite Hbody. rewrite run_bind.
    rewrite (run_receive_update w self manager m g map synced) by done.
    rewrite Hentry.
    by rewrite (body_tag_is_exclusive message "update" "remove").
Qed.

(** The two properties of a view, detached and attached. *)
Lemma run_registered_classes_detached (w : World) (self : ref)
  (v : DownlinkView) :
  views w !! self = Some v -> v_downlink_manager v = None ->
  registered_classes self w = Ok (v_registered_classes v) w.
Proof.
  intros Hv Hdetached. unfold registered_classes.
  by rewrite run_bind, (run_get_view _ _ _ Hv), Hdetached.
Qed.

Lemma run_strict_detached (w : World) (self : ref) (v : DownlinkView) :
  views w !! self = Some v -> v_downlink_manager v = None ->
  strict self w = Ok (v_strict v) w.
Proof.
  intros Hv Hdetached. unfold strict.
  by rewrite run_bind, (run_get_view _ _ _ Hv), Hdetached.
Qed.

Lemma run_strict_attached (w : World) (self manager : ref) (v : DownlinkView)
  (g : DownlinkManager) :
  views w !! self = Some v -> v_downlink_manager v = Some manager ->
  managers w !! manager = Some g ->
  strict self w = Ok (mgr_strict g) w.
Proof.
  intros Hv Hattached Hg. unfold strict.
  rewrite run_bind, (run_get_view _ _ _ Hv), Hattached.
  by rewrite run_bind, (run_get_manager _ _ _ Hg).
Qed.

Lemma store_view_twice (r : ref) (v v' : DownlinkView) (w : World) :
  store_view r v' (store_view r v w) = store_view r v' w.
Proof. unfold store_view. simpl. by rewrite insert_insert_eq. Qed.

Lemma store_manager_twice (r : ref) (g g' : DownlinkManager) (w : World) :
  store_manager r g' (store_manager r g w) = store_manager r g' w.
Proof. unfold store_manager. simpl. by rewrite insert_insert_eq. Qed.

Lemma store_manager_view (r r' : ref) (g : DownlinkManager)
  (v : DownlinkView) (w : World) :
  store_manager r g (store_view r' v w) = store_view r' v (store_manager r g w).
Proof. reflexivity. Qed.

(** [assign_manager] on a view that is not attached yet. *)
Lemma run_assign_manager (w : World) (self manager : ref) (v : DownlinkView)
  (g : DownlinkManager) :
  views w !! self = Some v ->
  v_downlink_manager v = None ->
  managers w !! manager = Some g ->
  assign_manager self manager w = Ok () (attach self manager v g w).
Proof.
  intros Hv Hdetached Hg. unfold assign_manager.
  rewrite run_bind, (run_get_manager _ _ _ Hg).
  rewrite run_bind, (run_get_view _ _ _ Hv).
  rewrite run_bind. unfold put_view at 1.
  set (v1 := view_with_model (Some (mgr_downlink_model g)) v).
  set (w1 := store_view self v1 w).
  assert (views w1 !! self = Some v1) as Hv1 by apply lookup_insert_eq.
  rewrite run_bind, (run_registered_classes_detached w1 self v1) by done.
  rewrite run_bind, (run_get_manager w1 manager g) by done.
  rewrite run_bind. unfold put_manager at 1.
  set (g1 := manager_with_classes _ g).
  set (w2 := store_manager manager g1 w1).
  rewrite run_bind, (run_strict_detached w2 self v1) by done.
  rewrite run_bind, (run_get_manager w2 manager g1)
    by apply lookup_insert_eq.
  rewrite run_bind. unfold put_manager at 1.
  set (w3 := store_manager manager (manager_with_strict (v_strict v1) g1) w2).
  rewrite run_bind, (run_get_view w3 self v1) by done.
  unfold put_view, attach. f_equal.
  subst w3 w2 w1. rewrite store_manager_twice, store_manager_view.
  by rewrite store_view_twice.
Qed.

(** C2. A map view attached to an open manager whose replica is not empty:
    the replay iterates the keys of the dictionary and unpacks the first
    canonical key string into [key, value]; unless that string has exactly
    two characters the attach raises [ValueError], before any callback is
    scheduled and before [initialised] is set. *)
Theorem late_join_replay_unpacks_the_key (w : World) (self manager : ref)
  (v : DownlinkView) (g : DownlinkManager) (m : DownlinkModel)
  (k : string) (entry : Obj * Obj) (rest : dict (Obj * Obj))
  (synced : bool) :
  views w !! self = Some v ->
  is_map_view v = true ->
  v_downlink_manager v = None ->
  managers w !! manager = Some g ->
  mgr_is_open g = true ->
  models w !! mgr_downlink_model g = Some m ->
  m_state m = MapDownlinkModel ((k, entry) :: rest) synced ->
  String.length k <> 2 ->
  exists msg,
    MapDownlinkView_register_manager self manager w =
    Raise (ValueError msg) (attach self manager v g w).
Proof.
  intros Hv Hmap Hdetached Hg Hopen Hm Hst Hlen.
  unfold MapDownlinkView_register_manager.
  rewrite run_bind, (run_assign_manager _ _ _ _ _ Hv Hdetached Hg).
  set (w' := attach self manager v g w).
  assert (managers w' !! manager
          = Some (manager_with_strict (v_strict v)
                    (manager_with_classes
                       (dict_update (mgr_registered_classes g)
                                    (v_registered_classes v)) g))) as Hg'
      by apply lookup_insert_eq.
  assert (views w' !! self
          = Some (view_with_downlink_manager (Some manager)
                    (view_with_model (Some (mgr_downlink_model g)) v))) as Hv'
      by apply lookup_insert_eq.
  rewrite run_bind, (run_get_manager _ _ _ Hg').
  cbn [mgr_is_open manager_with_strict manager_with_classes]. rewrite Hopen.
  rewrite run_bind. unfold view_model_map.
  rewrite !run_bind, (run_get_view _ _ _ Hv').
  cbn [v_model view_with_downlink_manager view_with_model].
  rewrite run_bind, (run_get_model w' _ m) by done. rewrite Hst.
  cbn [mret W_ret dict_keys fmap list_fmap fst for_each].
  rewrite !run_bind.
  destruct k as [|a [|b [|c k]]]; simpl in Hlen; try done; eauto.
Qed.

(** What the replay does when the first key does have two characters: the
    callback gets the two characters, not the entry. *)
Lemma late_join_replay_two_characters (w : World) (self manager : ref)
  (v : DownlinkView) (g : DownlinkManager) (m : DownlinkModel)
  (a b : ascii) (entry : Obj * Obj) (synced : bool) (callback : nat)
  (did_remove : option nat) (initialised : bool) :
  views w !! self = Some v ->
  v_state v = MapDownlinkView (Some callback) did_remove initialised ->
  v_downlink_manager v = None ->
  managers w !! manager = Some g ->
  mgr_is_open g = true ->
  models w !! mgr_downlink_model g = Some m ->
  m_state m
  = MapDownlinkModel [(String a (String b EmptyString), entry)] synced ->
  exists w',
    MapDownlinkView_register_manager self manager w = Ok () w'
    /\ scheduled w'
       = (scheduled w
          ++ [user_callback callback
                [of_str (String a EmptyString); of_str (String b EmptyString);
                 of_value Absent]])%list.
Proof.
  intros Hv Hvst Hdetached Hg Hopen Hm Hst.
  unfold MapDownlinkView_register_manager.
  rewrite run_bind, (run_assign_manager _ _ _ _ _ Hv Hdetached Hg).
  set (w' := attach self manager v g w).
  assert (managers w' !! manager
          = Some (manager_with_strict (v_strict v)
                    (manager_with_classes
                       (dict_update (mgr_registered_classes g)
                                    (v_registered_classes v)) g))) as Hg'
      by apply lookup_insert_eq.
  assert (views w' !! self
          = Some (view_with_downlink_manager (Some manager)
                    (view_with_model (Some (mgr_downlink_model g)) v))) as Hv'
      by apply lookup_insert_eq.
  rewrite run_bind, (run_get_manager _ _ _ Hg').
  cbn [mgr_is_open manager_with_strict manager_with_classes]. rewrite Hopen.
  rewrite run_bind. unfold view_model_map.
  rewrite !run_bind, (run_get_view _ _ _ Hv').
  cbn [v_model view_with_downlink_manager view_with_model].
  rewrite run_bind, (run_get_model w' _ m) by done. rewrite Hst.
  cbn [mret W_ret dict_keys fmap list_fmap fst for_each unpack_2].
  rewrite !run_bind. cbn [mret W_ret fst snd].
  unfold execute_did_update. rewrite run_bind, (run_get_view _ _ _ Hv').
  cbn [v_state view_with_downlink_manager view_with_model]. rewrite Hvst.
  cbn [schedule_task mret W_ret]. unfold initialised_set.
  rewrite run_bind. unfold get_view, deref. cbn [views]. rewrite Hv'.
  cbn [v_state view_with_downlink_manager view_with_model]. rewrite Hvst.
  eexists. split; reflexivity.
Qed.

(** The setter of [strict] on a view that is not attached stores its
    argument, and a read gives it back. *)
Lemma strict_setter_detached (w : World) (self : ref) (v : DownlinkView)
  (b : bool) :
  views w !! self = Some v -> v_downlink_manager v = None ->
  (strict_setter self b ≫= fun _ => strict self) w =
  Ok b (store_view self (view_with_strict b v) w).
Proof.
  intros Hv Hdetached. rewrite run_bind. unfold strict_setter.
  rewrite run_bind, (run_get_view _ _ _ Hv), Hdetached.
  unfold put_view.
  by rewrite (run_strict_detached _ self (view_with_strict b v))
    by (done || apply lookup_insert_eq).
Qed.

(** C4. On a view attached to a manager, assigning [strict = b] stores the
    private flag of the view in the manager, not [b]; the read that follows
    returns that private flag whatever [b] was. *)
Theorem strict_setter_attached_ignores_its_argument (w : World)
  (self manager : ref) (v : DownlinkView) (g : DownlinkManager) (b : bool) :
  views w !! self = Some v ->
  v_downlink_manager v = Some manager ->
  managers w !! manager = Some g ->
  (strict_setter self b ≫= fun _ => strict self) w =
  Ok (v_strict v)
     (store_manager manager (manager_with_strict (v_strict v) g) w).
Proof.
  intros Hv Hattached Hg. rewrite run_bind. unfold strict_setter.
  rewrite run_bind, (run_get_view _ _ _ Hv), Hattached.
  rewrite run_bind, (run_get_manager _ _ _ Hg). unfold put_manager.
  by rewrite (run_strict_attached _ self manager v
                (manager_with_strict (v_strict v) g))
    by (done || apply lookup_insert_eq).
Qed.

Lemma run_receive_message_unlinked (w : World) (self : ref)
  (message : Envelope) :
  tag message = "unlinked" ->
  receive_message self message w = receive_unlinked self message w.
Proof. unfold receive_message. by intros ->. Qed.

Lemma run_receive_message_synced (w : World) (self : ref)
  (message : Envelope) :
  tag message = "synced" ->
  receive_message self message w = receive_synced self w.
Proof. unfold receive_message. by intros ->. Qed.

Lemma run_receive_message_linked (w : World) (self : ref)
  (message : Envelope) :
  tag message = "linked" ->
  receive_message self message w = receive_linked self w.
Proof. unfold receive_message. by intros ->. Qed.

(** C5, as the code has it. An [unlinked] envelope whose body tag is not
    [laneNotFound] is ignored: the call returns and the store is the one it
    started from, so no state has changed, no subscriber has been handed
    anything and the model still holds its connection. *)
Theorem unlinked_without_laneNotFound_is_ignored (w : World) (self : ref)
  (m : DownlinkModel) (message : Envelope) :
  models w !! self = Some m ->
  tag message = "unlinked" ->
  body_tag_is message "laneNotFound" = false ->
  receive_message self message w = Ok () w.
Proof.
  intros Hm Htag Hbody. rewrite (run_receive_message_unlinked _ _ _ Htag).
  unfold receive_unlinked.
  by rewrite run_bind, (run_get_model _ _ _ Hm), Hbody.
Qed.

Lemma for_each_app {A : Type} (xs ys : list A) (body : A -> W unit)
  (w : World) :
  for_each (xs ++ ys) body w =
  (for_each xs body ≫= fun _ => for_each ys body) w.
Proof.
  revert w; induction xs as [|x xs IH]; intros w; [done|].
  cbn [app for_each]. rewrite !run_bind.
  destruct (body x w) as [[] w'| |]; [|done..]. by rewrite IH, run_bind.
Qed.


(** C10. [receive_message] hands a [synced] envelope to [receive_synced]
    whatever the class of the model, and on an event downlink that raises
    the [TypeError], leaving the store as it was. *)
Theorem event_downlink_raises_on_synced (w : World) (self : ref)
  (m : DownlinkModel) (message : Envelope) :
  models w !! self = Some m ->
  tag message = "synced" ->
  receive_message self message w = receive_synced self w
  /\ (m_state m = EventDownlinkModel ->
      receive_message self message w =
      Raise (TypeError "Event downlink does not support synced responses!")
            w).
Proof.
  intros Hm Htag. rewrite (run_receive_message_synced _ _ _ Htag).
  split; [done|]. intros Hst. unfold receive_synced.
  by rewrite run_bind, (run_get_model _ _ _ Hm), Hst.
Qed.

(** On the other two classes a [synced] envelope sets the [synced] event. *)
Lemma value_and_map_downlinks_accept_synced (w : World) (self : ref)
  (m : DownlinkModel) (message : Envelope) :
  models w !! self = Some m ->
  tag message = "synced" ->
  m_state m <> EventDownlinkModel ->
  exists st,
    receive_message self message w
    = Ok () (store_model self (model_with_state st m) w)
    /\ match st with
       | EventDownlinkModel => False
       | ValueDownlinkModel _ synced | MapDownlinkModel _ synced =>
           synced = true
       end.
Proof.
  intros Hm Htag Hst. rewrite (run_receive_message_synced _ _ _ Htag).
  unfold receive_synced. rewrite run_bind, (run_get_model _ _ _ Hm).
  destruct (m_state m) as [|value synced|map synced]; [done|..];
    eexists; (split; [reflexivity|done]).
Qed.

(** [open()] on a closed view opens it and hands the view to the client. *)
Lemma DownlinkView_open_opens (w : World) (self : ref) (v : DownlinkView) :
  views w !! self = Some v -> v_is_open v = false ->
  DownlinkView_open self w =
  Ok () (schedule_all [add_downlink_view self]
           (store_view self (view_with_is_open true v) w)).
Proof.
  intros Hv Hclosed. unfold DownlinkView_open.
  by rewrite run_bind, (run_get_view _ _ _ Hv), Hclosed.
Qed.

(** A view straight from its constructor is closed. *)
Lemma DownlinkView_init_is_closed (st : ViewState) :
  v_is_open (DownlinkView_init st) = false.
Proof. reflexivity. Qed.

Lemma run_get_value_view (w : World) (self : ref) (v : DownlinkView) :
  views w !! self = Some v -> is_value_view v = true ->
  get_value_view self w = Ok v w.
Proof.
  intros Hv Hvalue. unfold get_value_view.
  rewrite run_bind, (run_get_view _ _ _ Hv).
  unfold is_value_view in Hvalue. by destruct (v_state v).
Qed.

Lemma run_get_map_view (w : World) (self : ref) (v : DownlinkView) :
  views w !! self = Some v -> is_map_view v = true ->
  get_map_view self w = Ok v w.
Proof.
  intros Hv Hmap. unfold get_map_view.
  rewrite run_bind, (run_get_view _ _ _ Hv).
  unfold is_map_view in Hmap. by destruct (v_state v).
Qed.

(** What the class check of a method can give. *)
Lemma get_value_view_cases (w : World) (self : ref) :
  get_value_view self w = Stuck
  \/ exists v, views w !! self = Some v /\ get_value_view self w = Ok v w.
Proof.
  unfold get_value_view, get_view, deref. rewrite run_bind.
  destruct (views w !! self) as [v|]; [|by left].
  destruct (v_state v); eauto.
Qed.

Lemma get_map_view_cases (w : World) (self : ref) :
  get_map_view self w = Stuck
  \/ exists v, views w !! self = Some v /\ get_map_view self w = Ok v w.
Proof.
  unfold get_map_view, get_view, deref. rewrite run_bind.
  destruct (views w !! self) as [v|]; [|by left].
  destruct (v_state v); eauto.
Qed.

(** The reads that do not wait never raise [not_open]. *)
Lemma ValueDownlinkView_value_not_not_open (w w' : World) (self : ref) :
  ValueDownlinkView_value self w <> Raise not_open w'.
Proof.
  unfold ValueDownlinkView_value, view_model_value, get_view, get_model,
    deref.
  rewrite run_bind. destruct (views w !! self) as [v|]; [|done].
  destruct (v_model v) as [model|]; [|done].
  rewrite run_bind. destruct (views w !! self) as [v1|]; [|done].
  destruct (v_model v1) as [model1|]; [|done].
  rewrite run_bind. destruct (models w !! model1) as [m|]; [|done].
  by destruct (m_state m).
Qed.

Lemma MapDownlinkView_map_not_not_open (w w' : World) (self : ref)
  (key : option Obj) :
  MapDownlinkView_map self key w <> Raise not_open w'.
Proof.
  unfold MapDownlinkView_map, view_model_map, get_view, get_model, deref.
  rewrite run_bind. destruct (views w !! self) as [v|]; [|done].
  destruct (v_model v) as [model|]; [|done].
  rewrite !run_bind. destruct (views w !! self) as [v1|]; [|done].
  destruct (v_model v1) as [model1|]; [|done].
  rewrite run_bind. destruct (models w !! model1) as [m|]; [|done].
  destruct (m_state m) as [| |map synced]; try done.
  cbn [mret W_ret]. destruct key as [k|]; [|done].
  by destruct (as_dict_key k ≫= fun s => dict_get s map).
Qed.

Section Guard.

Variable task_result : Coroutine -> W Ret.

(** What a scheduled coroutine of a view raises is not the error of the
    guard: the four coroutines ([__get_value], [send_message], [put_message]
    and [remove_message]) only wait for events and send. *)
Hypothesis tasks_do_not_raise_not_open :
  forall (c : Coroutine) (w w' : World), task_result c w <> Raise not_open w'.

Lemma blocking_not_not_open (c : Coroutine) (w w' : World) :
  (schedule_task c ≫= fun _ => task_result c) w <> Raise not_open w'.
Proof. rewrite run_bind. apply tasks_do_not_raise_not_open. Qed.

Lemma blocking_unit_not_not_open (c : Coroutine) (blocking : bool)
  (w w' : World) :
  (schedule_task c ≫= fun _ =>
     if blocking then task_result c ≫= fun _ => mret () else mret ()) w
  <> Raise not_open w'.
Proof.
  rewrite run_bind. cbn [schedule_task]. destruct blocking; [|done].
  rewrite run_bind.
  pose proof (tasks_do_not_raise_not_open c (schedule_all [c] w) w') as Hc.
  change (task_result c (schedule_all [c] w) <> Raise not_open w') in Hc.
  destruct (task_result c _) as [r w1|e w1|] eqn:Hres; try done.
  intros [= -> ->]. by apply Hc.
Qed.

End Guard.

(** C8. On a view whose [is_open] is false, as it is from the constructor
    until [open()] is called, [get] and [set] of a value view and [get],
    [put] and [remove] of a map view raise the not-open error and leave the
    store as it was: nothing has been scheduled. On a view whose [is_open]
    is true none of the five raises that error, as long as the coroutine a
    blocking call waits for does not raise it. *)
Theorem reads_and_writes_are_guarded_by_is_open
  (task_result : Coroutine -> W Ret) (w : World) (self : ref)
  (v : DownlinkView) :
  views w !! self = Some v ->
  (v_is_open v = false ->
   (is_value_view v = true ->
    (forall wait_sync,
        ValueDownlinkView_get task_result self wait_sync w
        = Raise not_open w)
    /\ (forall value blocking,
           ValueDownlinkView_set task_result self value blocking w
           = Raise not_open w))
   /\ (is_map_view v = true ->
       (forall key wait_sync,
           MapDownlinkView_get task_result self key wait_sync w
           = Raise not_open w)
       /\ (forall key value blocking,
              MapDownlinkView_put task_result self key value blocking w
              = Raise not_open w)
       /\ (forall key blocking,
              MapDownlinkView_remove task_result self key blocking w
              = Raise not_open w)))
  /\ (v_is_open v = true ->
      (forall c w0 w1, task_result c w0 <> Raise not_open w1) ->
      forall w',
        (forall wait_sync,
            ValueDownlinkView_get task_result self wait_sync w
            <> Raise not_open w')
        /\ (forall value blocking,
               ValueDownlinkView_set task_result self value blocking w
               <> Raise not_open w')
        /\ (forall key wait_sync,
               MapDownlinkView_get task_result self key wait_sync w
               <> Raise not_open w')
        /\ (forall key value blocking,
               MapDownlinkView_put task_result self key value blocking w
               <> Raise not_open w')
        /\ (forall key blocking,
               MapDownlinkView_remove task_result self key blocking w
               <> Raise not_open w')).
Proof.
  intros Hv. split.
  - intros Hclosed. split.
    + intros Hvalue. split; intros;
        unfold ValueDownlinkView_get, ValueDownlinkView_set;
        by rewrite run_bind, (run_get_value_view _ _ _ Hv Hvalue), Hclosed.
    + intros Hmap. repeat split; intros;
        unfold MapDownlinkView_get, MapDownlinkView_put,
          MapDownlinkView_remove;
        by rewrite run_bind, (run_get_map_view _ _ _ Hv Hmap), Hclosed.
  - intros Hopen Htasks w'.
    pose proof (blocking_not_not_open task_result Htasks) as Hblocking.
    pose proof (blocking_unit_not_not_open task_result Htasks) as Hblocking'.
    repeat split; intros.
    + unfold ValueDownlinkView_get. rewrite run_bind.
      destruct (get_value_view_cases w self) as [->|(v1 & Hv1 & ->)]; [done|].
      assert (v1 = v) as -> by congruence. rewrite Hopen.
      destruct wait_sync; [apply Hblocking|].
      rewrite run_bind.
      pose proof (ValueDownlinkView_value_not_not_open w w' self) as Hval.
      destruct (ValueDownlinkView_value self w); try done.
      intros [= -> ->]. by apply Hval.
    + unfold ValueDownlinkView_set. rewrite run_bind.
      destruct (get_value_view_cases w self) as [->|(v1 & Hv1 & ->)]; [done|].
      assert (v1 = v) as -> by congruence. rewrite Hopen.
      apply Hblocking'.
    + unfold MapDownlinkView_get. rewrite run_bind.
      destruct (get_map_view_cases w self) as [->|(v1 & Hv1 & ->)]; [done|].
      assert (v1 = v) as -> by congruence. rewrite Hopen.
      destruct wait_sync; [apply Hblocking|].
      apply MapDownlinkView_map_not_not_open.
    + unfold MapDownlinkView_put. rewrite run_bind.
      destruct (get_map_view_cases w self) as [->|(v1 & Hv1 & ->)]; [done|].
      assert (v1 = v) as -> by congruence. rewrite Hopen.
      apply Hblocking'.
    + unfold MapDownlinkView_remove. rewrite run_bind.
      destruct (get_map_view_cases w self) as [->|(v1 & Hv1 & ->)]; [done|].
      assert (v1 = v) as -> by congruence. rewrite Hopen.
      apply Hblocking'.
Qed.


(** *** Who touches the models *)

Lemma keeps_models_ret {A : Type} (a : A) : keeps_models (mret a).
Proof. by intros w. Qed.

Lemma keeps_models_raise {A : Type} (e : exn) : keeps_models (@raise _ A e).
Proof. by intros w. Qed.

Lemma keeps_models_stuck {A : Type} : keeps_models (@stuck _ A).
Proof. by intros w. Qed.

Lemma keeps_models_bind {A B : Type} (c : W A) (k : A -> W B) :
  keeps_models c -> (forall a, keeps_models (k a)) -> keeps_models (c ≫= k).
Proof.
  intros Hc Hk w. rewrite run_bind. specialize (Hc w).
  destruct (c w) as [a w1|e w1|]; [|done..].
  specialize (Hk a w1). destruct (k a w1); congruence.
Qed.

Lemma keeps_models_get_view (r : ref) : keeps_models (get_view r).
Proof. intros w. unfold get_view, deref. by destruct (views w !! r). Qed.

Lemma keeps_models_get_model (r : ref) : keeps_models (get_model r).
Proof. intros w. unfold get_model, deref. by destruct (models w !! r). Qed.

Lemma keeps_models_get_manager (r : ref) : keeps_models (get_manager r).
Proof. intros w. unfold get_manager, deref. by destruct (managers w !! r). Qed.

Lemma keeps_models_schedule_task (c : Coroutine) :
  keeps_models (schedule_task c).
Proof. by intros w. Qed.

Lemma keeps_models_for_each {A : Type} (xs : list A) (body : A -> W unit) :
  (forall x, keeps_models (body x)) -> keeps_models (for_each xs body).
Proof.
  intros Hbody. induction xs as [|x xs IH]; [by intros w|].
  cbn [for_each]. apply keeps_models_bind; [apply Hbody|done].
Qed.

Create HintDb keeps discriminated.

#[local] Hint Resolve keeps_models_ret keeps_models_raise keeps_models_stuck
  keeps_models_get_view keeps_models_get_model keeps_models_get_manager
  keeps_models_schedule_task : keeps.

Ltac keeps :=
  repeat first
    [ apply keeps_models_bind; [|intros ?]
    | apply keeps_models_for_each; intros ?
    | solve [auto with keeps]
    | match goal with
      | |- keeps_models (match ?x with _ => _ end) => destruct x
      end ].

Lemma keeps_models_execute_on_event (r : ref) (event : Obj) :
  keeps_models (execute_on_event r event).
Proof. unfold execute_on_event. keeps. Qed.

Lemma keeps_models_execute_did_set (r : ref) (current old : Obj) :
  keeps_models (execute_did_set r current old).
Proof. unfold execute_did_set. keeps. Qed.

Lemma keeps_models_execute_did_update (r : ref) (key new old : Obj) :
  keeps_models (execute_did_update r key new old).
Proof. unfold execute_did_update. keeps. Qed.

Lemma keeps_models_execute_did_remove (r : ref) (key old : Obj) :
  keeps_models (execute_did_remove r key old).
Proof. unfold execute_did_remove. keeps. Qed.

#[local] Hint Resolve keeps_models_execute_on_event
  keeps_models_execute_did_set keeps_models_execute_did_update
  keeps_models_execute_did_remove : keeps.

Lemma keeps_models_subscribers_on_event (g : ref) (event : Obj) :
  keeps_models (subscribers_on_event g event).
Proof. unfold subscribers_on_event. keeps. Qed.

Lemma keeps_models_subscribers_did_set (g : ref) (current old : Obj) :
  keeps_models (subscribers_did_set g current old).
Proof. unfold subscribers_did_set. keeps. Qed.

Lemma keeps_models_subscribers_did_update (g : ref) (key new old : Obj) :
  keeps_models (subscribers_did_update g key new old).
Proof. unfold subscribers_did_update. keeps. Qed.

Lemma keeps_models_subscribers_did_remove (g : ref) (key old : Obj) :
  keeps_models (subscribers_did_remove g key old).
Proof. unfold subscribers_did_remove. keeps. Qed.

Lemma keeps_models_model_downlink_manager (m : DownlinkModel)
  (attr : string) :
  keeps_models (model_downlink_manager m attr).
Proof. unfold model_downlink_manager. keeps. Qed.

Lemma keeps_models_subscript_0 (seq : list Obj) :
  keeps_models (subscript_0 seq).
Proof. unfold subscript_0. keeps. Qed.

#[local] Hint Resolve keeps_models_subscribers_on_event
  keeps_models_subscribers_did_set keeps_models_subscribers_did_update
  keeps_models_subscribers_did_remove keeps_models_model_downlink_manager
  keeps_models_subscript_0 : keeps.

Lemma keeps_models_decode_body (m : DownlinkModel) (message : Envelope) :
  keeps_models (decode_body m message).
Proof. unfold decode_body. keeps. Qed.

#[local] Hint Resolve keeps_models_decode_body : keeps.

Lemma keeps_models_EventDownlinkModel_receive_event (self : ref)
  (message : Envelope) :
  keeps_models (EventDownlinkModel_receive_event self message).
Proof. unfold EventDownlinkModel_receive_event. keeps. Qed.

Lemma keeps_models_receive_unlinked (self : ref) (message : Envelope) :
  keeps_models (receive_unlinked self message).
Proof. unfold receive_unlinked. keeps. Qed.

(** *** Who touches the [linked] event *)

Lemma linked_is_set_same_models (w w' : World) (r : ref) :
  models w' = models w -> linked_is_set r w' = linked_is_set r w.
Proof. unfold linked_is_set. by intros ->. Qed.

Lemma keeps_models_keeps_linked {A : Type} (c : W A) :
  keeps_models c -> keeps_linked c.
Proof.
  intros Hc w. specialize (Hc w).
  destruct (c w); try done; intros r;
    by rewrite (linked_is_set_same_models _ _ _ Hc).
Qed.

Lemma keeps_linked_bind {A B : Type} (c : W A) (k : A -> W B) :
  keeps_linked c -> (forall a, keeps_linked (k a)) -> keeps_linked (c ≫= k).
Proof.
  intros Hc Hk w. rewrite run_bind. specialize (Hc w).
  destruct (c w) as [a w1|e w1|]; [|done..].
  specialize (Hk a w1). destruct (k a w1); try done; intros r; by rewrite Hk.
Qed.

Lemma keeps_linked_ret {A : Type} (a : A) : keeps_linked (mret a).
Proof. by intros w r. Qed.

(** Storing at [self] an update of the model that was there, after steps
    that left the models alone. *)
Lemma linked_is_set_store_model (w w1 : World) (self r : ref)
  (m m' : DownlinkModel) :
  models w !! self = Some m ->
  models w1 = models w ->
  linked_is_set r (store_model self m' w1) =
  if decide (r = self) then m_linked m' else linked_is_set r w.
Proof.
  intros Hm Hsame. unfold linked_is_set, store_model. cbn [models].
  rewrite Hsame. destruct (decide (r = self)) as [->|Hne].
  - by rewrite lookup_insert_eq.
  - by rewrite lookup_insert_ne.
Qed.

Lemma linked_is_set_store_model_same (w w1 : World) (self r : ref)
  (m m' : DownlinkModel) :
  models w !! self = Some m ->
  models w1 = models w ->
  m_linked m' = m_linked m ->
  linked_is_set r (store_model self m' w1) = linked_is_set r w.
Proof.
  intros Hm Hsame Hlinked.
  rewrite (linked_is_set_store_model w w1 self r m) by done.
  destruct (decide (r = self)) as [->|]; [|done].
  unfold linked_is_set. by rewrite Hm.
Qed.

(** [receive_linked] sets the event of its model and no other. *)
Lemma run_receive_linked (w : World) (self : ref) :
  match receive_linked self w with
  | Ok _ w' | Raise _ w' =>
      forall r, linked_is_set r w'
                = if decide (r = self) then true else linked_is_set r w
  | Stuck => True
  end.
Proof.
  unfold receive_linked. rewrite run_bind.
  unfold get_model, deref. destruct (models w !! self) as [m|] eqn:Hm; [|done].
  intros r. by rewrite (linked_is_set_store_model w w self r m).
Qed.

Lemma keeps_linked_receive_synced (self : ref) :
  keeps_linked (receive_synced self).
Proof.
  intros w. unfold receive_synced. rewrite run_bind.
  unfold get_model, deref. destruct (models w !! self) as [m|] eqn:Hm; [|done].
  destruct (m_state m); [unfold raise; by intros r|..]; intros r;
    by apply (linked_is_set_store_model_same w w self r m).
Qed.

(** The shape the three replica updates share: read the model, take some
    steps that leave the models alone, store an update of the model that
    keeps the flag, take more such steps. *)
Lemma keeps_linked_update {A : Type} (self : ref) (m : DownlinkModel)
  (before : W A) (update : A -> DownlinkModel) (after : A -> W unit)
  (w : World) :
  models w !! self = Some m ->
  keeps_models before ->
  (forall a, m_linked (update a) = m_linked m) ->
  (forall a, keeps_models (after a)) ->
  match (before ≫= fun a => put_model self (update a) ≫= fun _ => after a) w
  with
  | Ok _ w' | Raise _ w' => forall r, linked_is_set r w' = linked_is_set r w
  | Stuck => True
  end.
Proof.
  intros Hm Hbefore Hupdate Hafter. rewrite run_bind.
  specialize (Hbefore w).
  destruct (before w) as [a w1|e w1|]; [| |done].
  - rewrite run_bind. cbn [put_model].
    specialize (Hafter a (store_model self (update a) w1)).
    destruct (after a _) as [[] w2|e w2|]; [| |done]; intros r;
      rewrite (linked_is_set_same_models _ _ _ Hafter);
      by apply (linked_is_set_store_model_same w w1 self r m).
  - intros r. by rewrite (linked_is_set_same_models _ _ _ Hbefore).
Qed.

Lemma keeps_linked_set_value (self : ref) (message : Envelope) :
  keeps_linked (set_value self message).
Proof.
  intros w. unfold set_value. rewrite run_bind.
  unfold get_model, deref. destruct (models w !! self) as [m|] eqn:Hm; [|done].
  destruct (m_state m) as [|old_value synced|]; try done.
  apply (keeps_linked_update self m (decode_body m message)
           (fun value =>
              model_with_state (ValueDownlinkModel value synced) m)
           (fun value =>
              model_downlink_manager m "subscribers_did_set" ≫= fun manager =>
              subscribers_did_set manager value old_value)); try done.
  - apply keeps_models_decode_body.
  - intros value. keeps.
Qed.

Lemma keeps_linked_receive_update (self : ref) (message : Envelope) :
  keeps_linked (receive_update self message).
Proof.
  intros w. unfold receive_update. rewrite run_bind.
  unfold get_model, deref. destruct (models w !! self) as [m|] eqn:Hm; [|done].
  destruct (m_state m) as [| |map synced]; try done.
  rewrite run_bind.
  destruct (model_downlink_manager m "registered_classes" w)
    as [manager w1|e w1|] eqn:Hmanager; [| |done].
  - assert (w1 = w) as ->.
    { unfold model_downlink_manager in Hmanager.
      destruct (m_downlink_manager m); by inversion Hmanager. }
    rewrite run_bind. unfold get_manager, deref.
    destruct (managers w !! manager) as [g|]; [|done].
    apply (keeps_linked_update self m
             (subscript_0 _)
             (fun _ => model_with_state (MapDownlinkModel _ synced) m)
             (fun old_value => subscribers_did_update manager _ _ old_value));
      try done; intros; keeps.
  - unfold model_downlink_manager in Hmanager.
    destruct (m_downlink_manager m); by inversion Hmanager.
Qed.

Lemma keeps_linked_receive_remove (self : ref) (message : Envelope) :
  keeps_linked (receive_remove self message).
Proof.
  intros w. unfold receive_remove. rewrite run_bind.
  unfold get_model, deref. destruct (models w !! self) as [m|] eqn:Hm; [|done].
  destruct (m_state m) as [| |map synced]; try done.
  rewrite run_bind.
  destruct (model_downlink_manager m "registered_classes" w)
    as [manager w1|e w1|] eqn:Hmanager; [| |done].
  - assert (w1 = w) as ->.
    { unfold model_downlink_manager in Hmanager.
      destruct (m_downlink_manager m); by inversion Hmanager. }
    rewrite run_bind. unfold get_manager, deref.
    destruct (managers w !! manager) as [g|]; [|done].
    apply (keeps_linked_update self m
             (subscript_0 _)
             (fun _ => model_with_state (MapDownlinkModel _ synced) m)
             (fun old_value => subscribers_did_remove manager _ old_value));
      try done; intros; keeps.
  - unfold model_downlink_manager in Hmanager.
    destruct (m_downlink_manager m); by inversion Hmanager.
Qed.

Lemma keeps_linked_receive_event (self : ref) (message : Envelope) :
  keeps_linked (receive_event self message).
Proof.
  unfold receive_event. apply keeps_linked_bind.
  - apply keeps_models_keeps_linked, keeps_models_get_model.
  - intros m. destruct (m_state m).
    + apply keeps_models_keeps_linked,
        keeps_models_EventDownlinkModel_receive_event.
    + apply keeps_linked_set_value.
    + unfold MapDownlinkModel_receive_event.
      apply keeps_linked_bind;
        [destruct (body_tag_is message "update");
           [apply keeps_linked_receive_update|apply keeps_linked_ret]|].
      intros _. destruct (body_tag_is message "remove");
        [apply keeps_linked_receive_remove|apply keeps_linked_ret].
Qed.

(** The one envelope that changes a [linked] event is [linked], and it sets
    the event of the model it is delivered to. *)
Lemma run_receive_message_linked_is_set (w : World) (self : ref)
  (message : Envelope) :
  match receive_message self message w with
  | Ok _ w' | Raise _ w' =>
      forall r, linked_is_set r w'
                = if decide (r = self /\ tag message = "linked") then true
                  else linked_is_set r w
  | Stuck => True
  end.
Proof.
  unfold receive_message.
  destruct (String.eqb_spec (tag message) "linked") as [Htag|Htag].
  { pose proof (run_receive_linked w self) as Hrun.
    destruct (receive_linked self w); try done; intros r; rewrite Hrun;
      destruct (decide (r = self)) as [->|Hne];
      destruct (decide (_ /\ _)) as [[]|Hboth]; try done;
      by destruct Hboth. }
  assert (forall (c : W unit), keeps_linked c ->
            match c w with
            | Ok _ w' | Raise _ w' =>
                forall r, linked_is_set r w'
                          = if decide (r = self /\ tag message = "linked")
                            then true else linked_is_set r w
            | Stuck => True
            end) as Hkeeps.
  { intros c Hc. specialize (Hc w).
    destruct (c w); try done; intros r; rewrite Hc;
      by destruct (decide (_ /\ _)) as [[]|]. }
  destruct (String.eqb (tag message) "synced");
    [apply Hkeeps, keeps_linked_receive_synced|].
  destruct (String.eqb (tag message) "event");
    [apply Hkeeps, keeps_linked_receive_event|].
  destruct (String.eqb (tag message) "unlinked");
    [|apply Hkeeps, keeps_linked_ret].
  apply Hkeeps, keeps_models_keeps_linked, keeps_models_receive_unlinked.
Qed.

(** *** The loop *)

Lemma loop_invariant_init (w : World) : loop_invariant (loop_init w).
Proof. split; intros self recon Hin; by apply elem_of_nil in Hin. Qed.

Lemma loop_step_invariant (ev : Event) (s s' : Loop) :
  loop_invariant s -> loop_step ev s = Some s' -> loop_invariant s'.
Proof.
  intros [Hsuspended Hwritten] Hstep.
  destruct ev as [model message|model message|task]; cbn [loop_step] in Hstep.
  - pose proof (run_receive_message_linked_is_set (world s) model message)
      as Hrun.
    assert (forall w', (forall r,
               linked_is_set r w'
               = if decide (r = model /\ tag message = "linked") then true
                 else linked_is_set r (world s)) ->
             loop_invariant {| world := w'; suspended := suspended s;
                               written := written s |}) as Hinv.
    { intros w' Hw'. split; intros self recon Hin; cbn [world];
        rewrite Hw'; destruct (decide (_ /\ _)); eauto. }
    destruct (receive_message model message (world s)) as [[] w'|e w'|];
      [| |done]; inversion Hstep; subst s'; by apply Hinv.
  - destruct (has_send_message model (world s)); [|done].
    inversion Hstep; subst s'. split; intros self recon Hin; cbn in *.
    + apply elem_of_app in Hin as [Hin|Hin]; [eauto|].
      by apply list_elem_of_singleton in Hin.
    + eauto.
  - destruct (suspended s !! task) as [[self message|self recon0]|] eqn:Htask;
      [| |done].
    + destruct (linked_is_set self (world s)) eqn:Hlinked; [|done].
      inversion Hstep; subst s'. split; intros self' recon Hin; cbn in *.
      * apply list_elem_of_lookup in Hin as [i Hi].
        apply list_lookup_insert_Some in Hi as [(-> & Heq & _)|[_ Hi]].
        -- by inversion Heq; subst.
        -- apply list_elem_of_lookup_2 in Hi. eauto.
      * eauto.
    + inversion Hstep; subst s'. split; intros self' recon Hin; cbn in *.
      * apply list_elem_of_delete_inv in Hin. eauto.
      * apply elem_of_app in Hin as [Hin|Hin]; [eauto|].
        apply list_elem_of_singleton in Hin. inversion Hin; subst.
        apply list_elem_of_lookup_2 in Htask. eauto.
Qed.

Lemma loop_run_invariant (evs : list Event) :
  forall s s', loop_invariant s -> loop_run evs s = Some s' ->
               loop_invariant s'.
Proof.
  induction evs as [|ev evs IH]; intros s s' Hinv Hrun; cbn in Hrun.
  - by inversion Hrun; subst.
  - destruct (loop_step ev s) as [s1|] eqn:Hstep; [|done].
    eapply IH; [|done]. by eapply loop_step_invariant.
Qed.

(** A [linked] event found set after a run was set from the start, or a
    [linked] envelope was delivered to its model during the run. *)
Lemma loop_run_linked_origin (evs : list Event) :
  forall s s' self,
    loop_run evs s = Some s' ->
    linked_is_set self (world s') = true ->
    linked_is_set self (world s) = true
    \/ exists message,
         ev_receive self message ∈ evs /\ tag message = "linked".
Proof.
  induction evs as [|ev evs IH]; intros s s' self Hrun Hlinked; cbn in Hrun.
  - inversion Hrun; subst. by left.
  - destruct (loop_step ev s) as [s1|] eqn:Hstep; [|done].
    destruct (IH _ _ _ Hrun Hlinked) as [Hs1|(message & Hin & Htag)].
    2:{ right. exists message. split; [by apply elem_of_cons; right|done]. }
    destruct ev as [model message|model message|task];
      cbn [loop_step] in Hstep.
    + pose proof (run_receive_message_linked_is_set (world s) model message)
        as Hrun1.
      assert (forall w', (forall r,
                 linked_is_set r w'
                 = if decide (r = model /\ tag message = "linked") then true
                   else linked_is_set r (world s)) ->
               linked_is_set self w' = true ->
               linked_is_set self (world s) = true
               \/ exists message0,
                    ev_receive self message0 ∈ ev_receive model message :: evs
                    /\ tag message0 = "linked") as Horigin.
      { intros w' Hw' Hset. rewrite Hw' in Hset.
        destruct (decide (_ /\ _)) as [[-> Htag]|]; [|by left].
        right. exists message. split; [apply elem_of_cons; by left|done]. }
      destruct (receive_message model message (world s)) as [[] w'|e w'|];
        [| |done]; inversion Hstep; subst s1; by apply (Horigin w').
    + destruct (has_send_message model (world s)); [|done].
      inversion Hstep; subst s1. by left.
    + destruct (suspended s !! task) as [[self0 message|self0 recon0]|];
        [| |done].
      * destruct (linked_is_set self0 (world s)); [|done].
        inversion Hstep; subst s1. by left.
      * inversion Hstep; subst s1. by left.
Qed.

(** C7. In every run of the loop that starts with no [send_message] under
    way, the step that gives a frame of [send_message] to the connection
    finds the [linked] event of the model set; and the event was set from
    the start or a [linked] envelope has been delivered to the model
    earlier in the run. *)
Theorem send_message_writes_after_linked (w : World) (evs : list Event)
  (s s' : Loop) (ev : Event) (self : ref) (recon : string) :
  loop_run evs (loop_init w) = Some s ->
  loop_step ev s = Some s' ->
  written s' = (written s ++ [(self, recon)])%list ->
  linked_is_set self (world s) = true
  /\ (linked_is_set self w = true
      \/ exists message,
           ev_receive self message ∈ evs /\ tag message = "linked").
Proof.
  intros Hrun Hstep Hwrite.
  pose proof (loop_run_invariant evs _ _ (loop_invariant_init w) Hrun)
    as [Hsuspended _].
  assert (linked_is_set self (world s) = true) as Hlinked.
  { assert (forall l : list (ref * string), l <> (l ++ [(self, recon)])%list)
      as Hgrow.
    { intros l Heq. apply (f_equal length) in Heq.
      rewrite length_app in Heq. simpl in Heq. lia. }
    destruct ev as [model message|model message|task];
      cbn [loop_step] in Hstep.
    - destruct (receive_message model message (world s)) as [[] w'|e w'|];
        [| |done]; inversion Hstep; subst s'; cbn in Hwrite;
        by apply Hgrow in Hwrite.
    - destruct (has_send_message model (world s)); [|done].
      inversion Hstep; subst s'. cbn in Hwrite. by apply Hgrow in Hwrite.
    - destruct (suspended s !! task) as [[self0 message|self0 recon0]|]
        eqn:Htask; [| |done].
      + destruct (linked_is_set self0 (world s)); [|done].
        inversion Hstep; subst s'. cbn in Hwrite. by apply Hgrow in Hwrite.
      + inversion Hstep; subst s'. cbn in Hwrite.
        apply app_inv_head in Hwrite. inversion Hwrite; subst.
        apply list_elem_of_lookup_2 in Htask. eauto. }
  split; [done|]. by apply (loop_run_linked_origin evs (loop_init w) s).
Qed.

(** Every frame [send_message] has written belongs to a model whose
    [linked] event is set. *)
Lemma written_frames_are_linked (w : World) (evs : list Event) (s : Loop)
  (self : ref) (recon : string) :
  loop_run evs (loop_init w) = Some s ->
  (self, recon) ∈ written s ->
  linked_is_set self (world s) = true.
Proof.
  intros Hrun Hin.
  pose proof (loop_run_invariant evs _ _ (loop_invariant_init w) Hrun)
    as [_ Hwritten].
  eauto.
Qed.

End Facts.
End DownlinksFacts.

Module Scenarios.
Import Py Recon ReconFacts Downlinks DownlinksFacts.

(** *** The parser *)

(** C3. The two reserved words do not parse to a [Bool]: on the message
    [true] and on the message [false] the identifier parser, and with it
    the whole parser, raises [IndexError] at the end of the text. *)
Theorem reserved_words_raise_IndexError (fuel : nat) :
  IdentParser_parse (InputMessage_init "true") =
  Raises (IndexError "string index out of range")
         {| message := "true"; index := 4 |}
  /\ parse_block_string (S fuel) "true" =
     Raises (IndexError "string index out of range")
            {| message := "true"; index := 4 |}
  /\ IdentParser_parse (InputMessage_init "false") =
     Raises (IndexError "string index out of range")
            {| message := "false"; index := 5 |}
  /\ parse_block_string (S fuel) "false" =
     Raises (IndexError "string index out of range")
            {| message := "false"; index := 5 |}.
Proof.
  split; [by apply (IdentParser_parse_runs_off_the_end "true")|].
  split; [by apply (BlockParser_parse_bare_identifier fuel "true")|].
  split; [by apply (IdentParser_parse_runs_off_the_end "false")|].
  by apply (BlockParser_parse_bare_identifier fuel "false").
Qed.

(** With a character after them that ends the identifier, the reserved
    words parse to a [Text] like every other identifier. *)
Lemma reserved_words_parse_to_Text (t : ascii) (rest : string) :
  is_ident_char (ord t) = false ->
  IdentParser_parse (InputMessage_init ("true" +:+ String t rest)) =
  Returns (PyText (PyStr "true"))
          {| message := "true" +:+ String t rest; index := 4 |}
  /\ IdentParser_parse (InputMessage_init ("false" +:+ String t rest)) =
     Returns (PyText (PyStr "false"))
             {| message := "false" +:+ String t rest; index := 5 |}.
Proof.
  intros Ht. split.
  - by apply (IdentParser_parse_terminated "true" t rest).
  - by apply (IdentParser_parse_terminated "false" t rest).
Qed.

(** The lane name of the frames of section 6, alone in a message. *)
Lemma bare_identifier_runs_off_the_end_witness :
  IdentParser_parse (InputMessage_init (strip "lights")) =
  Raises (IndexError "string index out of range")
         {| message := strip "lights";
            index := String.length (strip "lights") |}
  /\ parse_block_string 1 "lights" =
     Raises (IndexError "string index out of range")
            {| message := strip "lights";
               index := String.length (strip "lights") |}.
Proof.
  apply (bare_identifier_runs_off_the_end "lights" 0). reflexivity.
Defined.

(** *** The downlinks *)

(** Scenario 3 of section 8 on the sample store: with [v] stored under [k],
    the remove of [k] calls [did_remove("k", "k")] on both subscribers. *)
Lemma map_event_old_value_is_the_stored_key_witness :
  receive_message 0 (frame_remove "k") sample_world =
  Ok () (schedule_all
           [user_callback 11 [Text "k"; Text "k"];
            user_callback 21 [Text "k"; Text "k"]]
           (store_model 0
              (model_with_state (MapDownlinkModel [] true) sample_model)
              sample_world)).
Proof.
  apply (map_event_old_value_is_the_stored_key sample_world 0 0 sample_model
           sample_manager [("k", (Text "k", Text "v"))] true
           (frame_remove "k") (Text "k") (Text "v"));
    reflexivity.
Defined.

(** The late join of scenario 5, on the map downlink: the view 2 is
    attached to the open manager 0, whose replica holds one entry under
    [k]. *)
Lemma late_join_replay_unpacks_the_key_witness :
  exists msg,
    MapDownlinkView_register_manager 2 0 sample_world =
    Raise (ValueError msg)
          (attach 2 0 sample_late_view sample_manager sample_world).
Proof.
  apply (late_join_replay_unpacks_the_key sample_world 2 0 sample_late_view
           sample_manager sample_model "k" (Text "k", Text "v") [] true);
    (reflexivity || (simpl; lia)).
Defined.

(** The same attach, evaluated: the error is the one of unpacking a string
    of one character, and no task has been scheduled. *)
Example late_join_replay_on_the_sample_store :
  exists w',
    MapDownlinkView_register_manager 2 0 sample_world =
    Raise (ValueError "not enough values to unpack (expected 2, got 1)") w'
    /\ scheduled w' = [].
Proof. eexists. split; reflexivity. Qed.

(** The view 0 is attached to the manager 0 and both have [strict] false;
    after [strict = True] on the view, [strict] still reads false. *)
Lemma strict_setter_attached_ignores_its_argument_witness :
  (strict_setter 0 true ≫= fun _ => strict 0) sample_world =
  Ok false
     (store_manager 0 (manager_with_strict false sample_manager)
                    sample_world).
Proof.
  apply (strict_setter_attached_ignores_its_argument sample_world 0 0
           (sample_view 10 11) sample_manager true); reflexivity.
Defined.

(** C5, as the claim has it, fails on the sample store: after an
    [unlinked] envelope with another reason the model still holds its
    connection and no subscriber has been handed anything. *)
Lemma unlinked_other_leaves_the_downlink_open :
  exists w',
    receive_message 0 (frame_unlinked [Attr "shutdown" Extant]) sample_world
    = Ok () w'
    /\ connection_released 0 w' = false
    /\ subscribers_notified sample_world w' = false.
Proof. exists sample_world. repeat split; reflexivity. Qed.

Lemma unlinked_without_laneNotFound_is_ignored_witness :
  receive_message 0 (frame_unlinked [Attr "shutdown" Extant]) sample_world
  = Ok () sample_world.
Proof.
  apply (unlinked_without_laneNotFound_is_ignored sample_world 0 sample_model
           (frame_unlinked [Attr "shutdown" Extant])); reflexivity.
Defined.



(** The run of [sample_run], then the resumption that writes the frame. *)
Lemma send_message_writes_after_linked_witness :
  linked_is_set 2 (world (loop_after sample_run sample_world)) = true
  /\ (linked_is_set 2 sample_world = true
      \/ exists message,
           ev_receive 2 message ∈ sample_run /\ tag message = "linked").
Proof.
  apply (send_message_writes_after_linked sample_world sample_run
           (loop_after sample_run sample_world)
           (loop_after (sample_run ++ [ev_resume 0]) sample_world)
           (ev_resume 0) 2 (to_recon (frame_command "lights" (Text "on"))));
    reflexivity.
Defined.

(** The frame that resumption writes. *)
Example send_message_writes_the_command :
  written (loop_after (sample_run ++ [ev_resume 0]) sample_world)
  = [(2, "@command(node:a,lane:lights)" +:+ dquote +:+ "on" +:+ dquote)].
Proof. reflexivity. Qed.

(** Before the [linked] envelope the coroutine cannot be resumed, and
    nothing is written. *)
Example send_message_stays_suspended :
  loop_run [ev_send_message 2 (frame_command "lights" (Text "on")); ev_resume 0]
           (loop_init sample_world) = None
  /\ written
       (loop_after [ev_send_message 2 (frame_command "lights" (Text "on"))]
                   sample_world) = [].
Proof. split; reflexivity. Qed.

(** The closed value view 3 and the open map view 0 of the sample store. *)
Lemma reads_and_writes_are_guarded_by_is_open_witness :
  ((forall wait_sync,
       ValueDownlinkView_get sample_task_result 3 wait_sync sample_world
       = Raise not_open sample_world)
   /\ (forall value blocking,
          ValueDownlinkView_set sample_task_result 3 value blocking
                                sample_world
          = Raise not_open sample_world))
  /\ (forall key value blocking w',
         MapDownlinkView_put sample_task_result 0 key value blocking
                             sample_world
         <> Raise not_open w').
Proof.
  split.
  - apply (reads_and_writes_are_guarded_by_is_open sample_task_result
             sample_world 3 ValueDownlinkView_init); reflexivity.
  - intros key value blocking w'.
    apply (reads_and_writes_are_guarded_by_is_open sample_task_result
             sample_world 0 (sample_view 10 11)); try reflexivity.
    intros c w0 w1. discriminate.
Defined.

(** The open map view 0 of the sample store reads its replica. *)
Example open_view_reads :
  MapDownlinkView_get sample_task_result 0 (Some (Text "k")) false
                      sample_world
  = Ok (ret_item (Text "k", Text "v")) sample_world.
Proof. reflexivity. Qed.

(** The event model 1 of the sample store. *)
Lemma event_downlink_raises_on_synced_witness :
  receive_message 1 frame_synced sample_world = receive_synced 1 sample_world
  /\ (m_state sample_event_model = EventDownlinkModel ->
      receive_message 1 frame_synced sample_world =
      Raise (TypeError "Event downlink does not support synced responses!")
            sample_world).
Proof.
  apply (event_downlink_raises_on_synced sample_world 1 sample_event_model
           frame_synced); reflexivity.
Defined.

End Scenarios.

(* ===================================================================== *)
(** ** parsers.py: more properties *)
(* ===================================================================== *)

Module ReconMore.
Import Py Recon ReconFacts ReconBehaviour.

Section Behaviour.
Context {utils : ReconUtils} {structs : Structs}.

Lemma eqb_none_of (c : ascii) (l : list ascii) :
  existsb (Ascii.eqb c) l = false ->
  Forall (fun p => Ascii.eqb c p = false) l.
Proof.
  intros Hl. apply Forall_forall. intros p Hin.
  destruct (Ascii.eqb c p) eqn:Heq; [|done].
  assert (existsb (Ascii.eqb c) l = true) as Hex; [|congruence].
  apply existsb_exists. exists p. split; [|done].
  by apply list_elem_of_In.
Qed.

Ltac none_of_cases H :=
  repeat match type of H with
         | Forall _ (_ :: _) =>
             let Hc := fresh "Hpunct" in
             apply Forall_cons in H as [Hc H]
         end.

Ltac skip_cases :=
  repeat match goal with
         | H : Ascii.eqb _ _ = false |- _ => rewrite H
         end.

(** With a character after it that ends the identifier, the literal parser
    returns what the value builder binds for the [Text] of the identifier,
    with the cursor on that character. *)
Lemma LiteralParser_parse_terminated (s : string) (t : ascii)
  (rest : string) :
  bare_identifier s = true ->
  is_ident_char (ord t) = false ->
  LiteralParser_parse (InputMessage_init (s +:+ String t rest)) =
  Returns (ValueBuilder_add_bind (PyText (PyStr s)))
          {| message := s +:+ String t rest; index := String.length s |}.
Proof.
  intros Hs Ht.
  pose proof (IdentParser_parse_terminated s t rest Hs Ht) as Hident.
  destruct s as [|c s]; [done|]. simpl in Hs.
  apply andb_true_iff in Hs as [Hs Hall]. apply andb_true_iff in Hs as [Hc Hp].
  apply negb_true_iff, not_punctuation in Hp. none_of_cases Hp.
  unfold LiteralParser_parse, InputMessage_init in *.
  rewrite app_cons in *.
  rewrite run_parser_bind, head_at. cbn [String.get].
  skip_cases. rewrite Hc. unfold parse_ident.
  by rewrite run_parser_bind, Hident.
Qed.

(** The operator parsers above it hand that result on when the character
    after the identifier is none of the operators they test for. *)
Lemma AdditiveOperatorParser_parse_terminated (s : string) (t : ascii)
  (rest : string) :
  bare_identifier s = true ->
  is_ident_char (ord t) = false ->
  existsb (Ascii.eqb t) ["("; "*"; "/"; "%"; "+"; "-"]%char = false ->
  AdditiveOperatorParser_parse (InputMessage_init (s +:+ String t rest)) =
  Returns (ValueBuilder_add_bind (PyText (PyStr s)))
          {| message := s +:+ String t rest; index := String.length s |}.
Proof.
  intros Hs Ht Hop.
  pose proof (LiteralParser_parse_terminated s t rest Hs Ht) as Hlit.
  assert (String.get (String.length s) (s +:+ String t rest) = Some t)
    as Hterm by (by rewrite get_app_here).
  apply eqb_none_of in Hop.
  destruct s as [|c s]; [done|]. simpl in Hs.
  apply andb_true_iff in Hs as [Hs Hall]. apply andb_true_iff in Hs as [Hc Hp].
  apply negb_true_iff, not_punctuation in Hp. none_of_cases Hp.
  unfold AdditiveOperatorParser_parse, MultiplicativeOperatorParser_parse,
    PrefixOperatorParser_parse, InvokeOperatorParser_parse,
    PrimaryParser_parse.
  unfold InputMessage_init in *.
  set (text := String c s +:+ String t rest) in *.
  assert (String.get 0 text = Some c) as Hfirst by done.
  rewrite !run_parser_bind, head_at, Hfirst. skip_cases.
  rewrite !run_parser_bind, head_at, Hfirst. skip_cases.
  rewrite Hlit. cbv beta iota.
  clear Hpunct Hpunct0 Hpunct1 Hpunct2 Hpunct3 Hpunct4 Hpunct5
    Hpunct6 Hpunct7 Hpunct8 Hpunct9.
  none_of_cases Hop.
  rewrite run_parser_bind, head_at, Hterm. skip_cases.
  unfold mret at 1, P_ret at 1. cbv beta iota.
  rewrite run_parser_bind, head_at, Hterm. skip_cases.
  unfold mret at 1, P_ret at 1. cbv beta iota.
  rewrite run_parser_bind, head_at, Hterm. by skip_cases.
Qed.

(** X1. A message that is, once stripped, an identifier followed by a
    character that ends it and that is none of [( * / % + -]: the parser
    returns [None] with the cursor on that character. What follows the
    identifier is never read, and the [Text] the identifier parser built
    is dropped on the way up. *)
Theorem parse_block_string_stops_after_the_identifier
  (recon_string s : string) (t : ascii) (rest : string) (fuel : nat) :
  strip recon_string = s +:+ String t rest ->
  bare_identifier s = true ->
  is_ident_char (ord t) = false ->
  existsb (Ascii.eqb t) ["("; "*"; "/"; "%"; "+"; "-"]%char = false ->
  parse_block_string (S fuel) recon_string =
  Returns PyNone
          {| message := strip recon_string; index := String.length s |}.
Proof.
  intros Hstrip Hs Ht Hop.
  pose proof (AdditiveOperatorParser_parse_terminated s t rest Hs Ht Hop)
    as Hadd.
  unfold parse_block_string. cbn [BlockParser_parse].
  rewrite run_parser_bind.
  cbn [InputMessage_strip InputMessage_init message index].
  rewrite Hstrip.
  unfold LambdaFuncParser_parse, ConditionalOperatorParser_parse,
    OrOperatorParser_parse, AndOperatorParser_parse,
    BitwiseOrOperatorParser_parse, BitwiseXorOperatorParser_parse,
    BitwiseAndOperator_parse, ComparisonOperatorParser_parse,
    AttrExpressionParser_parse.
  unfold InputMessage_init in Hadd.
  destruct s as [|c s]; [done|]. simpl in Hs.
  apply andb_true_iff in Hs as [Hs Hall]. apply andb_true_iff in Hs as [Hc Hp].
  apply negb_true_iff, not_punctuation in Hp. none_of_cases Hp.
  set (text := String c s +:+ String t rest) in *.
  assert (String.get 0 text = Some c) as Hfirst by done.
  rewrite !run_parser_bind, head_at, Hfirst. skip_cases.
  unfold unawaited. rewrite run_parser_bind. by rewrite Hadd.
Qed.

(** X2. A message that is empty once stripped raises [IndexError] at the
    very first character: there is no check for the end of the text before
    [head] is called. *)
Theorem blank_message_raises_IndexError (recon_string : string)
  (fuel : nat) :
  strip recon_string = EmptyString ->
  parse_block_string (S fuel) recon_string =
  Raises out_of_range {| message := EmptyString; index := 0 |}.
Proof.
  intros Hblank. unfold parse_block_string. cbn [BlockParser_parse].
  rewrite run_parser_bind.
  cbn [InputMessage_strip InputMessage_init message index].
  rewrite Hblank.
  unfold LambdaFuncParser_parse, ConditionalOperatorParser_parse,
    OrOperatorParser_parse, AndOperatorParser_parse,
    BitwiseOrOperatorParser_parse, BitwiseXorOperatorParser_parse,
    BitwiseAndOperator_parse, ComparisonOperatorParser_parse,
    AttrExpressionParser_parse.
  by rewrite !run_parser_bind, head_at.
Qed.

Lemma app_assoc_string (a b c : string) :
  (a +:+ b) +:+ c = a +:+ b +:+ c.
Proof.
  induction a as [|x a IH]; [done|]. by rewrite !app_cons, IH.
Qed.

Lemma get_at_length (pre : string) (c : ascii) (rest : string) :
  String.get (String.length pre) (pre +:+ String c rest) = Some c.
Proof. by rewrite get_app_here. Qed.

Lemma IdentParser_parse_identifier (pre : string) (c : ascii)
  (s : string) (t : ascii) (rest : string) :
  is_ident_start_char (ord c) = true ->
  all_ident_chars s = true ->
  is_ident_char (ord t) = false ->
  IdentParser_parse
    {| message := pre +:+ String c s +:+ String t rest;
       index := String.length pre |} =
  Returns (PyText (PyStr (String c s)))
    {| message := pre +:+ String c s +:+ String t rest;
       index := String.length pre + String.length (String c s) |}.
Proof.
  intros Hc Hs Ht. unfold IdentParser_parse.
  rewrite run_parser_bind, head_at. cbn [message index].
  rewrite app_cons, get_at_length, Hc.
  rewrite run_parser_bind, step_at, head_at.
  rewrite (app_assoc_cons pre c), <- (length_app_one pre c), get_app_here.
  destruct (String.get 0 (s +:+ String t rest)) as [c'|] eqn:Hget;
    [|by destruct s].
  rewrite run_parser_bind.
  rewrite (ident_loop_stops t rest s _ _ _ c'); try done.
  - cbn [mret P_ret mbind P_bind]. unfold create_ident. cbn.
    do 2 f_equal. rewrite length_app_one. lia.
  - rewrite !length_app. simpl. lia.
Qed.

(** X3. With the cursor on the first character of an identifier that is
    followed by a character ending it, [IdentParser.parse] returns the
    [Text] of exactly that identifier and leaves the cursor on the
    character after it; the text before the cursor plays no part. With the
    cursor on a character that cannot start an identifier it does not
    fail: it wraps [None] in a [Text] and leaves the cursor where it
    was. *)
Theorem IdentParser_parse_reads_the_identifier (pre : string) (c : ascii)
  (s : string) (t : ascii) (rest : string) :
  is_ident_start_char (ord c) = true ->
  all_ident_chars s = true ->
  is_ident_char (ord t) = false ->
  IdentParser_parse
    {| message := pre +:+ String c s +:+ String t rest;
       index := String.length pre |} =
  Returns (PyText (PyStr (String c s)))
    {| message := pre +:+ String c s +:+ String t rest;
       index := String.length pre + String.length (String c s) |}
  /\ (forall (m : InputMessage) (c' : ascii),
         String.get (index m) (message m) = Some c' ->
         is_ident_start_char (ord c') = false ->
         IdentParser_parse m = Returns (PyText PyNone) m).
Proof.
  intros Hc Hs Ht. split; [by apply IdentParser_parse_identifier|].
  intros [text i] c' Hget Hc'. unfold IdentParser_parse.
  rewrite run_parser_bind, head_at. cbn [message index] in *.
  by rewrite Hget, Hc'.
Qed.

Lemma get_after (pre s : string) (t : ascii) (rest : string) :
  String.get (String.length pre + String.length s)
             (pre +:+ s +:+ String t rest) = Some t.
Proof.
  rewrite <- app_assoc_string, <- length_app. apply get_at_length.
Qed.

(** X4. [AttrParser.parse] on [@name()]: the attribute gets the identifier
    as its key and the default value [Extant], and the cursor is left on
    the closing parenthesis, which is not consumed. *)
Theorem AttrParser_parse_empty_arguments (pb : P pyval) (pre : string)
  (c : ascii) (s rest : string) :
  is_ident_start_char (ord c) = true ->
  all_ident_chars s = true ->
  is_ident_char (ord "("%char) = false ->
  let text := pre +:+ "@" +:+ String c s +:+ "()" +:+ rest in
  AttrParser_parse pb {| message := text; index := String.length pre |} =
  Returns (PyAttr (PyText (PyStr (String c s))) PyExtant)
    {| message := text;
       index := String.length pre + String.length (String c s) + 2 |}.
Proof.
  intros Hc Hs Hparen text.
  set (pre' := pre +:+ "@").
  set (T := pre' +:+ String c s +:+ String "(" (")" +:+ rest)).
  assert (text = T) as ->.
  { unfold text, T, pre'. by rewrite app_assoc_string. }
  assert (String.length pre + 1 = String.length pre') as Hone.
  { unfold pre'. by rewrite length_app. }
  assert (String.get (String.length pre) T = Some "@"%char) as Hat.
  { unfold T, pre'. rewrite app_assoc_string. apply get_at_length. }
  assert (String.get (String.length pre') T = Some c) as Hfirst.
  { unfold T. rewrite app_cons. apply get_at_length. }
  assert (String.get (String.length pre' + String.length (String c s)) T
          = Some "("%char) as Hopen by apply get_after.
  assert (String.get (String.length pre' + String.length (String c s) + 1) T
          = Some ")"%char) as Hclose.
  { unfold T.
    replace (pre' +:+ String c s +:+ String "(" (")" +:+ rest))
      with ((pre' +:+ String c s +:+ "(") +:+ String ")" rest)
      by (by rewrite !app_assoc_string).
    replace (String.length pre' + String.length (String c s) + 1)
      with (String.length (pre' +:+ String c s +:+ "("))
      by (rewrite !length_app; simpl; lia).
    apply get_at_length. }
  unfold AttrParser_parse.
  rewrite run_parser_bind, head_at, Hat. cbn [Ascii.eqb Bool.eqb].
  rewrite run_parser_bind, step_at, head_at, Hone, Hfirst.
  rewrite run_parser_bind. unfold parse_ident.
  unfold T at 1.
  rewrite (IdentParser_parse_identifier pre' c s "("
             (")" +:+ rest) Hc Hs Hparen).
  fold T.
  rewrite run_parser_bind, head_at, Hopen. cbn [Ascii.eqb Bool.eqb].
  rewrite run_parser_bind, step_at, head_at, Hclose.
  rewrite run_parser_bind, head_at, Hclose. cbn [Ascii.eqb Bool.eqb].
  cbn [mret P_ret]. unfold create_attr. cbn [default].
  do 2 f_equal. rewrite <- Hone. lia.
Qed.

End Behaviour.
End ReconMore.

(* ===================================================================== *)
(** ** downlinks.py: more properties *)
(* ===================================================================== *)

Module DownlinksMore.
Import Py Downlinks DownlinksFacts Configuration.

Section More.
Context {structures : Structures}.

(** *** Dictionaries *)

Lemma dict_get_set_eq {V : Type} (k : string) (v : V) (d : dict V) :
  dict_get k (dict_set k v d) = Some v.
Proof.
  induction d as [|[k' v'] d IH]; cbn [dict_set dict_get].
  - by rewrite String.eqb_refl.
  - destruct (String.eqb k' k) eqn:Hk; cbn [dict_get]; by rewrite Hk.
Qed.

Lemma dict_get_set_ne {V : Type} (k k' : string) (v : V) (d : dict V) :
  k <> k' -> dict_get k' (dict_set k v d) = dict_get k' d.
Proof.
  intros Hne. induction d as [|[k0 v0] d IH]; cbn [dict_set dict_get].
  - by apply String.eqb_neq in Hne as ->.
  - destruct (String.eqb_spec k0 k) as [->|Hk0]; cbn [dict_get].
    + by apply String.eqb_neq in Hne as ->.
    + by rewrite IH.
Qed.

Lemma dict_get_None {V : Type} (k : string) (d : dict V) :
  k ∉ dict_keys d -> dict_get k d = None.
Proof.
  induction d as [|[k' v'] d IH]; [done|]. unfold dict_keys. cbn.
  intros Hnot. apply not_elem_of_cons in Hnot as [Hne Hnot].
  apply not_eq_sym, String.eqb_neq in Hne as ->. by apply IH.
Qed.

Lemma dict_keys_remove {V : Type} (k k' : string) (d : dict V) :
  k' ∈ dict_keys (dict_remove k d) -> k' ∈ dict_keys d.
Proof.
  unfold dict_keys. induction d as [|[k0 v0] d IH]; [done|].
  cbn [dict_remove]. destruct (String.eqb k0 k); cbn.
  - intros Hin. by apply elem_of_cons; right.
  - intros [->|Hin]%elem_of_cons; apply elem_of_cons; [by left|].
    right. by apply IH.
Qed.

Lemma dict_get_remove_eq {V : Type} (k : string) (d : dict V) :
  NoDup (dict_keys d) -> dict_get k (dict_remove k d) = None.
Proof.
  unfold dict_keys. induction d as [|[k' v'] d IH]; [done|].
  cbn. intros [Hnot Hd]%NoDup_cons.
  destruct (String.eqb_spec k' k) as [->|Hne].
  - by apply dict_get_None.
  - cbn [dict_get]. apply String.eqb_neq in Hne as ->. by apply IH.
Qed.

Lemma dict_get_remove_ne {V : Type} (k k' : string) (d : dict V) :
  k <> k' -> dict_get k' (dict_remove k d) = dict_get k' d.
Proof.
  intros Hne. induction d as [|[k0 v0] d IH]; [done|].
  cbn [dict_remove dict_get].
  destruct (String.eqb_spec k0 k) as [->|Hk0]; cbn [dict_get].
  - by apply String.eqb_neq in Hne as ->.
  - by rewrite IH.
Qed.

Lemma dict_keys_set {V : Type} (k k' : string) (v : V) (d : dict V) :
  k' ∈ dict_keys (dict_set k v d) -> k' = k \/ k' ∈ dict_keys d.
Proof.
  unfold dict_keys. induction d as [|[k0 v0] d IH]; cbn [dict_set].
  - cbn. intros [->|Hin]%elem_of_cons; [by left|by right].
  - destruct (String.eqb k0 k); cbn.
    + intros Hin. by right.
    + intros [->|Hin]%elem_of_cons.
      * right. by apply elem_of_cons; left.
      * destruct (IH Hin) as [->|Hd]; [by left|].
        right. by apply elem_of_cons; right.
Qed.

Lemma NoDup_dict_set {V : Type} (k : string) (v : V) (d : dict V) :
  NoDup (dict_keys d) -> NoDup (dict_keys (dict_set k v d)).
Proof.
  induction d as [|[k0 v0] d IH]; cbn [dict_set].
  - intros _. unfold dict_keys. cbn. apply NoDup_singleton.
  - unfold dict_keys in *. cbn. intros [Hnot Hd]%NoDup_cons.
    destruct (String.eqb_spec k0 k) as [->|Hne]; cbn.
    + by apply NoDup_cons.
    + apply NoDup_cons. split; [|by apply IH].
      intros Hin. apply (dict_keys_set k k0 v d) in Hin as [->|Hin]; done.
Qed.

Lemma NoDup_dict_remove {V : Type} (k : string) (d : dict V) :
  NoDup (dict_keys d) -> NoDup (dict_keys (dict_remove k d)).
Proof.
  induction d as [|[k0 v0] d IH]; [done|]. cbn [dict_remove].
  unfold dict_keys in *. cbn. intros [Hnot Hd]%NoDup_cons.
  destruct (String.eqb k0 k); cbn; [done|].
  apply NoDup_cons. split; [|by apply IH].
  intros Hin. by apply (dict_keys_remove k k0 d) in Hin.
Qed.

(** [d.update(other)]: the classes of [other] win, the rest of [d] stays. *)
Lemma dict_get_update {V : Type} (k : string) (other : dict V) :
  forall d : dict V,
    NoDup (dict_keys other) ->
    dict_get k (dict_update d other)
    = match dict_get k other with
      | Some v => Some v
      | None => dict_get k d
      end.
Proof.
  unfold dict_update.
  induction other as [|[k0 v0] other IH]; intros d Hother; [done|].
  unfold dict_keys in Hother. cbn in Hother.
  apply NoDup_cons in Hother as [Hnot Hother].
  cbn [fold_left fst snd dict_get]. rewrite IH by done.
  destruct (String.eqb_spec k0 k) as [->|Hne].
  - rewrite (dict_get_None k other) by done. apply dict_get_set_eq.
  - by rewrite dict_get_set_ne.
Qed.

(** *** Fan-out of the value and event downlinks *)

Lemma views_of_class_cons (is_class : DownlinkView -> bool) (w : World)
  (r : ref) (rs : list ref) :
  views_of_class is_class w (r :: rs) = true ->
  (exists v, views w !! r = Some v /\ is_class v = true)
  /\ views_of_class is_class w rs = true.
Proof.
  unfold views_of_class. cbn [forallb]. intros [Hr Hrs]%andb_true_iff.
  split; [|done]. destruct (views w !! r) as [v|]; [|done]. by exists v.
Qed.

Lemma run_execute_did_set (w : World) (r : ref) (v : DownlinkView)
  (current old : Obj) :
  views w !! r = Some v -> is_value_view v = true ->
  execute_did_set r current old w =
  Ok () (schedule_all
           (match did_set_callback v with
            | Some callback => [user_callback callback [current; old]]
            | None => []
            end) w).
Proof.
  intros Hv Hvalue. unfold execute_did_set.
  rewrite run_bind, (run_get_view _ _ _ Hv).
  unfold is_value_view, did_set_callback in *.
  destruct (v_state v) as [|[callback|] ini|]; try done.
  by rewrite schedule_all_nil.
Qed.

Lemma run_execute_on_event (w : World) (r : ref) (v : DownlinkView)
  (event : Obj) :
  views w !! r = Some v -> is_event_view v = true ->
  execute_on_event r event w =
  Ok () (schedule_all
           (match on_event_callback v with
            | Some callback => [user_callback callback [event]]
            | None => []
            end) w).
Proof.
  intros Hv Hevent. unfold execute_on_event.
  rewrite run_bind, (run_get_view _ _ _ Hv).
  unfold is_event_view, on_event_callback in *.
  destruct (v_state v) as [[callback|]| |]; try done.
  by rewrite schedule_all_nil.
Qed.

Lemma fan_out_did_set (subscribers : list ref) :
  forall (w : World) (current old : Obj),
    views_of_class is_value_view w subscribers = true ->
    for_each subscribers (fun view => execute_did_set view current old) w =
    Ok () (schedule_all
             ((fun callback => user_callback callback [current; old])
                <$> callbacks_of did_set_callback w subscribers) w).
Proof.
  induction subscribers as [|r rs IH]; intros w current old Hviews.
  - simpl. by rewrite schedule_all_nil.
  - apply views_of_class_cons in Hviews as [(v & Hv & Hvalue) Hviews].
    cbn [for_each]. rewrite run_bind.
    rewrite (run_execute_did_set _ _ _ _ _ Hv Hvalue).
    rewrite IH by done. rewrite schedule_all_app.
    rewrite callbacks_of_cons, Hv. cbn [mbind option_bind].
    change (callbacks_of did_set_callback (schedule_all ?cs w) rs)
      with (callbacks_of did_set_callback w rs).
    by destruct (did_set_callback v).
Qed.

Lemma fan_out_on_event (subscribers : list ref) :
  forall (w : World) (event : Obj),
    views_of_class is_event_view w subscribers = true ->
    for_each subscribers (fun view => execute_on_event view event) w =
    Ok () (schedule_all
             ((fun callback => user_callback callback [event])
                <$> callbacks_of on_event_callback w subscribers) w).
Proof.
  induction subscribers as [|r rs IH]; intros w event Hviews.
  - simpl. by rewrite schedule_all_nil.
  - apply views_of_class_cons in Hviews as [(v & Hv & Hevent) Hviews].
    cbn [for_each]. rewrite run_bind.
    rewrite (run_execute_on_event _ _ _ _ Hv Hevent).
    rewrite IH by done. rewrite schedule_all_app.
    rewrite callbacks_of_cons, Hv. cbn [mbind option_bind].
    change (callbacks_of on_event_callback (schedule_all ?cs w) rs)
      with (callbacks_of on_event_callback w rs).
    by destruct (on_event_callback v).
Qed.

Lemma run_decode_body (w : World) (manager : ref) (m : DownlinkModel)
  (g : DownlinkManager) (message : Envelope) :
  m_downlink_manager m = Some manager ->
  managers w !! manager = Some g ->
  decode_body m message w = Ok (decoded g (body message)) w.
Proof.
  intros Hmgr Hg. unfold decode_body, decoded, model_downlink_manager.
  rewrite Hmgr.
  destruct (body message); try done; rewrite run_bind; cbn [mret W_ret];
    by rewrite run_bind, (run_get_manager _ _ _ Hg).
Qed.

Lemma run_set_value (w : World) (self manager : ref)
  (m : DownlinkModel) (g : DownlinkManager) (value : Obj) (synced : bool)
  (message : Envelope) :
  models w !! self = Some m ->
  m_state m = ValueDownlinkModel value synced ->
  m_downlink_manager m = Some manager ->
  managers w !! manager = Some g ->
  views_of_class is_value_view w (mgr_downlink_views g) = true ->
  set_value self message w =
  Ok () (schedule_all
           ((fun callback =>
               user_callback callback [decoded g (body message); value])
              <$> callbacks_of did_set_callback w (mgr_downlink_views g))
           (store_model self
              (model_with_state
                 (ValueDownlinkModel (decoded g (body message)) synced) m)
              w)).
Proof.
  intros Hm Hst Hmgr Hg Hviews.
  unfold set_value. rewrite run_bind, (run_get_model _ _ _ Hm), Hst.
  rewrite run_bind, (run_decode_body w manager m g) by done.
  rewrite run_bind. unfold put_model at 1.
  unfold model_downlink_manager. rewrite Hmgr.
  rewrite run_bind. cbn [mret W_ret].
  unfold subscribers_did_set.
  rewrite run_bind, (run_get_manager _ manager g) by done.
  by rewrite fan_out_did_set.
Qed.

(** X6. An event on a value downlink stores the decoded body as the new
    value, keeps the [synced] event as it was, and schedules
    [did_set(new, old)] once per subscriber that has the callback, in the
    order of the subscribers, with the value the replica held before as the
    old value.
    The record converter is taken where section 4.1 gives it no
    failure: the manager is not strict, or the body is one the code
    does not hand to it. *)
Theorem value_event_sets_the_value (w : World) (self manager : ref)
  (m : DownlinkModel) (g : DownlinkManager) (value : Obj) (synced : bool)
  (message : Envelope) :
  models w !! self = Some m ->
  m_state m = ValueDownlinkModel value synced ->
  m_downlink_manager m = Some manager ->
  managers w !! manager = Some g ->
  mgr_strict g = false \/ runs_the_converter (body message) = false ->
  views_of_class is_value_view w (mgr_downlink_views g) = true ->
  tag message = "event" ->
  receive_message self message w =
  Ok () (schedule_all
           ((fun callback =>
               user_callback callback [decoded g (body message); value])
              <$> callbacks_of did_set_callback w (mgr_downlink_views g))
           (store_model self
              (model_with_state
                 (ValueDownlinkModel (decoded g (body message)) synced) m)
              w)).
Proof.
  intros Hm Hst Hmgr Hg _ Hviews Htag.
  rewrite (run_receive_message_event _ _ _ Htag).
  unfold receive_event. rewrite run_bind, (run_get_model _ _ _ Hm), Hst.
  by apply (run_set_value w self manager).
Qed.

(** X7. An event on an event downlink changes no model and schedules
    [on_event(event)] once per subscriber that has the callback, in the
    order of the subscribers, with the decoded body.
    The record converter is taken where section 4.1 gives it no
    failure: the manager is not strict, or the body is one the code
    does not hand to it. *)
Theorem event_downlink_fans_out (w : World) (self manager : ref)
  (m : DownlinkModel) (g : DownlinkManager) (message : Envelope) :
  models w !! self = Some m ->
  m_state m = EventDownlinkModel ->
  m_downlink_manager m = Some manager ->
  managers w !! manager = Some g ->
  mgr_strict g = false \/ runs_the_converter (body message) = false ->
  views_of_class is_event_view w (mgr_downlink_views g) = true ->
  tag message = "event" ->
  receive_message self message w =
  Ok () (schedule_all
           ((fun callback =>
               user_callback callback [decoded g (body message)])
              <$> callbacks_of on_event_callback w (mgr_downlink_views g))
           w).
Proof.
  intros Hm Hst Hmgr Hg _ Hviews Htag.
  rewrite (run_receive_message_event _ _ _ Htag).
  unfold receive_event. rewrite run_bind, (run_get_model _ _ _ Hm), Hst.
  unfold EventDownlinkModel_receive_event.
  rewrite run_bind, (run_get_model _ _ _ Hm).
  rewrite run_bind, (run_decode_body w manager m g) by done.
  unfold model_downlink_manager. rewrite Hmgr.
  rewrite run_bind. cbn [mret W_ret].
  unfold subscribers_on_event.
  rewrite run_bind, (run_get_manager _ manager g) by done.
  by rewrite fan_out_on_event.
Qed.

(** *** Attaching a view *)

Lemma attach_lookup_view (w : World) (self manager : ref) (v : DownlinkView)
  (g : DownlinkManager) :
  views (attach self manager v g w) !! self
  = Some (view_with_downlink_manager (Some manager)
            (view_with_model (Some (mgr_downlink_model g)) v)).
Proof. apply lookup_insert_eq. Qed.

Lemma attach_lookup_other_view (w : World) (self manager other : ref)
  (v : DownlinkView) (g : DownlinkManager) :
  other <> self ->
  views (attach self manager v g w) !! other = views w !! other.
Proof. intros Hne. by apply lookup_insert_ne. Qed.

Lemma attach_lookup_manager (w : World) (self manager : ref)
  (v : DownlinkView) (g : DownlinkManager) :
  managers (attach self manager v g w) !! manager
  = Some (manager_with_strict (v_strict v)
            (manager_with_classes
               (dict_update (mgr_registered_classes g)
                            (v_registered_classes v)) g)).
Proof. apply lookup_insert_eq. Qed.

(** X8. A value view attached late: [register_manager] attaches it, and
    when the manager is open it schedules [did_set(current, Absent)] for
    this view alone, provided it has the callback; then it sets
    [initialised]. When the manager is not open nothing is scheduled. *)
Theorem value_late_join_replays_the_value (w : World) (self manager : ref)
  (v : DownlinkView) (g : DownlinkManager) (m : DownlinkModel)
  (value : Obj) (synced : bool) :
  views w !! self = Some v ->
  is_value_view v = true ->
  v_downlink_manager v = None ->
  managers w !! manager = Some g ->
  models w !! mgr_downlink_model g = Some m ->
  m_state m = ValueDownlinkModel value synced ->
  ValueDownlinkView_register_manager self manager w =
  Ok () (store_view self
           (initialise
              (view_with_downlink_manager (Some manager)
                 (view_with_model (Some (mgr_downlink_model g)) v)))
           (schedule_all
              (if mgr_is_open g then
                 match did_set_callback v with
                 | Some callback =>
                     [user_callback callback [value; of_value Absent]]
                 | None => []
                 end
               else [])
              (attach self manager v g w))).
Proof.
  intros Hv Hvalue Hdetached Hg Hm Hst.
  unfold ValueDownlinkView_register_manager.
  rewrite run_bind, (run_assign_manager _ _ _ _ _ Hv Hdetached Hg).
  set (w1 := attach self manager v g w).
  set (v1 := view_with_downlink_manager (Some manager)
               (view_with_model (Some (mgr_downlink_model g)) v)).
  assert (views w1 !! self = Some v1) as Hv1 by apply attach_lookup_view.
  assert (is_value_view v1 = true) as Hvalue1 by done.
  rewrite run_bind,
    (run_get_manager w1 manager _ (attach_lookup_manager _ _ _ _ _)).
  cbn [mgr_is_open manager_with_strict manager_with_classes].
  assert (forall cs,
             initialised_set self (schedule_all cs w1)
             = Ok () (store_view self (initialise v1) (schedule_all cs w1)))
    as Hini.
  { intros cs. unfold initialised_set.
    rewrite run_bind, (run_get_view (schedule_all cs w1) self v1) by done.
    unfold initialise. unfold is_value_view in Hvalue1.
    by destruct (v_state v1). }
  destruct (mgr_is_open g).
  - rewrite !run_bind. unfold view_model_value.
    rewrite run_bind, (run_get_view _ _ _ Hv1).
    cbn [v_model v1 view_with_downlink_manager view_with_model].
    rewrite run_bind, (run_get_model w1 _ m) by done. rewrite Hst.
    cbn [mret W_ret].
    rewrite (run_execute_did_set w1 self v1) by done.
    by rewrite Hini.
  - rewrite run_bind. cbn [mret W_ret].
    rewrite <- (schedule_all_nil w1) at 1. by rewrite Hini.
Qed.

(** X9. Attaching a view overwrites the [strict] flag of the manager with
    the private flag of that view: afterwards the new view and every view
    that was already attached to the manager read the new view's flag. *)
Theorem attach_overwrites_strict (w : World) (self manager other : ref)
  (v vo : DownlinkView) (g : DownlinkManager) :
  views w !! self = Some v ->
  v_downlink_manager v = None ->
  managers w !! manager = Some g ->
  views w !! other = Some vo ->
  v_downlink_manager vo = Some manager ->
  (assign_manager self manager ≫= fun _ => strict self) w
  = Ok (v_strict v) (attach self manager v g w)
  /\ (assign_manager self manager ≫= fun _ => strict other) w
     = Ok (v_strict v) (attach self manager v g w).
Proof.
  intros Hv Hdetached Hg Hvo Hattached.
  assert (other <> self) as Hne by (intros ->; congruence).
  rewrite !run_bind, (run_assign_manager _ _ _ _ _ Hv Hdetached Hg).
  split.
  - by rewrite (run_strict_attached _ self manager _ _
                  (attach_lookup_view _ _ _ _ _) eq_refl
                  (attach_lookup_manager _ _ _ _ _)).
  - by rewrite (run_strict_attached (attach self manager v g w) other
                  manager vo _
                  (eq_trans (attach_lookup_other_view _ _ _ _ _ _ Hne) Hvo)
                  Hattached (attach_lookup_manager _ _ _ _ _)).
Qed.

(** X10. Attaching a view merges its private classes into the registry of
    the manager: read through any attached view, a name the new view had
    registered gives the new view's class, and every other name gives what
    the manager had. *)
Theorem attach_merges_registered_classes (w : World)
  (self manager other : ref) (v vo : DownlinkView) (g : DownlinkManager)
  (name : string) :
  views w !! self = Some v ->
  v_downlink_manager v = None ->
  NoDup (dict_keys (v_registered_classes v)) ->
  managers w !! manager = Some g ->
  views w !! other = Some vo ->
  v_downlink_manager vo = Some manager ->
  exists classes,
    (assign_manager self manager ≫= fun _ => registered_classes other) w
    = Ok classes (attach self manager v g w)
    /\ dict_get name classes
       = match dict_get name (v_registered_classes v) with
         | Some c => Some c
         | None => dict_get name (mgr_registered_classes g)
         end.
Proof.
  intros Hv Hdetached Hnodup Hg Hvo Hattached.
  assert (other <> self) as Hne by (intros ->; congruence).
  rewrite run_bind, (run_assign_manager _ _ _ _ _ Hv Hdetached Hg).
  unfold registered_classes.
  rewrite run_bind, (run_get_view _ other vo)
    by (by rewrite attach_lookup_other_view).
  rewrite Hattached.
  rewrite run_bind, (run_get_manager _ manager _
                       (attach_lookup_manager _ _ _ _ _)).
  eexists. split; [reflexivity|].
  cbn [mgr_registered_classes manager_with_strict manager_with_classes].
  by apply dict_get_update.
Qed.

(** *** Opening and closing a view *)

(** X11. [open()] twice is [open()] once, [close()] on a view that is not
    open does nothing, and [open()] followed by [close()] leaves the view
    closed with the two tasks for the client scheduled in that order. *)
Theorem open_and_close_compose (w : World) (self : ref) (v : DownlinkView) :
  views w !! self = Some v ->
  v_is_open v = false ->
  DownlinkView_close self w = Ok () w
  /\ (DownlinkView_open self ≫= fun _ => DownlinkView_open self) w
     = DownlinkView_open self w
  /\ (DownlinkView_open self ≫= fun _ => DownlinkView_close self) w
     = Ok () (schedule_all
                [add_downlink_view self; remove_downlink_view self]
                (store_view self (view_with_is_open false v) w)).
Proof.
  intros Hv Hclosed.
  assert (forall cs w0 v0,
             views (schedule_all cs (store_view self v0 w0)) !! self
             = Some v0) as Hstored.
  { intros cs w0 v0. apply lookup_insert_eq. }
  split; [|split].
  - unfold DownlinkView_close.
    by rewrite run_bind, (run_get_view _ _ _ Hv), Hclosed.
  - rewrite run_bind, (DownlinkView_open_opens _ _ _ Hv Hclosed).
    unfold DownlinkView_open.
    by rewrite run_bind, (run_get_view _ _ _ (Hstored _ _ _)).
  - rewrite run_bind, (DownlinkView_open_opens _ _ _ Hv Hclosed).
    unfold DownlinkView_close.
    rewrite run_bind, (run_get_view _ _ _ (Hstored _ _ _)).
    cbn [v_is_open view_with_is_open]. rewrite run_bind.
    unfold put_view, schedule_task, schedule_all, store_view.
    cbn [managers models views scheduled]. f_equal. f_equal.
    + by rewrite insert_insert_eq.
    + by rewrite <- app_assoc.
Qed.

(** *** Registered classes *)

Lemma register_classes_app (self : ref) (xs ys : list CustomClass) :
  forall (d : gset string) (w : World),
    register_classes self (xs ++ ys) d w =
    (register_classes self xs d ≫= fun d1 => register_classes self ys d1) w.
Proof.
  induction xs as [|x xs IH]; intros d w; [done|].
  cbn [app register_classes]. rewrite !run_bind.
  destruct (register_class self x d w) as [d1 w1| |]; [|done..].
  by rewrite IH, run_bind.
Qed.

(** X12. [register_classes] is not atomic: when a class of the list cannot
    be constructed without arguments, the exception that names it is
    raised, the classes before it in the list stay registered, and the
    classes after it are not registered. *)
Theorem register_classes_stops_at_the_first_failure (w w' : World)
  (self : ref) (good rest : list CustomClass) (bad : CustomClass)
  (d d' : gset string) :
  register_classes self good d w = Ok d' w' ->
  default_constructor bad = false ->
  register_classes self (good ++ bad :: rest) d w =
  Raise (no_default_constructor bad) w'.
Proof.
  intros Hgood Hbad. rewrite register_classes_app, run_bind, Hgood.
  cbn [register_classes]. rewrite run_bind. unfold register_class.
  by rewrite Hbad.
Qed.

(** X13. A class registered through an attached view goes to the registry
    of the manager: every view attached to that manager reads it under the
    name of the class, and the private set of deregistered names of the
    registering view is left as it was. *)
Theorem register_class_is_shared (w : World) (self manager other : ref)
  (v vo : DownlinkView) (g : DownlinkManager) (custom_class : CustomClass)
  (d : gset string) :
  views w !! self = Some v ->
  v_downlink_manager v = Some manager ->
  managers w !! manager = Some g ->
  views w !! other = Some vo ->
  v_downlink_manager vo = Some manager ->
  default_constructor custom_class = true ->
  exists classes,
    (register_class self custom_class d ≫= fun d1 =>
     registered_classes other ≫= fun classes => mret (d1, classes)) w
    = Ok (d, classes)
         (store_manager manager
            (manager_with_classes
               (dict_set (class_name custom_class)
                         (class_object custom_class)
                         (mgr_registered_classes g)) g) w)
    /\ dict_get (class_name custom_class) classes
       = Some (class_object custom_class).
Proof.
  intros Hv Hattached Hg Hvo Hother Hctor.
  rewrite run_bind. unfold register_class. rewrite Hctor.
  rewrite run_bind, (run_get_view _ _ _ Hv), Hattached.
  rewrite run_bind, (run_get_manager _ _ _ Hg).
  rewrite run_bind. unfold put_manager at 1. cbn [mret W_ret].
  rewrite run_bind. unfold registered_classes.
  rewrite run_bind, (run_get_view _ other vo) by done. rewrite Hother.
  rewrite run_bind, (run_get_manager _ manager _ (lookup_insert_eq _ _ _)).
  eexists. split; [reflexivity|].
  cbn [mgr_registered_classes manager_with_classes]. apply dict_get_set_eq.
Qed.

(** X14. On a view that is not attached, registering a class and then
    deregistering it leaves no class under that name, leaves every other
    name as it was, and records the name in the private set of
    deregistered names. *)
Theorem register_then_deregister (w : World) (self : ref) (v : DownlinkView)
  (custom_class : CustomClass) (d : gset string) (name : string) :
  views w !! self = Some v ->
  v_downlink_manager v = None ->
  NoDup (dict_keys (v_registered_classes v)) ->
  default_constructor custom_class = true ->
  exists classes d' w',
    (register_class self custom_class d ≫= fun d1 =>
     deregister_class self custom_class d1 ≫= fun d2 =>
     registered_classes self ≫= fun classes => mret (d2, classes)) w
    = Ok (d', classes) w'
    /\ dict_get (class_name custom_class) classes = None
    /\ (name <> class_name custom_class ->
        dict_get name classes = dict_get name (v_registered_classes v))
    /\ class_name custom_class ∈ d'.
Proof.
  intros Hv Hdetached Hnodup Hctor.
  rewrite run_bind. unfold register_class. rewrite Hctor.
  rewrite run_bind, (run_get_view _ _ _ Hv), Hdetached.
  rewrite run_bind. unfold put_view at 1. cbn [mret W_ret].
  set (v1 := view_with_registered_classes _ v).
  rewrite run_bind. unfold deregister_class.
  rewrite run_bind, (run_get_view _ self v1 (lookup_insert_eq _ _ _)).
  cbn [v_downlink_manager v1 view_with_registered_classes].
  rewrite Hdetached.
  rewrite run_bind. unfold put_view at 1. cbn [mret W_ret].
  set (v2 := view_with_registered_classes _ v1).
  rewrite run_bind.
  rewrite (run_registered_classes_detached _ self v2);
    [|apply lookup_insert_eq|done].
  do 3 eexists. split; [reflexivity|].
  cbn [v_registered_classes v2 v1 view_with_registered_classes].
  split; [|split].
  - apply dict_get_remove_eq. by apply NoDup_dict_set.
  - intros Hne. rewrite dict_get_remove_ne by done.
    by rewrite dict_get_set_ne.
  - set_solver.
Qed.

(** X15. [deregister_all_classes] through an attached view empties the
    registry of the manager for every view attached to it and adds the
    names it held to the private set of the view; through a view that is
    not attached it empties the registry that view reads and leaves the
    set as it was. *)
Theorem deregister_all_classes_empties_the_registry (w : World)
  (loner self manager other : ref) (vl v vo : DownlinkView)
  (g : DownlinkManager) (d : gset string) :
  views w !! loner = Some vl ->
  v_downlink_manager vl = None ->
  views w !! self = Some v ->
  v_downlink_manager v = Some manager ->
  managers w !! manager = Some g ->
  views w !! other = Some vo ->
  v_downlink_manager vo = Some manager ->
  (exists w',
      (deregister_all_classes loner d ≫= fun d1 =>
       registered_classes loner ≫= fun classes => mret (d1, classes)) w
      = Ok (d, []) w')
  /\ (deregister_all_classes self d ≫= fun d1 =>
      registered_classes other ≫= fun classes => mret (d1, classes)) w
     = Ok (d ∪ list_to_set (dict_keys (mgr_registered_classes g)), [])
          (store_manager manager (manager_with_classes [] g) w).
Proof.
  intros Hvl Hdetached Hv Hattached Hg Hvo Hother. split.
  - eexists. rewrite run_bind. unfold deregister_all_classes.
    rewrite run_bind, (run_get_view _ _ _ Hvl), Hdetached.
    rewrite run_bind. unfold put_view at 1. cbn [mret W_ret].
    rewrite run_bind.
    by rewrite (run_registered_classes_detached _ loner
                  (view_with_registered_classes [] vl)
                  (lookup_insert_eq _ _ _) Hdetached).
  - rewrite run_bind. unfold deregister_all_classes.
    rewrite run_bind, (run_get_view _ _ _ Hv), Hattached.
    rewrite run_bind, (run_get_manager _ _ _ Hg).
    rewrite run_bind. unfold put_manager at 1. cbn [mret W_ret].
    rewrite run_bind. unfold registered_classes.
    rewrite run_bind, (run_get_view _ other vo) by done. rewrite Hother.
    by rewrite run_bind,
         (run_get_manager _ manager _ (lookup_insert_eq _ _ _)).
Qed.

(** *** Reads that wait for [synced] *)

(** X16. The waiting read of a value downlink that is not synced stays
    pending, also after an event has set the value; once the event and
    then [synced] have been received it returns the decoded body of the
    event.
    The record converter is taken where section 4.1 gives it no
    failure: the manager is not strict, or the body is one the code
    does not hand to it. *)
Theorem waiting_read_returns_after_synced (w : World) (self manager : ref)
  (m : DownlinkModel) (g : DownlinkManager) (value : Obj)
  (event synced : Envelope) :
  models w !! self = Some m ->
  m_state m = ValueDownlinkModel value false ->
  m_downlink_manager m = Some manager ->
  managers w !! manager = Some g ->
  mgr_strict g = false \/ runs_the_converter (body event) = false ->
  views_of_class is_value_view w (mgr_downlink_views g) = true ->
  tag event = "event" ->
  tag synced = "synced" ->
  ValueDownlinkModel_get_value self w = Ok Pending w
  /\ (exists w',
         (receive_message self event ≫= fun _ =>
          ValueDownlinkModel_get_value self) w = Ok Pending w')
  /\ (exists w',
         (wait_for_messages self [event; synced] ≫= fun _ =>
          ValueDownlinkModel_get_value self) w
         = Ok (Done (decoded g (body event))) w').
Proof.
  intros Hm Hst Hmgr Hg _ Hviews Hevent Hsynced.
  assert (receive_message self event w
          = Ok () (schedule_all
                     ((fun callback =>
                         user_callback callback
                           [decoded g (body event); value])
                        <$> callbacks_of did_set_callback w
                              (mgr_downlink_views g))
                     (store_model self
                        (model_with_state
                           (ValueDownlinkModel (decoded g (body event)) false)
                           m) w))) as Hrun.
  { rewrite (run_receive_message_event _ _ _ Hevent).
    unfold receive_event. rewrite run_bind, (run_get_model _ _ _ Hm), Hst.
    by apply (run_set_value w self manager). }
  split; [|split].
  - unfold ValueDownlinkModel_get_value.
    by rewrite run_bind, (run_get_model _ _ _ Hm), Hst.
  - eexists. rewrite run_bind, Hrun.
    unfold ValueDownlinkModel_get_value.
    rewrite run_bind, (run_get_model _ self _ (lookup_insert_eq _ _ _)).
    reflexivity.
  - eexists. rewrite run_bind. unfold wait_for_messages.
    cbn [for_each]. rewrite run_bind, Hrun.
    rewrite run_bind, (run_receive_message_synced _ _ _ Hsynced).
    unfold receive_synced.
    rewrite run_bind, (run_get_model _ self _ (lookup_insert_eq _ _ _)).
    cbn [m_state model_with_state]. unfold put_model at 1.
    cbn [mret W_ret]. unfold ValueDownlinkModel_get_value.
    rewrite run_bind, (run_get_model _ self _ (lookup_insert_eq _ _ _)).
    reflexivity.
Qed.

(** X17. On an open, initialised map view of a synced map downlink, the
    read that waits, [get(key, wait_sync=True)], gives item 0 of the stored
    [(key, value)] tuple, the decoded key, where the immediate read
    [get(key)] gives the whole tuple; for a key the replica does not hold
    both give [Absent]. *)
Theorem map_reads_return_key_or_tuple
  (task_result : Coroutine -> W Ret) (w : World) (reader model : ref)
  (v : DownlinkView) (m : DownlinkModel) (map : dict (Obj * Obj))
  (did_update did_remove : option nat) (key : Obj) :
  views w !! reader = Some v ->
  v_state v = MapDownlinkView did_update did_remove true ->
  v_is_open v = true ->
  v_model v = Some model ->
  models w !! model = Some m ->
  m_state m = MapDownlinkModel map true ->
  MapDownlinkView_get_value reader (Some key) w
  = Ok (Done (ret_obj match as_dict_key key ≫= fun s => dict_get s map with
                      | Some entry => entry.1
                      | None => of_value Absent
                      end)) w
  /\ MapDownlinkView_get task_result reader (Some key) false w
     = Ok match as_dict_key key ≫= fun s => dict_get s map with
          | Some entry => ret_item entry
          | None => ret_obj (of_value Absent)
          end w.
Proof.
  intros Hv Hst Hopen Hmodel Hm Hmst. split.
  - unfold MapDownlinkView_get_value.
    rewrite run_bind, (run_get_view _ _ _ Hv), Hst, Hmodel.
    unfold MapDownlinkModel_get_value.
    rewrite run_bind, (run_get_model _ _ _ Hm), Hmst. rewrite run_bind.
    by destruct (as_dict_key key ≫= fun s => dict_get s map) as [[k0 v0]|].
  - unfold MapDownlinkView_get.
    rewrite run_bind, (run_get_map_view _ _ v Hv)
      by (unfold is_map_view; by rewrite Hst).
    rewrite Hopen. unfold MapDownlinkView_map.
    rewrite run_bind, (run_get_view _ _ _ Hv), Hmodel.
    unfold view_model_map.
    rewrite !run_bind, (run_get_view _ _ _ Hv), Hmodel.
    rewrite run_bind, (run_get_model _ _ _ Hm), Hmst. cbn [mret W_ret].
    by destruct (as_dict_key key ≫= fun s => dict_get s map).
Qed.

(** *** The replica of a map downlink, read through a view *)

(** X18. After an [@update(key: K) V] event an open map view of the
    downlink reads, under the canonical string of [K], the tuple of the
    decoded key and the decoded value, and reads every other key as
    before the event.
    The manager is not strict, where section 4.1 gives the record
    converter no failure. *)
Theorem map_update_then_get (task_result : Coroutine -> W Ret) (w : World)
  (self manager reader : ref) (m : DownlinkModel) (g : DownlinkManager)
  (v : DownlinkView) (map : dict (Obj * Obj)) (synced : bool)
  (message : Envelope) (key : Obj) (s : string) :
  models w !! self = Some m ->
  m_state m = MapDownlinkModel map synced ->
  m_downlink_manager m = Some manager ->
  managers w !! manager = Some g ->
  mgr_strict g = false ->
  map_views w (mgr_downlink_views g) = true ->
  views w !! reader = Some v ->
  is_map_view v = true ->
  v_is_open v = true ->
  v_model v = Some self ->
  tag message = "event" ->
  body_tag_is message "update" = true ->
  as_dict_key key = Some s ->
  exists w',
    (receive_message self message ≫= fun _ =>
     MapDownlinkView_get task_result reader (Some key) false) w
    = Ok (if String.eqb s (Recon_to_string (head_key (body message))) then
            ret_item
              (record_to_object (head_key (body message))
                 (mgr_registered_classes g) (mgr_strict g),
               record_to_object (get_body (body message))
                 (mgr_registered_classes g) (mgr_strict g))
          else match dict_get s map with
               | Some entry => ret_item entry
               | None => ret_obj (of_value Absent)
               end) w'.
Proof.
  intros Hm Hst Hmgr Hg _ Hviews Hv Hmap Hopen Hmodel Htag Hupdate Hkey.
  eexists. rewrite run_bind, (run_receive_message_event _ _ _ Htag).
  unfold receive_event. rewrite run_bind, (run_get_model _ _ _ Hm), Hst.
  unfold MapDownlinkModel_receive_event. rewrite Hupdate.
  rewrite (body_tag_is_exclusive _ _ "remove" Hupdate) by done.
  rewrite run_bind.
  rewrite (run_receive_update _ _ _ _ _ _ _ _ Hm Hst Hmgr Hg Hviews).
  cbn [mret W_ret]. unfold MapDownlinkView_get.
  rewrite run_bind, (run_get_map_view _ _ v) by done.
  rewrite Hopen. unfold MapDownlinkView_map.
  rewrite run_bind, (run_get_view _ _ v) by done. rewrite Hmodel.
  unfold view_model_map.
  rewrite !run_bind, (run_get_view _ _ v) by done. rewrite Hmodel.
  rewrite run_bind, (run_get_model _ self _ (lookup_insert_eq _ _ _)).
  cbn [m_state model_with_state mret W_ret]. rewrite Hkey.
  cbn [mbind option_bind].
  destruct (String.eqb_spec s (Recon_to_string (head_key (body message))))
    as [->|Hne].
  - by rewrite dict_get_set_eq.
  - rewrite dict_get_set_ne by done. by destruct (dict_get s map).
Qed.

(** X19. After a [@remove(key: K)] event an open map view of the downlink
    reads [Absent] under the canonical string of [K], and reads every
    other key as before the event.
    The manager is not strict, where section 4.1 gives the record
    converter no failure. *)
Theorem map_remove_then_get (task_result : Coroutine -> W Ret) (w : World)
  (self manager reader : ref) (m : DownlinkModel) (g : DownlinkManager)
  (v : DownlinkView) (map : dict (Obj * Obj)) (synced : bool)
  (message : Envelope) (key : Obj) (s : string) :
  models w !! self = Some m ->
  m_state m = MapDownlinkModel map synced ->
  NoDup (dict_keys map) ->
  m_downlink_manager m = Some manager ->
  managers w !! manager = Some g ->
  mgr_strict g = false ->
  map_views w (mgr_downlink_views g) = true ->
  views w !! reader = Some v ->
  is_map_view v = true ->
  v_is_open v = true ->
  v_model v = Some self ->
  tag message = "event" ->
  body_tag_is message "remove" = true ->
  as_dict_key key = Some s ->
  exists w',
    (receive_message self message ≫= fun _ =>
     MapDownlinkView_get task_result reader (Some key) false) w
    = Ok (if String.eqb s (Recon_to_string (head_key (body message))) then
            ret_obj (of_value Absent)
          else match dict_get s map with
               | Some entry => ret_item entry
               | None => ret_obj (of_value Absent)
               end) w'.
Proof.
  intros Hm Hst Hnodup Hmgr Hg _ Hviews Hv Hmap Hopen Hmodel Htag Hremove
    Hkey.
  eexists. rewrite run_bind, (run_receive_message_event _ _ _ Htag).
  unfold receive_event. rewrite run_bind, (run_get_model _ _ _ Hm), Hst.
  unfold MapDownlinkModel_receive_event. rewrite Hremove.
  rewrite (body_tag_is_exclusive _ _ "update" Hremove) by done.
  rewrite run_bind. cbn [mret W_ret].
  rewrite (run_receive_remove _ _ _ _ _ _ _ _ Hm Hst Hmgr Hg Hviews).
  unfold MapDownlinkView_get.
  rewrite run_bind, (run_get_map_view _ _ v) by done.
  rewrite Hopen. unfold MapDownlinkView_map.
  rewrite run_bind, (run_get_view _ _ v) by done. rewrite Hmodel.
  unfold view_model_map.
  rewrite !run_bind, (run_get_view _ _ v) by done. rewrite Hmodel.
  rewrite run_bind, (run_get_model _ self _ (lookup_insert_eq _ _ _)).
  cbn [m_state model_with_state mret W_ret]. rewrite Hkey.
  cbn [mbind option_bind].
  destruct (String.eqb_spec s (Recon_to_string (head_key (body message))))
    as [->|Hne].
  - by rewrite dict_get_remove_eq.
  - rewrite dict_get_remove_ne by done. by destruct (dict_get s map).
Qed.

Lemma dict_remove_set_absent {V : Type} (k : string) (v : V) (d : dict V) :
  dict_get k d = None -> dict_remove k (dict_set k v d) = d.
Proof.
  induction d as [|[k' v'] d IH]; intros Hget; cbn in *.
  - by rewrite String.eqb_refl.
  - destruct (String.eqb k' k) eqn:Heq; [done|].
    cbn. by rewrite Heq, IH.
Qed.

Lemma store_model_same (w : World) (self : ref) (m : DownlinkModel) :
  models w !! self = Some m -> store_model self m w = w.
Proof.
  intros Hm. destruct w as [gs ms vs cs]. unfold store_model.
  cbn in *. by rewrite insert_id.
Qed.

Lemma model_with_state_same (m : DownlinkModel) (st : ModelState) :
  m_state m = st -> model_with_state st m = m.
Proof. intros <-. by destruct m. Qed.

(** X20. An entry that comes and goes: on a map downlink whose replica has
    nothing under the canonical string of [K], an [@update(key: K) V] event
    followed by a [@remove(key: K)] event leaves every model, view and
    manager as it was; what remains is the scheduled callbacks,
    [did_update(K, V, Absent)] for each subscriber that has the callback
    and then [did_remove(K, K)] for each subscriber that has that one, the
    old value of the remove being the decoded key of the update.
    The manager is not strict, where section 4.1 gives the record
    converter no failure. *)
Theorem map_update_then_remove_restores_the_replica (w : World)
  (self manager : ref) (m : DownlinkModel) (g : DownlinkManager)
  (map : dict (Obj * Obj)) (synced : bool) (update remove : Envelope) :
  models w !! self = Some m ->
  m_state m = MapDownlinkModel map synced ->
  m_downlink_manager m = Some manager ->
  managers w !! manager = Some g ->
  mgr_strict g = false ->
  map_views w (mgr_downlink_views g) = true ->
  tag update = "event" ->
  body_tag_is update "update" = true ->
  tag remove = "event" ->
  body_tag_is remove "remove" = true ->
  Recon_to_string (head_key (body remove))
  = Recon_to_string (head_key (body update)) ->
  dict_get (Recon_to_string (head_key (body update))) map = None ->
  let decode := fun b => record_to_object b (mgr_registered_classes g)
                                          (mgr_strict g) in
  wait_for_messages self [update; remove] w =
  Ok () (schedule_all
           (((fun callback =>
                user_callback callback
                  [decode (head_key (body update));
                   decode (get_body (body update)); of_value Absent])
               <$> callbacks_of did_update_callback w (mgr_downlink_views g))
            ++ ((fun callback =>
                   user_callback callback
                     [decode (head_key (body remove));
                      decode (head_key (body update))])
                  <$> callbacks_of did_remove_callback w
                        (mgr_downlink_views g)))%list
           w).
Proof.
  intros Hm Hst Hmgr Hg _ Hviews Htag Hupdate Htag' Hremove Hsame Habsent
    decode.
  unfold wait_for_messages. cbn [for_each].
  rewrite run_bind, (run_receive_message_event _ _ _ Htag).
  unfold receive_event at 1.
  rewrite run_bind, (run_get_model _ _ _ Hm), Hst.
  unfold MapDownlinkModel_receive_event at 1. rewrite Hupdate.
  rewrite (body_tag_is_exclusive _ _ "remove" Hupdate) by done.
  rewrite run_bind.
  rewrite (run_receive_update _ _ _ _ _ _ _ _ Hm Hst Hmgr Hg Hviews).
  rewrite Habsent. cbn [mret W_ret].
  set (k := Recon_to_string (head_key (body update))) in *.
  set (m1 := model_with_state _ m).
  set (w1 := schedule_all _ _).
  assert (models w1 !! self = Some m1) as Hm1 by apply lookup_insert_eq.
  rewrite run_bind, (run_receive_message_event _ _ _ Htag').
  unfold receive_event.
  rewrite run_bind, (run_get_model _ _ _ Hm1).
  cbn [m_state m1 model_with_state].
  unfold MapDownlinkModel_receive_event. rewrite Hremove.
  rewrite (body_tag_is_exclusive _ _ "update" Hremove) by done.
  rewrite run_bind. cbn [mret W_ret].
  rewrite (run_receive_remove w1 self manager m1 g _ synced remove Hm1
             eq_refl Hmgr Hg Hviews).
  rewrite Hsame, dict_get_set_eq, dict_remove_set_absent by done.
  cbn [fst mret W_ret].
  change (callbacks_of did_remove_callback w1)
    with (callbacks_of did_remove_callback w).
  fold (decode (head_key (body update))) (decode (get_body (body update)))
    (decode (head_key (body remove))).
  unfold mret, W_ret. f_equal. rewrite <- schedule_all_app.
  f_equal.
  assert (model_with_state (MapDownlinkModel map synced) m1 = m) as ->.
  { transitivity (model_with_state (MapDownlinkModel map synced) m);
      [done|by apply model_with_state_same]. }
  unfold w1, schedule_all, store_model.
  cbn [managers models views scheduled].
  destruct w as [gs ms vs cs]. cbn [managers models views scheduled] in *.
  f_equal. rewrite insert_insert_eq. by rewrite insert_id.
Qed.

(** *** Creating the model of a route *)

Lemma run_create_downlink_model (w : World) (self downlink_manager : ref)
  (v : DownlinkView) (g : DownlinkManager) :
  views w !! self = Some v ->
  v_downlink_manager v = None ->
  managers w !! downlink_manager = Some g ->
  create_downlink_model self downlink_manager w =
  Ok (new_model_ref w)
     (store_model (new_model_ref w)
        (model_with_lane_uri (v_lane_uri v)
           (model_with_node_uri (v_node_uri v)
              (model_with_host_uri (v_host_uri v)
                 (model_with_downlink_manager (Some downlink_manager)
                    (model_of_view v)))))
        (store_manager downlink_manager
           (manager_with_strict (v_strict v)
              (manager_with_classes (v_registered_classes v) g)) w)).
Proof.
  intros Hv Hdetached Hg. unfold create_downlink_model.
  rewrite run_bind, (run_get_view _ _ _ Hv). rewrite run_bind.
  set (r := new_model_ref w).
  rewrite run_bind. unfold put_model at 1. rewrite run_bind.
  unfold initalise_model.
  rewrite run_bind, (run_registered_classes_detached _ self v) by done.
  rewrite run_bind, (run_get_manager _ downlink_manager g) by done.
  rewrite run_bind. unfold put_manager at 1.
  rewrite run_bind, (run_strict_detached _ self v) by done.
  rewrite run_bind,
    (run_get_manager _ downlink_manager _ (lookup_insert_eq _ _ _)).
  rewrite run_bind. unfold put_manager at 1.
  rewrite run_bind, (run_get_model _ r _ (lookup_insert_eq _ _ _)).
  rewrite run_bind. unfold put_model at 1.
  rewrite run_bind, (run_get_view _ self v) by done.
  rewrite run_bind, (run_get_model _ r _ (lookup_insert_eq _ _ _)).
  rewrite run_bind. unfold put_model at 1.
  rewrite run_bind, (run_get_view _ self v) by done.
  rewrite run_bind, (run_get_model _ r _ (lookup_insert_eq _ _ _)).
  rewrite run_bind. unfold put_model at 1.
  rewrite run_bind, (run_get_view _ self v) by done.
  rewrite run_bind, (run_get_model _ r _ (lookup_insert_eq _ _ _)).
  unfold put_model. cbn [mret W_ret]. f_equal.
  unfold store_model, store_manager. cbn [managers models views scheduled].
  f_equal; by rewrite !insert_insert_eq.
Qed.

Lemma new_model_ref_is_new (w : World) : models w !! new_model_ref w = None.
Proof. apply not_elem_of_dom, is_fresh. Qed.

(** X21. [create_downlink_model] on a view that is not attached returns a
    model the store did not have: it carries the host, node and lane of
    the view and the manager, it is not linked and has no connection, and
    its replica is the empty one of the class of the view. Every model the
    store had is left as it was. The registry and the [strict] flag of the
    manager are replaced by those of the view, where [assign_manager]
    merges the registry. *)
Theorem create_downlink_model_configures_a_new_model (w : World)
  (self downlink_manager : ref) (v : DownlinkView) (g : DownlinkManager) :
  views w !! self = Some v ->
  v_downlink_manager v = None ->
  managers w !! downlink_manager = Some g ->
  exists model m' w',
    create_downlink_model self downlink_manager w = Ok model w'
    /\ models w !! model = None
    /\ models w' !! model = Some m'
    /\ (forall other, other <> model -> models w' !! other = models w !! other)
    /\ m_host_uri m' = v_host_uri v
    /\ m_node_uri m' = v_node_uri v
    /\ m_lane_uri m' = v_lane_uri v
    /\ m_downlink_manager m' = Some downlink_manager
    /\ m_linked m' = false
    /\ m_connection m' = None
    /\ m_state m' = match v_state v with
                    | EventDownlinkView _ => EventDownlinkModel
                    | ValueDownlinkView _ _ =>
                        ValueDownlinkModel (of_value Absent) false
                    | MapDownlinkView _ _ _ => MapDownlinkModel [] false
                    end
    /\ managers w' !! downlink_manager
       = Some (manager_with_strict (v_strict v)
                 (manager_with_classes (v_registered_classes v) g))
    /\ views w' = views w
    /\ scheduled w' = scheduled w.
Proof.
  intros Hv Hdetached Hg. do 3 eexists.
  split; [by apply run_create_downlink_model|].
  split; [apply new_model_ref_is_new|].
  split; [apply lookup_insert_eq|].
  split; [intros other Hne; by apply lookup_insert_ne|].
  unfold model_of_view.
  repeat split; try (by destruct (v_state v)).
  apply lookup_insert_eq.
Qed.

(** X22. The model a view has created speaks of the lane of that view:
    when [unlinked] with the tag [laneNotFound] arrives for it, the
    exception names the lane the view was given. *)
Theorem created_model_names_the_lane_of_the_view (w : World)
  (self downlink_manager : ref) (v : DownlinkView) (g : DownlinkManager)
  (message : Envelope) :
  views w !! self = Some v ->
  v_downlink_manager v = None ->
  managers w !! downlink_manager = Some g ->
  tag message = "unlinked" ->
  body_tag_is message "laneNotFound" = true ->
  exists w',
    (create_downlink_model self downlink_manager ≫= fun model =>
     receive_message model message) w
    = Raise (Exception ("Lane " +:+ dquote +:+ format_opt (v_lane_uri v)
                        +:+ dquote
                        +:+ " was not found on the remote agent!")) w'.
Proof.
  intros Hv Hdetached Hg Htag Hbody. eexists.
  rewrite run_bind, (run_create_downlink_model _ _ _ _ _ Hv Hdetached Hg).
  rewrite (run_receive_message_unlinked _ _ _ Htag).
  unfold receive_unlinked.
  rewrite run_bind, (run_get_model _ _ _ (lookup_insert_eq _ _ _)), Hbody.
  reflexivity.
Qed.

(** *** What no inbound message does *)

(** X23. No inbound message clears the [linked] event of a model: however
    the reader of a connection ends, by returning or by raising, a model
    that was linked before is linked after; an [unlinked] message in
    particular leaves it set. *)
Theorem linked_is_never_cleared (inbound : list Envelope) (self r : ref) :
  forall w : World,
    linked_is_set r w = true ->
    match wait_for_messages self inbound w with
    | Ok _ w' | Raise _ w' => linked_is_set r w' = true
    | Stuck => True
    end.
Proof.
  unfold wait_for_messages.
  induction inbound as [|message inbound IH]; intros w Hlinked; [done|].
  cbn [for_each]. rewrite run_bind.
  pose proof (run_receive_message_linked_is_set w self message) as Hstep.
  destruct (receive_message self message w) as [[] w1|e w1|]; [| |done].
  - apply IH. rewrite Hstep, Hlinked. by destruct (decide _).
  - rewrite Hstep, Hlinked. by destruct (decide _).
Qed.

End More.
End DownlinksMore.

(* ===================================================================== *)
(** ** The further properties on the sample stores *)
(* ===================================================================== *)

Module MoreScenarios.
Import Py Recon ReconBehaviour ReconMore.
Import Downlinks DownlinksFacts Configuration DownlinksMore.

(** *** The parser *)

Lemma parse_block_string_stops_after_the_identifier_witness :
  parse_block_string 1 " lights on " =
  Returns PyNone {| message := strip " lights on "; index := 6 |}.
Proof.
  apply (parse_block_string_stops_after_the_identifier " lights on "
           "lights" " " "on" 0); reflexivity.
Defined.

Lemma blank_message_raises_IndexError_witness :
  parse_block_string 1 "  " =
  Raises out_of_range {| message := EmptyString; index := 0 |}.
Proof.
  apply (blank_message_raises_IndexError "  " 0). reflexivity.
Defined.

Lemma IdentParser_parse_reads_the_identifier_witness :
  IdentParser_parse {| message := "@" +:+ "ab" +:+ "()"; index := 1 |} =
  Returns (PyText (PyStr "ab"))
    {| message := "@" +:+ "ab" +:+ "()"; index := 1 + 2 |}
  /\ (forall (m : InputMessage) (c' : ascii),
         String.get (index m) (message m) = Some c' ->
         is_ident_start_char (ord c') = false ->
         IdentParser_parse m = Returns (PyText PyNone) m).
Proof.
  apply (IdentParser_parse_reads_the_identifier "@" "a" "b" "(" ")");
    reflexivity.
Defined.

Lemma AttrParser_parse_empty_arguments_witness :
  AttrParser_parse (BlockParser_parse 1)
    {| message := "" +:+ "@" +:+ "ab" +:+ "()" +:+ ""; index := 0 |} =
  Returns (PyAttr (PyText (PyStr "ab")) PyExtant)
    {| message := "" +:+ "@" +:+ "ab" +:+ "()" +:+ ""; index := 0 + 2 + 2 |}.
Proof.
  apply (AttrParser_parse_empty_arguments (BlockParser_parse 1) "" "a" "b"
           ""); reflexivity.
Defined.


(** *** Events *)

(** [off] arrives on the lane [lights], which held [on]: the one subscriber
    with a callback is called with [(off, on)]. *)
Lemma value_event_sets_the_value_witness :
  receive_message 2 (frame_event "lights" (Text "off")) lights_world =
  Ok () (schedule_all
           [user_callback 50 [Text "off"; Text "on"]]
           (store_model 2
              (model_with_state (ValueDownlinkModel (Text "off") true)
                 lights_model)
              lights_world)).
Proof.
  apply (value_event_sets_the_value lights_world 2 1 lights_model
           lights_manager (Text "on") true
           (frame_event "lights" (Text "off")));
    (reflexivity || (left; reflexivity)).
Defined.

Lemma event_downlink_fans_out_witness :
  receive_message 1 (frame_event "clicks" (Num 3)) clicks_world =
  Ok () (schedule_all [user_callback 80 [Num 3]] clicks_world).
Proof.
  apply (event_downlink_fans_out clicks_world 1 2 clicks_model
           clicks_manager (frame_event "clicks" (Num 3)));
    (reflexivity || (left; reflexivity)).
Defined.

(** *** Attaching *)

Lemma value_late_join_replays_the_value_witness :
  ValueDownlinkView_register_manager 7 1 lights_world =
  Ok () (store_view 7
           (initialise
              (view_with_downlink_manager (Some 1)
                 (view_with_model (Some 2) lights_late_view)))
           (schedule_all
              [user_callback 70 [Text "on"; Absent]]
              (attach 7 1 lights_late_view lights_manager lights_world))).
Proof.
  apply (value_late_join_replays_the_value lights_world 7 1
           lights_late_view lights_manager lights_model (Text "on") true);
    reflexivity.
Defined.

(** The view 7 is strict, the manager 1 is not: once 7 is attached, the
    view 5 reads [strict] as [True]. *)
Lemma attach_overwrites_strict_witness :
  (assign_manager 7 1 ≫= fun _ => strict 7) lights_world
  = Ok true (attach 7 1 lights_late_view lights_manager lights_world)
  /\ (assign_manager 7 1 ≫= fun _ => strict 5) lights_world
     = Ok true (attach 7 1 lights_late_view lights_manager lights_world).
Proof.
  apply (attach_overwrites_strict lights_world 7 1 5 lights_late_view
           (lights_view (Some 50)) lights_manager); reflexivity.
Defined.

Lemma attach_merges_registered_classes_witness :
  exists classes,
    (assign_manager 7 1 ≫= fun _ => registered_classes 5) lights_world
    = Ok classes (attach 7 1 lights_late_view lights_manager lights_world)
    /\ dict_get "Switch" classes
       = match dict_get "Switch" (v_registered_classes lights_late_view) with
         | Some c => Some c
         | None => dict_get "Switch" (mgr_registered_classes lights_manager)
         end.
Proof.
  apply (attach_merges_registered_classes lights_world 7 1 5
           lights_late_view (lights_view (Some 50)) lights_manager "Switch");
    try reflexivity.
  apply NoDup_singleton.
Defined.

(** *** Opening and closing *)

Lemma open_and_close_compose_witness :
  DownlinkView_close 3 sample_world = Ok () sample_world
  /\ (DownlinkView_open 3 ≫= fun _ => DownlinkView_open 3) sample_world
     = DownlinkView_open 3 sample_world
  /\ (DownlinkView_open 3 ≫= fun _ => DownlinkView_close 3) sample_world
     = Ok () (schedule_all
                [add_downlink_view 3; remove_downlink_view 3]
                (store_view 3
                   (view_with_is_open false ValueDownlinkView_init)
                   sample_world)).
Proof.
  apply (open_and_close_compose sample_world 3 ValueDownlinkView_init);
    reflexivity.
Defined.

(** *** Registered classes *)

(** [Dimmer] has no default constructor: [Light] before it is registered,
    [Switch] after it is not. *)
Lemma register_classes_stops_at_the_first_failure_witness :
  register_classes 7 ([Light] ++ Dimmer :: [Switch]) ∅ lights_world =
  Raise (no_default_constructor Dimmer)
        (store_view 7
           (view_with_registered_classes
              (dict_set "Light" 7 (v_registered_classes lights_late_view))
              lights_late_view)
           lights_world).
Proof.
  apply (register_classes_stops_at_the_first_failure lights_world _ 7
           [Light] [Switch] Dimmer ∅ (∅ ∖ {["Light"]}));
    reflexivity.
Defined.

Lemma register_class_is_shared_witness :
  exists classes,
    (register_class 5 Switch ∅ ≫= fun d1 =>
     registered_classes 6 ≫= fun classes => mret (d1, classes)) lights_world
    = Ok (∅, classes)
         (store_manager 1
            (manager_with_classes
               (dict_set "Switch" 8 (mgr_registered_classes lights_manager))
               lights_manager) lights_world)
    /\ dict_get "Switch" classes = Some 8.
Proof.
  apply (register_class_is_shared lights_world 5 1 6 (lights_view (Some 50))
           (lights_view None) lights_manager Switch ∅); reflexivity.
Defined.

Lemma register_then_deregister_witness :
  exists classes d' w',
    (register_class 7 Light ∅ ≫= fun d1 =>
     deregister_class 7 Light d1 ≫= fun d2 =>
     registered_classes 7 ≫= fun classes => mret (d2, classes)) lights_world
    = Ok (d', classes) w'
    /\ dict_get "Light" classes = None
    /\ ("Switch" <> "Light" ->
        dict_get "Switch" classes
        = dict_get "Switch" (v_registered_classes lights_late_view))
    /\ "Light" ∈ d'.
Proof.
  apply (register_then_deregister lights_world 7 lights_late_view Light ∅
           "Switch"); try reflexivity.
  apply NoDup_singleton.
Defined.

Lemma deregister_all_classes_empties_the_registry_witness :
  (exists w',
      (deregister_all_classes 7 ∅ ≫= fun d1 =>
       registered_classes 7 ≫= fun classes => mret (d1, classes))
        lights_world
      = Ok (∅, []) w')
  /\ (deregister_all_classes 5 ∅ ≫= fun d1 =>
      registered_classes 6 ≫= fun classes => mret (d1, classes)) lights_world
     = Ok (∅ ∪ list_to_set
                 (dict_keys (mgr_registered_classes lights_manager)), [])
          (store_manager 1 (manager_with_classes [] lights_manager)
             lights_world).
Proof.
  apply (deregister_all_classes_empties_the_registry lights_world 7 5 1 6
           lights_late_view (lights_view (Some 50)) (lights_view None)
           lights_manager ∅); reflexivity.
Defined.

(** *** Reads *)

Lemma waiting_read_returns_after_synced_witness :
  ValueDownlinkModel_get_value 2 lights_unsynced_world
  = Ok Pending lights_unsynced_world
  /\ (exists w',
         (receive_message 2 (frame_event "lights" (Text "off")) ≫= fun _ =>
          ValueDownlinkModel_get_value 2) lights_unsynced_world
         = Ok Pending w')
  /\ (exists w',
         (wait_for_messages 2
            [frame_event "lights" (Text "off"); frame_synced] ≫= fun _ =>
          ValueDownlinkModel_get_value 2) lights_unsynced_world
         = Ok (Done (Text "off")) w').
Proof.
  apply (waiting_read_returns_after_synced lights_unsynced_world 2 1
           lights_unsynced_model lights_manager (Text "on")
           (frame_event "lights" (Text "off"))
           frame_synced); (reflexivity || (left; reflexivity)).
Defined.

(** The replica of the sample store holds [v] under [k]: the read that
    waits gives [k], the immediate read gives [(k, v)]. *)
Lemma map_reads_return_key_or_tuple_witness :
  MapDownlinkView_get_value 0 (Some (Text "k")) sample_world
  = Ok (Done (ret_obj (Text "k"))) sample_world
  /\ MapDownlinkView_get sample_task_result 0 (Some (Text "k")) false
       sample_world
     = Ok (ret_item (Text "k", Text "v")) sample_world.
Proof.
  apply (map_reads_return_key_or_tuple sample_task_result sample_world 0 0
           (sample_view 10 11) sample_model [("k", (Text "k", Text "v"))]
           (Some 10) (Some 11) (Text "k")); reflexivity.
Defined.

Lemma map_update_then_get_witness :
  exists w',
    (receive_message 0 (frame_update "k" "w") ≫= fun _ =>
     MapDownlinkView_get sample_task_result 1 (Some (Text "k")) false)
      sample_world
    = Ok (ret_item (Text "k", Text "w")) w'.
Proof.
  apply (map_update_then_get sample_task_result sample_world 0 0 1
           sample_model sample_manager (sample_view 20 21)
           [("k", (Text "k", Text "v"))] true (frame_update "k" "w")
           (Text "k") "k"); reflexivity.
Defined.

Lemma map_remove_then_get_witness :
  exists w',
    (receive_message 0 (frame_remove "k") ≫= fun _ =>
     MapDownlinkView_get sample_task_result 1 (Some (Text "k")) false)
      sample_world
    = Ok (ret_obj Absent) w'.
Proof.
  apply (map_remove_then_get sample_task_result sample_world 0 0 1
           sample_model sample_manager (sample_view 20 21)
           [("k", (Text "k", Text "v"))] true (frame_remove "k")
           (Text "k") "k"); try reflexivity.
  apply NoDup_singleton.
Defined.

(** The sample replica has nothing under [j]: the entry comes and goes. *)
Lemma map_update_then_remove_restores_the_replica_witness :
  wait_for_messages 0 [frame_update "j" "w"; frame_remove "j"] sample_world =
  Ok () (schedule_all
           [user_callback 10 [Text "j"; Text "w"; Absent];
            user_callback 20 [Text "j"; Text "w"; Absent];
            user_callback 11 [Text "j"; Text "j"];
            user_callback 21 [Text "j"; Text "j"]]
           sample_world).
Proof.
  apply (map_update_then_remove_restores_the_replica sample_world 0 0
           sample_model sample_manager [("k", (Text "k", Text "v"))] true
           (frame_update "j" "w") (frame_remove "j")); reflexivity.
Defined.

(** *** Creating a model *)

Lemma create_downlink_model_configures_a_new_model_witness :
  exists model m' w',
    create_downlink_model 7 1 lights_world = Ok model w'
    /\ models lights_world !! model = None
    /\ models w' !! model = Some m'
    /\ (forall other,
           other <> model -> models w' !! other = models lights_world !! other)
    /\ m_host_uri m' = Some "ws://h:9001"
    /\ m_node_uri m' = Some "a"
    /\ m_lane_uri m' = Some "lights"
    /\ m_downlink_manager m' = Some 1
    /\ m_linked m' = false
    /\ m_connection m' = None
    /\ m_state m' = ValueDownlinkModel Absent false
    /\ managers w' !! 1
       = Some (manager_with_strict true
                 (manager_with_classes [("Switch", 8)] lights_manager))
    /\ views w' = views lights_world
    /\ scheduled w' = scheduled lights_world.
Proof.
  apply (create_downlink_model_configures_a_new_model lights_world 7 1
           lights_late_view lights_manager); reflexivity.
Defined.

Lemma created_model_names_the_lane_of_the_view_witness :
  exists w',
    (create_downlink_model 7 1 ≫= fun model =>
     receive_message model (frame_unlinked [Attr "laneNotFound" Extant]))
      lights_world
    = Raise (Exception ("Lane " +:+ dquote +:+ "lights" +:+ dquote
                        +:+ " was not found on the remote agent!")) w'.
Proof.
  apply (created_model_names_the_lane_of_the_view lights_world 7 1
           lights_late_view lights_manager
           (frame_unlinked [Attr "laneNotFound" Extant])); reflexivity.
Defined.

(** *** What no inbound message does *)

Lemma linked_is_never_cleared_witness :
  match wait_for_messages 0 [frame_unlinked []; frame_synced] sample_world
  with
  | Ok _ w' | Raise _ w' => linked_is_set 0 w' = true
  | Stuck => True
  end.
Proof.
  apply (linked_is_never_cleared [frame_unlinked []; frame_synced] 0 0
           sample_world). reflexivity.
Defined.

End MoreScenarios.
